(** * uStreamer HTTP server: a shallow embedding of [src/http.c]

    The server's memory (the stream slot shared with the producer, the
    exposed snapshot, the heap of [stream_client_t] objects with their
    [prev]/[next] pointers, and the bufferevents of the live
    connections) is one record, [world]; the C functions
    [http_server_init], [_http_callback_snapshot],
    [_http_callback_stream], [_http_callback_stream_write],
    [_http_callback_stream_error], [_http_queue_send_stream],
    [_http_exposed_refresh], [_expose_new_picture] and
    [_expose_blank_picture] are computations in a state-and-failure
    monad over it, in the order of the source.  A computation fails
    ([None]) where the C code has no defined behaviour: a pointer that
    does not point to a live object, a [memcpy] outside a buffer, a
    loop over a cyclic list.  The pages [/] and [/ping] are the pure
    functions [_http_callback_root] and [_http_callback_ping]; the
    socket set-up and tear-down ([http_server_listen],
    [http_server_loop], [http_server_destroy]) is left to libevent and
    not modelled. *)

From Stdlib Require Import ZArith NArith List.
From Stdlib.Strings Require Import Ascii String Byte.
From Stdlib Require Import Decimal DecimalString DecimalNat DecimalN Lia.
From stdpp Require Import base option list gmap.

Local Open Scope nat_scope.

(** ** Bytes, C string literals and [printf] conversions *)

Abbreviation bytes := (list byte).

Definition str (s : string) : bytes := list_byte_of_string s.

(** [#define RN "\r\n"] and [#define BOUNDARY "boundarydonotcross"]. *)
Definition RN : string := String "013" (String "010" EmptyString).
Definition BOUNDARY : string := "boundarydonotcross".

(** The casts [(unsigned)x] of the source: reduction modulo 2^32. *)
Definition to_unsigned (x : Z) : N := Z.to_N (x mod 2 ^ 32).

(** [%u] and [%lu]: decimal digits, no padding. *)
Definition fmt_u (n : N) : string := NilEmpty.string_of_uint (N.to_uint n).
Definition fmt_lu (n : nat) : string := NilEmpty.string_of_uint (Nat.to_uint n).

Fixpoint zeros (k : nat) : string :=
  match k with
  | O => EmptyString
  | S k' => String "0" (zeros k')
  end.

(** [%06u]: decimal digits, padded on the left with zeros to six columns. *)
Definition fmt_06u (n : N) : string :=
  let s := fmt_u n in
  (zeros (6 - String.length s) ++ s)%string.

(** [struct timespec], as filled by [clock_gettime]. *)
Record timespec := Timespec { tv_sec : Z; tv_nsec : Z }.

(** ** Data model ([stream.h], [http.h])

    Byte counts ([unsigned long] in C) are kept as [nat]: the source
    compares and copies them and multiplies them by
    [sizeof(unsigned char)], which is 1, so none of its operations on
    them wraps.  [data] is the content of the block that the C pointer
    [data] points to (the empty list for [NULL]). *)

Record picture_t := Picture {
  data : bytes;
  size : nat;
  allocated : nat
}.

(** The producer's frame slot.  [mutex] is true while the event loop
    holds [stream->mutex]. *)
Record stream_t := Stream {
  stream_picture : picture_t;
  stream_width : N;
  stream_height : N;
  updated : bool;
  mutex : bool
}.

Record exposed_t := Exposed {
  exposed_picture : picture_t;
  exposed_width : N;
  exposed_height : N;
  online : bool
}.

(** Addresses of [stream_client_t] objects and handles of connections. *)
Abbreviation loc := positive.
Abbreviation evhttp_connection := positive.

Inductive evhttp_cmd_type := EVHTTP_REQ_GET | EVHTTP_REQ_HEAD.

(** What this file observes of a [struct evhttp_request]: its method,
    the connection that [evhttp_request_get_connection] returns ([None]
    for [NULL]) and the output headers added so far. *)
Record evhttp_request := Request {
  command : evhttp_cmd_type;
  evcon : option evhttp_connection;
  output_headers : list (string * string)
}.

Record stream_client_t := Client {
  request : evhttp_request;
  need_initial : bool;
  prev : option loc;
  next : option loc
}.

(** The callbacks of this file that [bufferevent_setcb] installs. *)
Inductive callback := CB_stream_write | CB_stream_error.

(** A bufferevent: the three callback slots ([None] for [NULL]), their
    shared argument, the enabled events and the bytes handed to its
    output buffer so far. *)
Record bufferevent := Bufferevent {
  readcb : option callback;
  writecb : option callback;
  errorcb : option callback;
  cbarg : option loc;
  ev_read : bool;
  ev_write : bool;
  output : bytes
}.

(** The bufferevent of a connection this file has not touched yet. *)
Definition bufferevent_new : bufferevent :=
  Bufferevent None None None None false false [].

(** Ghost trace: the accesses to the producer's frame slot and the
    iterations of the list walk in [_http_callback_stream]. *)
Inductive stream_field :=
  F_updated | F_picture_data | F_picture_size | F_picture_allocated
| F_width | F_height.

Inductive event :=
| E_lock
| E_unlock
| E_read (f : stream_field)
| E_write (f : stream_field)
| E_memcpy_frame
| E_walk (c : loc).

Record world := World {
  stream : stream_t;                    (* *server->run->stream *)
  exposed : exposed_t;                  (* *server->run->exposed *)
  stream_clients : option loc;          (* server->run->stream_clients *)
  heap : gmap loc stream_client_t;      (* the live stream_client_t objects *)
  bevs : gmap evhttp_connection bufferevent;        (* bufferevents of the connections in use *)
  trace : list event                    (* ghost *)
}.

Definition set_stream (s : stream_t) (w : world) : world :=
  World s (exposed w) (stream_clients w) (heap w) (bevs w) (trace w).
Definition set_exposed (e : exposed_t) (w : world) : world :=
  World (stream w) e (stream_clients w) (heap w) (bevs w) (trace w).
Definition set_stream_clients (h : option loc) (w : world) : world :=
  World (stream w) (exposed w) h (heap w) (bevs w) (trace w).
Definition set_heap (m : gmap loc stream_client_t) (w : world) : world :=
  World (stream w) (exposed w) (stream_clients w) m (bevs w) (trace w).
Definition set_bevs (m : gmap evhttp_connection bufferevent) (w : world) : world :=
  World (stream w) (exposed w) (stream_clients w) (heap w) m (trace w).
Definition set_trace (t : list event) (w : world) : world :=
  World (stream w) (exposed w) (stream_clients w) (heap w) (bevs w) t.

(** ** The monad of the C functions *)

Definition M (A : Type) : Type := world -> option (A * world).

Definition ret {A} (a : A) : M A := fun w => Some (a, w).
Definition bind {A B} (m : M A) (f : A -> M B) : M B := fun w =>
  match m w with
  | Some (a, w') => f a w'
  | None => None
  end.

Declare Scope M_scope.
Delimit Scope M_scope with M.
Bind Scope M_scope with M.
Notation "x ← y ; z" := (bind y (fun x => z))
  (at level 20, y at level 100, z at level 200, only parsing) : M_scope.
Notation "x ;; z" := (bind x (fun _ => z))
  (at level 100, z at level 200, only parsing, right associativity) : M_scope.
Local Open Scope M_scope.

Definition gets {A} (f : world -> A) : M A := fun w => Some (f w, w).
Definition modify (f : world -> world) : M unit := fun w => Some (tt, f w).
Definition fail {A} : M A := fun _ => None.
Definition lift {A} (o : option A) : M A := fun w =>
  match o with
  | Some a => Some (a, w)
  | None => None
  end.

(** Final state of a computation. *)
Definition exec {A} (m : M A) (w : world) : option world := snd <$> m w.

Definition log (e : event) : M unit :=
  modify (fun w => set_trace (trace w ++ [e]) w).

(** ** Memory primitives *)

(** Modelled from the spec: [tools.h] is absent.  [A_REALLOC(ptr, n)]
    is [realloc] asserted to succeed: the block keeps its first bytes
    and the bytes gained are indeterminate; [junk i] is what the
    allocator left at offset [i]. *)
Definition A_REALLOC (old : bytes) (n : nat) (junk : nat -> byte) : bytes :=
  take n old ++ (junk <$> seq (length old) (n - length old)).

(** [memcpy(dst, src, n)]: defined only inside both blocks. *)
Definition memcpy (dst src : bytes) (n : nat) : option bytes :=
  if decide (n <= length src /\ n <= length dst)
  then Some (take n src ++ drop n dst)
  else None.

(** Modelled from the spec: [data/blank.h] is absent.  It holds the
    embedded blank JPEG: its bytes, width and height; [BLANK_JPG_SIZE]
    is the byte count of [BLANK_JPG_DATA]. *)
Class blank_h := Blank_h {
  BLANK_JPG_DATA : bytes;
  BLANK_JPG_WIDTH : N;
  BLANK_JPG_HEIGHT : N
}.

Definition BLANK_JPG_SIZE `{blank_h} : nat := length BLANK_JPG_DATA.
Arguments BLANK_JPG_SIZE : simpl never.

(** ** Field accesses *)

(** A read of a field of [*server->run->stream], recorded in the trace. *)
Definition stream_get {A} (f : stream_field) (proj : stream_t -> A) : M A :=
  log (E_read f) ;; gets (fun w => proj (stream w)).

Definition stream_picture_allocated : M nat :=
  stream_get F_picture_allocated (fun s => allocated (stream_picture s)).
Definition stream_picture_size : M nat :=
  stream_get F_picture_size (fun s => size (stream_picture s)).
Definition stream_picture_data : M bytes :=
  stream_get F_picture_data (fun s => data (stream_picture s)).

Definition set_updated (b : bool) : M unit :=
  log (E_write F_updated) ;;
  modify (fun w =>
    let s := stream w in
    set_stream (Stream (stream_picture s) (stream_width s) (stream_height s) b (mutex s)) w).

Definition set_mutex (b : bool) : M unit :=
  modify (fun w =>
    let s := stream w in
    set_stream (Stream (stream_picture s) (stream_width s) (stream_height s) (updated s) b) w).

Definition exposed_get {A} (proj : exposed_t -> A) : M A :=
  gets (fun w => proj (exposed w)).

Definition set_exposed_picture (f : picture_t -> picture_t) : M unit :=
  modify (fun w =>
    let e := exposed w in
    set_exposed (Exposed (f (exposed_picture e)) (exposed_width e) (exposed_height e) (online e)) w).

Definition set_exposed_picture_data (d : bytes) : M unit :=
  set_exposed_picture (fun p => Picture d (size p) (allocated p)).
Definition set_exposed_picture_size (n : nat) : M unit :=
  set_exposed_picture (fun p => Picture (data p) n (allocated p)).
Definition set_exposed_picture_allocated (n : nat) : M unit :=
  set_exposed_picture (fun p => Picture (data p) (size p) n).

Definition set_exposed_width (x : N) : M unit :=
  modify (fun w =>
    let e := exposed w in
    set_exposed (Exposed (exposed_picture e) x (exposed_height e) (online e)) w).
Definition set_exposed_height (x : N) : M unit :=
  modify (fun w =>
    let e := exposed w in
    set_exposed (Exposed (exposed_picture e) (exposed_width e) x (online e)) w).
Definition set_online (b : bool) : M unit :=
  modify (fun w =>
    let e := exposed w in
    set_exposed (Exposed (exposed_picture e) (exposed_width e) (exposed_height e) b) w).

(** [*c] for a pointer to a [stream_client_t]: the object must be live. *)
Definition deref (c : loc) : M stream_client_t :=
  fun w => lift (heap w !! c) w.

Definition store (c : loc) (cl : stream_client_t) : M unit :=
  modify (fun w => set_heap (<[c := cl]> (heap w)) w).

Definition set_need_initial (c : loc) (b : bool) : M unit :=
  cl ← deref c; store c (Client (request cl) b (prev cl) (next cl)).
Definition set_prev (c : loc) (p : option loc) : M unit :=
  cl ← deref c; store c (Client (request cl) (need_initial cl) p (next cl)).
Definition set_next (c : loc) (n : option loc) : M unit :=
  cl ← deref c; store c (Client (request cl) (need_initial cl) (prev cl) n).

(** [free(client)]. *)
Definition free (c : loc) : M unit :=
  _ ← deref c; modify (fun w => set_heap (delete c (heap w)) w).

(** ** libevent, as far as this file drives it *)

(** [evhttp_connection_get_bufferevent]. *)
Definition get_bufferevent (k : evhttp_connection) (w : world) : bufferevent :=
  default bufferevent_new (bevs w !! k).

Definition bufferevent_setcb (k : evhttp_connection) (r wr e : option callback) (arg : loc) : M unit :=
  modify (fun w =>
    let b := get_bufferevent k w in
    set_bevs (<[k := Bufferevent r wr e (Some arg) (ev_read b) (ev_write b) (output b)]> (bevs w)) w).

(** [bufferevent_enable(bev, events)]: the flags are or-ed in. *)
Definition bufferevent_enable (k : evhttp_connection) (rd wr : bool) : M unit :=
  modify (fun w =>
    let b := get_bufferevent k w in
    set_bevs (<[k := Bufferevent (readcb b) (writecb b) (errorcb b) (cbarg b)
                       (ev_read b || rd) (ev_write b || wr) (output b)]> (bevs w)) w).

(** [bufferevent_write_buffer(bev, buf)] moves the whole of [buf] to the
    output of [bev]; the result is the drained [buf]. *)
Definition bufferevent_write_buffer (k : evhttp_connection) (buf : bytes) : M bytes :=
  modify (fun w =>
    let b := get_bufferevent k w in
    set_bevs (<[k := Bufferevent (readcb b) (writecb b) (errorcb b) (cbarg b)
                       (ev_read b) (ev_write b) (output b ++ buf)]> (bevs w)) w) ;;
  ret [].

(** [evhttp_connection_free(conn)] releases the connection and its
    bufferevent. *)
Definition evhttp_connection_free (k : evhttp_connection) : M unit :=
  modify (fun w => set_bevs (delete k (bevs w)) w).

Definition evbuffer_new : bytes := [].

Definition evbuffer_add_printf (buf : bytes) (formatted : string) : bytes :=
  buf ++ str formatted.

(** [evbuffer_add(buf, data, n)] reads [n] bytes at [data]. *)
Definition evbuffer_add (buf : bytes) (d : bytes) (n : nat) : option bytes :=
  if decide (n <= length d) then Some (buf ++ take n d) else None.

(** A reply handed to [evhttp_send_reply]: status, reason, the
    request's output headers and the body ([NULL] is the empty body). *)
Record reply := Reply {
  code : nat;
  reason : string;
  headers : list (string * string);
  body : bytes
}.

Definition HTTP_OK : nat := 200.

Definition evhttp_send_reply (request : evhttp_request) (c : nat) (r : string)
    (buf : option bytes) : reply :=
  Reply c r (output_headers request) (default [] buf).

(** [ADD_HEADER]: [evhttp_add_header] appends to the output headers. *)
Definition ADD_HEADER (key value : string) (request : evhttp_request) : evhttp_request :=
  Request (command request) (evcon request) (output_headers request ++ [(key, value)]).

(** What a handler did with its request. *)
Inductive request_fate :=
| Replied (r : reply)   (* evhttp_send_reply *)
| Pending               (* kept open: a stream client owns it *)
| Freed.                (* evhttp_request_free *)

(** ** The functions of [http.c] *)

Section Http.
Context `{blank_h}.

(** [PROCESS_HEAD_REQUEST]: the reply to a HEAD request, if it is one. *)
Definition PROCESS_HEAD_REQUEST (request : evhttp_request) : option reply :=
  match command request with
  | EVHTTP_REQ_HEAD => Some (evhttp_send_reply request HTTP_OK "OK" None)
  | EVHTTP_REQ_GET => None
  end.

(** The double quote of the C literals. *)
Definition DQ : string := String "034" EmptyString.

(** The page of [_http_callback_root]. *)
Definition root_page : string :=
  ("<!DOCTYPE html><html><head><meta charset=" ++ DQ ++ "utf-8" ++ DQ ++ ">"
   ++ "<title>uStreamer</title></head><body><ul>"
   ++ "<li><a href=" ++ DQ ++ "/ping" ++ DQ ++ ">/ping</a></li>"
   ++ "<li><a href=" ++ DQ ++ "/snapshot" ++ DQ ++ ">/snapshot</a></li>"
   ++ "<li><a href=" ++ DQ ++ "/stream" ++ DQ ++ ">/stream</a></li>"
   ++ "</body></html>")%string.

(** [_http_callback_root]. *)
Definition _http_callback_root (request : evhttp_request) : reply :=
  match PROCESS_HEAD_REQUEST request with
  | Some r => r
  | None =>
      let buf := evbuffer_add_printf evbuffer_new root_page in
      let request := ADD_HEADER "Content-Type" "text/html" request in
      evhttp_send_reply request HTTP_OK "OK" (Some buf)
  end.

(** The format of [_http_callback_ping] applied to its arguments. *)
Definition ping_body (width height : N) (is_online : bool) : string :=
  ("{" ++ DQ ++ "stream" ++ DQ ++ ": {" ++ DQ ++ "resolution" ++ DQ ++ ":"
   ++ " {" ++ DQ ++ "width" ++ DQ ++ ": " ++ fmt_u width
   ++ ", " ++ DQ ++ "height" ++ DQ ++ ": " ++ fmt_u height ++ "},"
   ++ " " ++ DQ ++ "online" ++ DQ ++ ": " ++ (if is_online then "true" else "false")
   ++ "}}")%string.

(** [_http_callback_ping]; its argument is the exposed snapshot. *)
Definition _http_callback_ping (request : evhttp_request) (v_exposed : exposed_t) : reply :=
  match PROCESS_HEAD_REQUEST request with
  | Some r => r
  | None =>
      let buf := evbuffer_add_printf evbuffer_new
                   (ping_body (exposed_width v_exposed) (exposed_height v_exposed)
                      (online v_exposed)) in
      let request := ADD_HEADER "Content-Type" "application/json" request in
      evhttp_send_reply request HTTP_OK "OK" (Some buf)
  end.

(** The [sprintf] of ["%u.%06u"] on the seconds and microseconds of the clock. *)
Definition x_timestamp (now : timespec) : string :=
  (fmt_u (to_unsigned (tv_sec now)) ++ "."
   ++ fmt_06u (to_unsigned (tv_nsec now ÷ 1000)))%string.

(** [_http_callback_snapshot]; its argument is the exposed snapshot. *)
Definition _http_callback_snapshot (request : evhttp_request) (v_exposed : exposed_t)
    (now : timespec) : option reply :=
  match PROCESS_HEAD_REQUEST request with
  | Some r => Some r
  | None =>
      match evbuffer_add evbuffer_new
              (data (exposed_picture v_exposed)) (size (exposed_picture v_exposed)) with
      | None => None
      | Some buf =>
          let x_timestamp_buf := x_timestamp now in
          let request := ADD_HEADER "Access-Control-Allow-Origin:" "*" request in
          let request := ADD_HEADER "Cache-Control"
            "no-store, no-cache, must-revalidate, pre-check=0, post-check=0, max-age=0"
            request in
          let request := ADD_HEADER "Pragma" "no-cache" request in
          let request := ADD_HEADER "Expires" "Mon, 3 Jan 2000 12:34:56 GMT" request in
          let request := ADD_HEADER "X-Timestamp" x_timestamp_buf request in
          let request := ADD_HEADER "Content-Type" "image/jpeg" request in
          Some (evhttp_send_reply request HTTP_OK "OK" (Some buf))
      end
  end.

(** The loop [for (; last->next != NULL; last = last->next);].  The
    fuel bounds the iterations by the number of live clients; a walk
    that needs more is in a cycle, where the C loop does not end. *)
Fixpoint walk_to_last (fuel : nat) (last : loc) : M loc :=
  cl ← deref last;
  match next cl with
  | None => ret last
  | Some n =>
      match fuel with
      | O => fail
      | S fuel' => log (E_walk n) ;; walk_to_last fuel' n
      end
  end.

(** [_http_callback_stream].  [client] is the address that
    [A_CALLOC(client, 1)] returns; it is never that of a live object. *)
Definition _http_callback_stream (request : evhttp_request) (client : loc) : M request_fate :=
  match PROCESS_HEAD_REQUEST request with
  | Some r => ret (Replied r)
  | None =>
      match evcon request with
      | Some conn =>
          live ← gets (fun w => heap w !! client);
          (if live is Some _ then fail else ret tt) ;;
          store client (Client request true None None) ;;
          first ← gets stream_clients;
          match first with
          | None => modify (set_stream_clients (Some client))
          | Some first =>
              fuel ← gets (fun w => base.size (heap w));
              last ← walk_to_last fuel first;
              set_prev client (Some last) ;;
              set_next last (Some client)
          end ;;
          bufferevent_setcb conn None None (Some CB_stream_error) client ;;
          bufferevent_enable conn true false ;;
          ret Pending
      | None => ret Freed
      end
  end.

(** The response preamble of [_http_callback_stream_write], as the C
    preprocessor concatenates it. *)
Definition stream_preamble : string :=
  ("HTTP/1.0 200 OK" ++ RN
   ++ "Access-Control-Allow-Origin: *" ++ RN
   ++ "Cache-Control: no-store, no-cache, must-revalidate, pre-check=0, post-check=0, max-age=0" ++ RN
   ++ "Pragma: no-cache" ++ RN
   ++ "Expires: Mon, 3 Jan 2000 12:34:56 GMT" ++ RN
   ++ "Content-Type: multipart/x-mixed-replace;boundary=" ++ BOUNDARY ++ RN
   ++ RN
   ++ "--" ++ BOUNDARY ++ RN)%string.

(** The part header: the format of line 277 applied to its arguments. *)
Definition stream_part_header (content_length : nat) (now : timespec) : string :=
  ("Content-Type: image/jpeg" ++ RN
   ++ "Content-Length: " ++ fmt_lu content_length ++ RN
   ++ "X-Timestamp: " ++ fmt_u (to_unsigned (tv_sec now)) ++ "."
   ++ fmt_06u (to_unsigned (tv_nsec now ÷ 1000)) ++ RN
   ++ RN)%string.

Definition stream_part_trailer : string :=
  (RN ++ "--" ++ BOUNDARY ++ RN)%string.

(** [_http_callback_stream_write]; [now] is what [clock_gettime] returns. *)
Definition _http_callback_stream_write (buf_event : evhttp_connection) (v_client : loc)
    (now : timespec) : M unit :=
  let buf := evbuffer_new in
  client ← deref v_client;
  buf ← (if need_initial client then
           let buf := evbuffer_add_printf buf stream_preamble in
           buf ← bufferevent_write_buffer buf_event buf;
           set_need_initial v_client false ;;
           ret buf
         else ret buf);
  picture ← exposed_get exposed_picture;
  let buf := evbuffer_add_printf buf (stream_part_header (size picture * 1) now) in
  buf ← lift (evbuffer_add buf (data picture) (size picture * 1));
  let buf := evbuffer_add_printf buf stream_part_trailer in
  _ ← bufferevent_write_buffer buf_event buf;
  bufferevent_setcb buf_event None None (Some CB_stream_error) v_client ;;
  bufferevent_enable buf_event true false.

(** [_http_callback_stream_error]. *)
Definition _http_callback_stream_error (v_client : loc) : M unit :=
  client ← deref v_client;
  (match evcon (request client) with
   | Some conn => evhttp_connection_free conn
   | None => ret tt
   end) ;;
  client ← deref v_client;
  (match prev client with
   | None => modify (set_stream_clients (next client))
   | Some p => set_next p (next client)
   end) ;;
  client ← deref v_client;
  (match next client with
   | Some n => set_prev n (prev client)
   | None => ret tt
   end) ;;
  free v_client.

(** The loop of [_http_queue_send_stream], with the same fuel as above. *)
Fixpoint queue_send_from (fuel : nat) (client : option loc) : M unit :=
  match client with
  | None => ret tt
  | Some c =>
      match fuel with
      | O => fail
      | S fuel' =>
          cl ← deref c;
          (match evcon (request cl) with
           | Some conn =>
               bufferevent_setcb conn None (Some CB_stream_write) (Some CB_stream_error) c ;;
               bufferevent_enable conn true true
           | None => ret tt
           end) ;;
          cl ← deref c;
          queue_send_from fuel' (next cl)
      end
  end.

Definition _http_queue_send_stream : M unit :=
  fuel ← gets (fun w => base.size (heap w));
  first ← gets stream_clients;
  queue_send_from fuel first.

(** [_expose_new_picture]. *)
Definition _expose_new_picture (junk : nat -> byte) : M unit :=
  e_allocated ← exposed_get (fun e => allocated (exposed_picture e));
  s_allocated ← stream_picture_allocated;
  (if decide (e_allocated < s_allocated) then
     old ← exposed_get (fun e => data (exposed_picture e));
     n ← stream_picture_allocated;
     set_exposed_picture_data (A_REALLOC old n junk) ;;
     n ← stream_picture_allocated;
     set_exposed_picture_allocated n
   else ret tt) ;;
  dst ← exposed_get (fun e => data (exposed_picture e));
  src ← stream_picture_data;
  n ← stream_picture_size;
  log E_memcpy_frame ;;
  d ← lift (memcpy dst src (n * 1));
  set_exposed_picture_data d ;;
  n ← stream_picture_size;
  set_exposed_picture_size n ;;
  x ← stream_get F_width stream_width;
  set_exposed_width x ;;
  x ← stream_get F_height stream_height;
  set_exposed_height x ;;
  set_online true.

(** [_expose_blank_picture]. *)
Definition _expose_blank_picture (junk : nat -> byte) : M unit :=
  o ← exposed_get online;
  n ← exposed_get (fun e => size (exposed_picture e));
  if o || bool_decide (n = 0) then
    e_allocated ← exposed_get (fun e => allocated (exposed_picture e));
    (if decide (e_allocated < BLANK_JPG_SIZE) then
       old ← exposed_get (fun e => data (exposed_picture e));
       set_exposed_picture_data (A_REALLOC old BLANK_JPG_SIZE junk) ;;
       set_exposed_picture_allocated BLANK_JPG_SIZE
     else ret tt) ;;
    dst ← exposed_get (fun e => data (exposed_picture e));
    d ← lift (memcpy dst BLANK_JPG_DATA (BLANK_JPG_SIZE * 1));
    set_exposed_picture_data d ;;
    set_exposed_picture_size BLANK_JPG_SIZE ;;
    set_exposed_width BLANK_JPG_WIDTH ;;
    set_exposed_height BLANK_JPG_HEIGHT ;;
    set_online false
  else ret tt.

(** [LOCK_STREAM] and [UNLOCK_STREAM] of [_http_exposed_refresh].
    Locking a mutex that the thread already holds does not return. *)
Definition LOCK_STREAM : M unit :=
  locked ← gets (fun w => mutex (stream w));
  if locked then fail else log E_lock ;; set_mutex true.

Definition UNLOCK_STREAM : M unit :=
  set_updated false ;; log E_unlock ;; set_mutex false.

(** [_http_exposed_refresh], the body of the refresh tick. *)
Definition _http_exposed_refresh (junk : nat -> byte) : M unit :=
  u ← stream_get F_updated updated;
  if u then
    LOCK_STREAM ;;
    n ← stream_picture_size;
    (if decide (0 < n) then
       _expose_new_picture junk ;;
       UNLOCK_STREAM
     else
       UNLOCK_STREAM ;;
       _expose_blank_picture junk) ;;
    _http_queue_send_stream
  else
    o ← exposed_get online;
    if negb o then _http_queue_send_stream else ret tt.

(** [http_server_init]: the zeroed objects of the three [A_CALLOC]s,
    then [_expose_blank_picture].  The routes and the timer that it
    registers are the dispatch of [fire] below. *)
Definition http_server_init (stream : stream_t) (junk : nat -> byte) : option world :=
  let exposed := Exposed (Picture [] 0 0) 0 0 false in
  exec (_expose_blank_picture junk) (World stream exposed None ∅ ∅ []).

End Http.

(** ** The event loop

    What [event_base_dispatch] can do to the server between two
    returns to the loop.  The routes and the timer are those that
    [http_server_init] registers; the callbacks of a bufferevent are
    those that [bufferevent_setcb] left in its slots. *)

Inductive loop_event :=
| Refresh (junk : nat -> byte)
    (* the timer [run->refresh] fires *)
| Stream_request (request : evhttp_request) (client : loc)
    (* a request for [/stream] is dispatched *)
| Writable (k : evhttp_connection) (now : timespec)
    (* the output of bufferevent [k] has drained *)
| Failed (k : evhttp_connection)
    (* error, end of file or timeout on bufferevent [k] *)
| Produce (picture : picture_t) (width height : N).
    (* the producer thread publishes a frame under the mutex *)

Section Loop.
Context `{blank_h}.

Definition fire (e : loop_event) : M unit :=
  match e with
  | Refresh junk => _http_exposed_refresh junk
  | Stream_request request client =>
      (* the connection of a new request carries no stream client *)
      bs ← gets bevs;
      (match evcon request with
       | Some k => if bs !! k is Some _ then fail else ret tt
       | None => ret tt
       end) ;;
      _ ← _http_callback_stream request client;
      ret tt
  | Writable k now =>
      bs ← gets bevs;
      b ← lift (bs !! k);
      match writecb b, cbarg b with
      | Some CB_stream_write, Some c =>
          if ev_write b then _http_callback_stream_write k c now else fail
      | _, _ => fail
      end
  | Failed k =>
      bs ← gets bevs;
      b ← lift (bs !! k);
      match errorcb b, cbarg b with
      | Some CB_stream_error, Some c =>
          if ev_read b || ev_write b then _http_callback_stream_error c else fail
      | _, _ => fail
      end
  | Produce picture width height =>
      (* the producer keeps size within the block and the capacity *)
      locked ← gets (fun w => mutex (stream w));
      if locked then fail
      else if decide (size picture <= length (data picture) /\ size picture <= allocated picture)
      then modify (set_stream (Stream picture width height true false))
      else fail
  end.

(** The states of a server that was initialised on a stream slot whose
    picture is within its block. *)
Inductive reachable : world -> Prop :=
| reachable_init stream junk w :
    mutex stream = false ->
    size (stream_picture stream) <= length (data (stream_picture stream)) ->
    size (stream_picture stream) <= allocated (stream_picture stream) ->
    http_server_init stream junk = Some w ->
    reachable w
| reachable_fire e w w' :
    reachable w ->
    exec (fire e) w = Some w' ->
    reachable w'.

(** The loop serving a list of events in turn. *)
Fixpoint run (es : list loop_event) (w : world) : option world :=
  match es with
  | [] => Some w
  | e :: es' =>
      match exec (fire e) w with
      | Some w' => run es' w'
      | None => None
      end
  end.

(** [_expose_blank_picture] called once for each element of [js]. *)
Fixpoint blankify_times (js : list (nat -> byte)) : M unit :=
  match js with
  | [] => ret tt
  | junk :: js' => _expose_blank_picture junk ;; blankify_times js'
  end.

(** ** Predicates of the claims *)

(** The picture of an exposed snapshot is the blank JPEG. *)
Definition is_blank (e : exposed_t) : Prop :=
  size (exposed_picture e) = BLANK_JPG_SIZE
  /\ take (size (exposed_picture e)) (data (exposed_picture e)) = BLANK_JPG_DATA
  /\ exposed_width e = BLANK_JPG_WIDTH
  /\ exposed_height e = BLANK_JPG_HEIGHT.

Definition blank_when_offline (e : exposed_t) : Prop :=
  online e = false -> is_blank e.

End Loop.

(** The capacity of a picture is the length of its block, and its
    valid bytes are within it. *)
Definition picture_fits (p : picture_t) : Prop :=
  length (data p) = allocated p /\ size p <= allocated p.

(** A doubly linked segment of the heap: from [cur], whose first node
    has [p] as its [prev], through the nodes [l] in order, to [nxt];
    [lst] is the last node (or [p] when the segment is empty). *)
Fixpoint dseg (h : gmap loc stream_client_t) (p cur : option loc) (l : list loc)
    (lst nxt : option loc) : Prop :=
  match l with
  | [] => cur = nxt /\ lst = p
  | c :: l' =>
      cur = Some c
      /\ exists cl, h !! c = Some cl /\ prev cl = p /\ dseg h (Some c) (next cl) l' lst nxt
  end.

(** The client registry holds exactly the clients [l], in this order. *)
Definition registry (w : world) (l : list loc) : Prop :=
  (exists lst, dseg (heap w) None (stream_clients w) l lst None)
  /\ forall c, c ∈ l <-> is_Some (heap w !! c).

(** Every access to the frame slot in a trace happens between a lock
    and the next unlock; [locked] is the state of the mutex before. *)
Fixpoint guarded (locked : bool) (t : list event) : bool :=
  match t with
  | [] => true
  | E_lock :: t' => guarded true t'
  | E_unlock :: t' => guarded false t'
  | E_read _ :: t' | E_write _ :: t' | E_memcpy_frame :: t' => locked && guarded locked t'
  | E_walk _ :: t' => guarded locked t'
  end.

Definition is_lock (e : event) : bool :=
  match e with E_lock => true | _ => false end.
Definition is_frame_copy (e : event) : bool :=
  match e with E_memcpy_frame => true | _ => false end.
Definition is_walk (e : event) : bool :=
  match e with E_walk _ => true | _ => false end.

(** The number of events of one kind in a trace. *)
Definition count (f : event -> bool) (t : list event) : nat :=
  length (List.filter f t).

(** ** Decimal text *)

Definition is_digit (c : ascii) : bool :=
  match c with
  | "0" | "1" | "2" | "3" | "4" | "5" | "6" | "7" | "8" | "9" => true
  | _ => false
  end%char.

Fixpoint all_digits (s : string) : bool :=
  match s with
  | EmptyString => true
  | String c s' => is_digit c && all_digits s'
  end.

(** ** The multipart stream, in the words of the specification *)

Definition crlf : bytes := [Byte.x0d; Byte.x0a].

Definition spec_line (s : string) : bytes := str s ++ crlf.

Definition spec_preamble : bytes :=
  concat (spec_line <$> [
    "HTTP/1.0 200 OK";
    "Access-Control-Allow-Origin: *";
    "Cache-Control: no-store, no-cache, must-revalidate, pre-check=0, post-check=0, max-age=0";
    "Pragma: no-cache";
    "Expires: Mon, 3 Jan 2000 12:34:56 GMT";
    "Content-Type: multipart/x-mixed-replace;boundary=boundarydonotcross";
    "";
    "--boundarydonotcross"
  ]%string).

(** One part: the text of its two variable headers and its JPEG bytes. *)
Record multipart_part := Part {
  part_content_length : string;
  part_x_timestamp : string;
  part_jpeg : bytes
}.

Definition spec_part (p : multipart_part) : bytes :=
  spec_line "Content-Type: image/jpeg"
  ++ spec_line ("Content-Length: " ++ part_content_length p)
  ++ spec_line ("X-Timestamp: " ++ part_x_timestamp p)
  ++ crlf
  ++ part_jpeg p ++ crlf
  ++ spec_line "--boundarydonotcross".

(** A decimal numeral: digits only, at least one, and no leading zero
    unless it is the numeral of zero. *)
Definition decimal_numeral (s : string) : bool :=
  match s with
  | EmptyString => false
  | String c EmptyString => is_digit c
  | String c s' => is_digit c && negb (Ascii.eqb c "0"%char) && all_digits s'
  end.

(** Reading a decimal header value. *)
Definition read_decimal (s : string) : option nat :=
  Nat.of_uint <$> NilEmpty.uint_of_string s.

(** The [Content-Length] of a part is the decimal numeral of the count
    of the JPEG bytes that follow its headers. *)
Definition content_length_correct (p : multipart_part) : Prop :=
  decimal_numeral (part_content_length p) = true
  /\ read_decimal (part_content_length p) = Some (length (part_jpeg p)).

(** The text before the first dot of [s], and the text after it. *)
Fixpoint until_dot (s : string) : option (string * string) :=
  match s with
  | EmptyString => None
  | String c s' =>
      if Ascii.eqb c "."%char then Some (EmptyString, s')
      else match until_dot s' with
           | Some (a, r) => Some (String c a, r)
           | None => None
           end
  end.

(** [<sec>.<usec>]: the seconds as a decimal numeral, a dot, and the
    microseconds in digits, padded with zeros to six columns. *)
Definition timestamp_text (s : string) : bool :=
  match until_dot s with
  | Some (sec, usec) =>
      decimal_numeral sec && all_digits usec && Nat.leb 6 (String.length usec)
  | None => false
  end.

(** A well-formed part: its two header values are what the headers
    are for, so that neither can hold a line break, a further header or
    a part of the body. *)
Definition well_formed_part (p : multipart_part) : Prop :=
  content_length_correct p /\ timestamp_text (part_x_timestamp p) = true.

(** What a stream client may have been sent since it was attached:
    nothing, or the preamble and then whole well-formed parts. *)
Definition multipart_stream (out : bytes) (parts : list multipart_part) : Prop :=
  Forall well_formed_part parts
  /\ out = match parts with
           | [] => []
           | _ => spec_preamble ++ concat (spec_part <$> parts)
           end.

(** ** Closed forms used in the proofs *)

(** The block of the exposed picture after the conditional [A_REALLOC]
    to [n] bytes. *)
Definition grown_data (p : picture_t) (n : nat) (junk : nat -> byte) : bytes :=
  if decide (allocated p < n) then A_REALLOC (data p) n junk else data p.

(** The accesses of [_expose_new_picture] to the frame slot, in order. *)
Definition new_picture_trace (p sp : picture_t) : list event :=
  E_read F_picture_allocated
  :: (if decide (allocated p < allocated sp)
      then [E_read F_picture_allocated; E_read F_picture_allocated] else [])
  ++ [E_read F_picture_data; E_read F_picture_size; E_memcpy_frame;
      E_read F_picture_size; E_read F_width; E_read F_height].

(** [h'] is [h] with the node [c] unlinked: its neighbours point past
    it and every other field of every other node is as before. *)
Definition unlinked (h : gmap loc stream_client_t) (c : loc) (cl : stream_client_t)
    (h' : gmap loc stream_client_t) : Prop :=
  h' !! c = None
  /\ (forall x, h !! x = None -> h' !! x = None)
  /\ forall x clx, x <> c -> h !! x = Some clx ->
       exists clx', h' !! x = Some clx'
         /\ request clx' = request clx
         /\ need_initial clx' = need_initial clx
         /\ prev clx' = (if decide (next cl = Some x) then prev cl else prev clx)
         /\ next clx' = (if decide (prev cl = Some x) then next cl else next clx).

(** Every client is on a connection whose bufferevent carries it as
    callback argument. *)
Definition linked (w : world) : Prop :=
  forall c cl, heap w !! c = Some cl ->
    exists k b, evcon (request cl) = Some k /\ bevs w !! k = Some b /\ cbarg b = Some c.

(** [w'] differs from [w] at most in the callbacks and the enabled
    events of its bufferevents. *)
Definition rearmed (w w' : world) : Prop :=
  stream w' = stream w /\ exposed w' = exposed w
  /\ stream_clients w' = stream_clients w /\ heap w' = heap w /\ trace w' = trace w
  /\ forall k,
       match bevs w !! k, bevs w' !! k with
       | Some b, Some b' => output b' = output b /\ cbarg b' = cbarg b
       | None, None => True
       | _, _ => False
       end.

(** The bytes of one part as [_http_callback_stream_write] assembles them. *)
Definition stream_part (p : picture_t) (now : timespec) : bytes :=
  str (stream_part_header (size p * 1) now)
  ++ take (size p * 1) (data p)
  ++ str stream_part_trailer.

Arguments str : simpl never.
Arguments stream_preamble : simpl never.
Arguments stream_part_header : simpl never.
Arguments stream_part_trailer : simpl never.
Arguments str : simpl never.
Arguments stream_preamble : simpl never.
Arguments stream_part_header : simpl never.
Arguments stream_part_trailer : simpl never.
Arguments new_picture_trace : simpl never.

(** What has been written to the bufferevent of a client: a multipart
    stream that is empty exactly while the client still needs the
    preamble. *)
Definition client_sent (cl : stream_client_t) (out : bytes) : Prop :=
  exists parts, multipart_stream out parts /\ (need_initial cl = true <-> parts = []).

(** The invariant of the event loop. *)
Definition server_inv `{blank_h} (w : world) : Prop :=
  mutex (stream w) = false
  /\ size (stream_picture (stream w)) <= length (data (stream_picture (stream w)))
  /\ size (stream_picture (stream w)) <= allocated (stream_picture (stream w))
  /\ picture_fits (exposed_picture (exposed w))
  /\ blank_when_offline (exposed w)
  /\ (exists l, registry w l)
  /\ (forall c cl, heap w !! c = Some cl ->
        exists k b, evcon (request cl) = Some k /\ bevs w !! k = Some b
          /\ cbarg b = Some c /\ client_sent cl (output b))
  /\ (forall k b, bevs w !! k = Some b ->
        exists c cl, cbarg b = Some c /\ heap w !! c = Some cl
          /\ evcon (request cl) = Some k).

(** ** Predicates of the further properties *)

Definition starts_non_digit (s : string) : bool :=
  match s with
  | EmptyString => true
  | String c _ => negb (is_digit c)
  end.


(** The callbacks and events that the fan-out leaves on the bufferevent
    of the client [c]. *)
Definition armed (c : loc) (b : bufferevent) : Prop :=
  readcb b = None /\ writecb b = Some CB_stream_write
  /\ errorcb b = Some CB_stream_error /\ cbarg b = Some c
  /\ ev_read b = true /\ ev_write b = true.

(** A bufferevent as the callbacks of this file leave it: no read
    callback, errors and the end of the stream reported to
    [_http_callback_stream_error], and write events enabled whenever
    [_http_callback_stream_write] is set. *)
Definition wired (b : bufferevent) : Prop :=
  readcb b = None /\ errorcb b = Some CB_stream_error /\ ev_read b = true
  /\ (writecb b = Some CB_stream_write -> ev_write b = true).

(** ** Sample states *)

(** A four-byte stand-in for the blank JPEG (SOI and EOI markers). *)
Definition sample_blank : blank_h :=
  Blank_h [Byte.xff; Byte.xd8; Byte.xff; Byte.xd9] 640 480.

Definition sample_junk : nat -> byte := fun _ => Byte.xaa.

Definition sample_frame : picture_t :=
  Picture [Byte.xff; Byte.xd8; Byte.x01; Byte.x02; Byte.xff; Byte.xd9; Byte.x00; Byte.x00] 6 8.

Definition sample_clock : timespec := Timespec 1540000000 123456789.

Definition sample_get (k : option evhttp_connection) : evhttp_request :=
  Request EVHTTP_REQ_GET k [].
Definition sample_head (k : option evhttp_connection) : evhttp_request :=
  Request EVHTTP_REQ_HEAD k [].

(** A server on which the producer has published [sample_frame]. *)
Definition sample_stream : stream_t := Stream sample_frame 320 240 true false.

Definition sample_world : world :=
  World sample_stream
        (Exposed (Picture [Byte.xff; Byte.xd8; Byte.xff; Byte.xd9] 4 4) 640 480 false)
        None ∅ ∅ [].

(** Three stream clients at the addresses 1, 2 and 3, on the
    connections 11, 12 and 13. *)
Definition sample_clients : gmap loc stream_client_t :=
  <[1%positive := Client (sample_get (Some 11%positive)) false None (Some 2%positive)]>
  (<[2%positive := Client (sample_get (Some 12%positive)) true (Some 1%positive) (Some 3%positive)]>
  (<[3%positive := Client (sample_get (Some 13%positive)) false (Some 2%positive) None]> ∅)).

Definition sample_bevs : gmap evhttp_connection bufferevent :=
  <[11%positive := Bufferevent None None (Some CB_stream_error) (Some 1%positive) true false
                     (spec_preamble ++ spec_part (Part "0" "1.000000" []))]>
  (<[12%positive := Bufferevent None None (Some CB_stream_error) (Some 2%positive) true false []]>
  (<[13%positive := Bufferevent None None (Some CB_stream_error) (Some 3%positive) true false
                     (spec_preamble ++ spec_part (Part "0" "1.000000" []))]> ∅)).

Definition sample_world3 : world :=
  World sample_stream (exposed sample_world) (Some 1%positive) sample_clients sample_bevs [].

(** A run of the server: start on [sample_stream], attach a client at
    address 1 on connection 11, tick, and let the bufferevent of the
    client write. *)
Definition sample_run : option world :=
  match @http_server_init sample_blank sample_stream sample_junk with
  | Some w =>
      @run sample_blank
        [Stream_request (sample_get (Some 11%positive)) 1%positive;
         Refresh sample_junk;
         Writable 11%positive sample_clock] w
  | None => None
  end.

Definition sample_served : world := default sample_world sample_run.

(** The state of the server started on [sample_stream] after the events [es]. *)
Definition sample_after (es : list loop_event) : world :=
  default sample_world (@run sample_blank es sample_world).

(** One client at address 1 on connection 11: as attached, and as armed
    by the next tick. *)
Definition sample_attached : world :=
  sample_after [Stream_request (sample_get (Some 11%positive)) 1%positive].
Definition sample_armed : world :=
  sample_after [Stream_request (sample_get (Some 11%positive)) 1%positive;
                Refresh sample_junk].

(** * Theorems *)

(** ** The monad *)

Lemma bind_Some {A B} (m : M A) (f : A -> M B) (w : world) (r : B * world) :
  bind m f w = Some r <-> exists a w1, m w = Some (a, w1) /\ f a w1 = Some r.
Proof.
  unfold bind. destruct (m w) as [[a w1]|]; split.
  - intros Hf. by exists a, w1.
  - by intros (a' & w1' & [= -> ->] & Hf).
  - done.
  - by intros (a' & w1' & [=] & _).
Qed.

Lemma exec_Some {A} (m : M A) (w w' : world) :
  exec m w = Some w' <-> exists a, m w = Some (a, w').
Proof.
  unfold exec. destruct (m w) as [[a w1]|]; simpl; split.
  - intros [= ->]. by exists a.
  - by intros (a' & [= -> ->]).
  - done.
  - by intros (a' & [=]).
Qed.

(** ** Requests that create no client *)

Lemma str_app (a b : string) : str (a ++ b) = str a ++ str b.
Proof.
  unfold str, list_byte_of_string. rewrite <- map_app. f_equal.
  induction a as [|c a IH]; simpl; [done | by rewrite IH].
Qed.

(** C7.  A HEAD request on [/stream] is answered [200 OK] with an empty
    body, and the server is left exactly as it was: no client is
    created, the registry, the heap of clients and every bufferevent
    (with its callbacks) are unchanged. *)
Theorem head_stream_creates_no_client (request : evhttp_request) (client : loc) (w : world) :
  command request = EVHTTP_REQ_HEAD ->
  _http_callback_stream request client w
  = Some (Replied (Reply 200 "OK" (output_headers request) []), w).
Proof.
  intros Hcmd. unfold _http_callback_stream, PROCESS_HEAD_REQUEST.
  by rewrite Hcmd.
Qed.

Lemma head_stream_creates_no_client_witness :
  _http_callback_stream (sample_head (Some 14%positive)) 4%positive sample_world3
  = Some (Replied (Reply 200 "OK" [] []), sample_world3).
Proof.
  apply (head_stream_creates_no_client (sample_head (Some 14%positive)) 4%positive sample_world3).
  reflexivity.
Defined.

(** C10.  A GET request on [/stream] whose connection is [NULL] is
    freed, and the server is left exactly as it was: no client is
    created and no callback is installed on any bufferevent. *)
Theorem stream_without_connection_is_freed (request : evhttp_request) (client : loc) (w : world) :
  command request = EVHTTP_REQ_GET ->
  evcon request = None ->
  _http_callback_stream request client w = Some (Freed, w).
Proof.
  intros Hcmd Hcon. unfold _http_callback_stream, PROCESS_HEAD_REQUEST.
  by rewrite Hcmd, Hcon.
Qed.

Lemma stream_without_connection_is_freed_witness :
  _http_callback_stream (sample_get None) 4%positive sample_world3 = Some (Freed, sample_world3).
Proof.
  apply (stream_without_connection_is_freed (sample_get None) 4%positive sample_world3);
    reflexivity.
Defined.

(** ** [/snapshot] *)

Example fmt_06u_pads : fmt_06u 42 = "000042"%string.
Proof. reflexivity. Qed.

Example x_timestamp_sample : x_timestamp sample_clock = "1540000000.123456"%string.
Proof. vm_compute. reflexivity. Qed.

(** The reply of a GET on [/snapshot]: the six headers in the order of
    the source, and the valid bytes of the exposed picture as body. *)
Lemma snapshot_reply (request : evhttp_request) (e : exposed_t) (now : timespec) :
  command request = EVHTTP_REQ_GET ->
  size (exposed_picture e) <= length (data (exposed_picture e)) ->
  _http_callback_snapshot request e now
  = Some (Reply 200 "OK"
            (output_headers request ++ [
               ("Access-Control-Allow-Origin:", "*");
               ("Cache-Control",
                "no-store, no-cache, must-revalidate, pre-check=0, post-check=0, max-age=0");
               ("Pragma", "no-cache");
               ("Expires", "Mon, 3 Jan 2000 12:34:56 GMT");
               ("X-Timestamp", x_timestamp now);
               ("Content-Type", "image/jpeg")
             ]%string)
            (take (size (exposed_picture e)) (data (exposed_picture e)))).
Proof.
  intros Hcmd Hfit.
  unfold _http_callback_snapshot, PROCESS_HEAD_REQUEST, evbuffer_add. rewrite Hcmd.
  destruct (decide _) as [_|Hn]; [|lia].
  unfold evhttp_send_reply, ADD_HEADER, evbuffer_new, HTTP_OK. simpl.
  by rewrite <- !app_assoc.
Qed.

(** C3.  On a GET of [/snapshot] the body is the exposed picture, but
    the first header is added under the name
    [Access-Control-Allow-Origin:], colon included: no header of the
    reply is named [Access-Control-Allow-Origin]. *)
Theorem snapshot_cors_header_name_has_colon :
  exists r,
    _http_callback_snapshot (sample_get (Some 14%positive)) (exposed sample_world) sample_clock
    = Some r
    /\ body r = [Byte.xff; Byte.xd8; Byte.xff; Byte.xd9]
    /\ headers r = [
         ("Access-Control-Allow-Origin:", "*");
         ("Cache-Control",
          "no-store, no-cache, must-revalidate, pre-check=0, post-check=0, max-age=0");
         ("Pragma", "no-cache");
         ("Expires", "Mon, 3 Jan 2000 12:34:56 GMT");
         ("X-Timestamp", "1540000000.123456");
         ("Content-Type", "image/jpeg")
       ]%string
    /\ ~ In "Access-Control-Allow-Origin"%string (fst <$> headers r).
Proof.
  eexists. split.
  - apply snapshot_reply; [reflexivity | simpl; lia].
  - split; [reflexivity|]. split; [vm_compute; reflexivity|].
    vm_compute. intros Hin.
    repeat (destruct Hin as [Hin|Hin]; [discriminate Hin|]). exact Hin.
Qed.

(** ** The exposed snapshot *)

Ltac munfold :=
  unfold bind, ret, lift, fail, gets, modify, log, exposed_get, stream_get,
    stream_picture_allocated, stream_picture_size, stream_picture_data, stream_get,
    set_exposed_picture_data, set_exposed_picture_size, set_exposed_picture_allocated,
    set_exposed_picture, set_exposed_width, set_exposed_height, set_online,
    set_updated, set_mutex, bind, ret, lift, fail, gets, modify, log.

Lemma A_REALLOC_length old n junk : length (A_REALLOC old n junk) = n.
Proof.
  unfold A_REALLOC. rewrite length_app, length_take, length_fmap, length_seq. lia.
Qed.

Lemma memcpy_Some dst src n :
  n <= length src -> n <= length dst -> memcpy dst src n = Some (take n src ++ drop n dst).
Proof. intros Hs Hd. unfold memcpy. case_decide; [done | lia]. Qed.

Lemma memcpy_inv dst src n d :
  memcpy dst src n = Some d ->
  n <= length src /\ n <= length dst /\ d = take n src ++ drop n dst.
Proof. unfold memcpy. case_decide; [|done]. intros [= <-]. tauto. Qed.

Lemma grown_data_length p n junk :
  length (data p) = allocated p ->
  length (grown_data p n junk) = Nat.max (allocated p) n.
Proof.
  intros Hp. unfold grown_data. case_decide.
  - rewrite A_REALLOC_length. lia.
  - lia.
Qed.

Section Exposed.
Context `{blank_h}.

Lemma expose_blank_picture_eq junk w :
  _expose_blank_picture junk w =
  let p := exposed_picture (exposed w) in
  if online (exposed w) || bool_decide (size p = 0) then
    match memcpy (grown_data p BLANK_JPG_SIZE junk) BLANK_JPG_DATA (BLANK_JPG_SIZE * 1) with
    | Some d =>
        Some (tt, set_exposed
                    (Exposed (Picture d BLANK_JPG_SIZE (Nat.max (allocated p) BLANK_JPG_SIZE))
                             BLANK_JPG_WIDTH BLANK_JPG_HEIGHT false) w)
    | None => None
    end
  else Some (tt, w).
Proof.
  destruct w as [s [[d n a] wd ht o] hd hp bv tr].
  unfold _expose_blank_picture, grown_data. munfold. simpl.
  repeat case_match; simplify_eq/=; try done.
  all: try (by rewrite Nat.max_r by lia); try (by rewrite Nat.max_l by lia).
Qed.

Lemma expose_new_picture_eq junk w :
  _expose_new_picture junk w =
  let p := exposed_picture (exposed w) in
  let sp := stream_picture (stream w) in
  match memcpy (grown_data p (allocated sp) junk) (data sp) (size sp * 1) with
  | Some d =>
      Some (tt, World (stream w)
                  (Exposed (Picture d (size sp) (Nat.max (allocated p) (allocated sp)))
                           (stream_width (stream w)) (stream_height (stream w)) true)
                  (stream_clients w) (heap w) (bevs w)
                  (trace w ++ new_picture_trace p sp))
  | None => None
  end.
Proof.
  destruct w as [[[sd sn sa] swd sht u mx] [[d n a] wd ht o] hd hp bv tr].
  unfold _expose_new_picture, grown_data, new_picture_trace. munfold. simpl.
  repeat case_match; simplify_eq/=; try done; try lia.
  all: rewrite <- ?app_assoc; simpl.
  all: try (by rewrite Nat.max_r by lia); try (by rewrite Nat.max_l by lia).
Qed.

(** The bytes that the allocator left in a grown block do not show:
    the blank JPEG covers the whole of it. *)
Lemma expose_blank_picture_junk junk junk' w :
  _expose_blank_picture junk w = _expose_blank_picture junk' w.
Proof.
  rewrite !expose_blank_picture_eq. simpl.
  destruct (online _ || _); [|done].
  assert (memcpy (grown_data (exposed_picture (exposed w)) BLANK_JPG_SIZE junk)
            BLANK_JPG_DATA (BLANK_JPG_SIZE * 1)
          = memcpy (grown_data (exposed_picture (exposed w)) BLANK_JPG_SIZE junk')
              BLANK_JPG_DATA (BLANK_JPG_SIZE * 1))
    as ->; [|done].
  unfold grown_data. case_decide; [|done].
  rewrite !memcpy_Some by (rewrite ?A_REALLOC_length; unfold BLANK_JPG_SIZE; lia).
  f_equal. f_equal. rewrite !drop_ge; [done| |]; rewrite A_REALLOC_length; lia.
Qed.

Lemma expose_blank_picture_fixed junk junk' w w1 :
  _expose_blank_picture junk w = Some (tt, w1) ->
  _expose_blank_picture junk' w1 = Some (tt, w1).
Proof.
  rewrite !expose_blank_picture_eq. simpl.
  destruct (online (exposed w) || _) eqn:Hg.
  - destruct (memcpy _ _ _) as [d|] eqn:Hm; [|done]. intros [= <-]. simpl.
    destruct (bool_decide (BLANK_JPG_SIZE = 0)) eqn:Hz; [|done].
    apply bool_decide_eq_true in Hz.
    rewrite memcpy_Some by (rewrite Hz; simpl; lia).
    rewrite Hz. simpl. rewrite drop_0.
    unfold grown_data at 1. simpl.
    unfold set_exposed. simpl. do 5 f_equal. lia.
  - intros [= <-]. by rewrite Hg.
Qed.

Lemma blankify_times_fixed js w :
  (forall junk, _expose_blank_picture junk w = Some (tt, w)) ->
  blankify_times js w = Some (tt, w).
Proof.
  intros Hfix. induction js as [|junk js IH]; [done|].
  simpl. unfold bind. by rewrite Hfix.
Qed.

(** C5.  Calling [_expose_blank_picture] any number of times in a row,
    at least once, leaves the server in the state that one call leaves
    it in (and fails where one call fails), whatever the allocator put
    in the blocks it handed out; and on a snapshot that is offline and
    holds the blank JPEG a call changes nothing. *)
Theorem blankify_idempotent (junk junk' : nat -> byte) (js : list (nat -> byte)) (w : world) :
  exec (blankify_times (junk :: js)) w = exec (_expose_blank_picture junk') w
  /\ (online (exposed w) = false -> is_blank (exposed w) ->
      exec (_expose_blank_picture junk) w = Some w).
Proof.
  split.
  - unfold exec. rewrite (expose_blank_picture_junk junk' junk). simpl. unfold bind.
    destruct (_expose_blank_picture junk w) as [[[] w1]|] eqn:H1; [|done].
    rewrite blankify_times_fixed; [done|].
    intros j. by eapply expose_blank_picture_fixed.
  - intros Hoff (Hsize & Hdata & Hwd & Hht). unfold exec.
    rewrite expose_blank_picture_eq. simpl. rewrite Hoff. simpl.
    case_bool_decide as Hz; [|done].
    destruct w as [s [[d n a] wd ht o] hd hp bv tr]. simpl in *.
    assert (BLANK_JPG_SIZE = 0) as HB by lia.
    unfold grown_data. simpl.
    destruct (decide (a < BLANK_JPG_SIZE)) as [Hlt|_]; [lia|].
    rewrite memcpy_Some by lia. rewrite HB. simpl. rewrite drop_0.
    unfold set_exposed. simpl. subst. do 5 f_equal; lia.
Qed.

End Exposed.

(** ** The client registry as a doubly linked list *)

Section Registry.
Implicit Types (h : gmap loc stream_client_t) (l : list loc) (p cur lst nxt : option loc).

Lemma dseg_cur h p cur l lst nxt :
  dseg h p cur l lst nxt -> cur = match l with [] => nxt | x :: _ => Some x end.
Proof. destruct l; simpl; tauto. Qed.

Lemma dseg_lst h p cur l lst nxt :
  dseg h p cur l lst nxt -> lst = match last l with None => p | Some x => Some x end.
Proof.
  revert p cur. induction l as [|c l IH]; intros p cur; simpl.
  - tauto.
  - intros (_ & cl & _ & _ & Hd). apply IH in Hd. rewrite Hd.
    destruct l as [|c' l']; [done|].
    change (last (c :: c' :: l')) with (last (c' :: l')).
    destruct (last (c' :: l')) eqn:E; [done|]. by apply last_None in E.
Qed.

Lemma dseg_app h p cur l1 l2 lst nxt :
  dseg h p cur (l1 ++ l2) lst nxt <->
  exists q m, dseg h p cur l1 q m /\ dseg h q m l2 lst nxt.
Proof.
  revert p cur. induction l1 as [|c l1 IH]; intros p cur; simpl.
  - split.
    + intros Hd. by exists p, cur.
    + by intros (q & m & [-> ->] & Hd).
  - split.
    + intros (-> & cl & Hc & Hp & Hd). apply IH in Hd as (q & m & H1 & H2).
      exists q, m. split; [|done]. split; [done|]. by exists cl.
    + intros (q & m & (-> & cl & Hc & Hp & H1) & H2). split; [done|].
      exists cl. split; [done|]. split; [done|]. apply IH. by exists q, m.
Qed.

Lemma dseg_frame h h' p cur l lst nxt :
  (forall x cl, x ∈ l -> h !! x = Some cl ->
     exists cl', h' !! x = Some cl' /\ prev cl' = prev cl /\ next cl' = next cl) ->
  dseg h p cur l lst nxt -> dseg h' p cur l lst nxt.
Proof.
  revert p cur. induction l as [|c l IH]; intros p cur Hsame; simpl; [done|].
  intros (-> & cl & Hc & Hp & Hd). split; [done|].
  destruct (Hsame c cl) as (cl' & Hc' & Hp' & Hn'); [by left | done |].
  exists cl'. split; [done|]. split; [congruence|]. rewrite Hn'.
  apply IH; [|done]. intros x clx Hx. apply Hsame. by right.
Qed.

Lemma dseg_lookup h p cur l lst nxt x :
  dseg h p cur l lst nxt -> x ∈ l -> is_Some (h !! x).
Proof.
  revert p cur. induction l as [|c l IH]; intros p cur; simpl.
  - intros _ Hx. by apply elem_of_nil in Hx.
  - intros (_ & cl & Hc & _ & Hd) [->|Hx]%elem_of_cons; [by exists cl|]. by eapply IH.
Qed.

(** Two walks from the same node to the end of the list visit the same nodes. *)
Lemma dseg_det h p p' cur l l' lst lst' :
  dseg h p cur l lst None -> dseg h p' cur l' lst' None -> l = l'.
Proof.
  revert p p' cur l'. induction l as [|c l IH]; intros p p' cur [|c' l']; simpl.
  - done.
  - by intros [-> _] [[=] _].
  - by intros [-> _] [[=] _].
  - intros (-> & cl & Hc & _ & Hd) ([= <-] & cl' & Hc' & _ & Hd').
    rewrite Hc in Hc'. injection Hc' as <-. f_equal. by eapply IH.
Qed.

Lemma dseg_NoDup h p cur l lst :
  dseg h p cur l lst None -> NoDup l.
Proof.
  revert p cur. induction l as [|c l IH]; intros p cur; simpl.
  - intros _. apply NoDup_nil_2.
  - intros (-> & cl & Hc & Hp & Hd). apply NoDup_cons. split; [|by eapply IH].
    intros (l1 & l2 & ->)%list_elem_of_split.
    pose proof Hd as Hd1.
    apply dseg_app in Hd as (q & m & _ & Hd2). simpl in Hd2.
    destruct Hd2 as (-> & cl' & Hc' & _ & Hd2).
    rewrite Hc in Hc'. injection Hc' as <-.
    pose proof (dseg_det _ _ _ _ _ _ _ _ Hd1 Hd2) as Heq.
    apply (f_equal length) in Heq. rewrite length_app in Heq. simpl in Heq. lia.
Qed.
Lemma registry_NoDup w l : registry w l -> NoDup l.
Proof. intros [[lst Hd] _]. by eapply dseg_NoDup. Qed.

Lemma registry_length w l : registry w l -> length l = base.size (heap w).
Proof.
  intros Hr. pose proof (registry_NoDup _ _ Hr) as Hnd. destruct Hr as [_ Hdom].
  rewrite <- size_dom, <- (size_list_to_set (C:=gset loc) l Hnd). f_equal.
  apply set_eq. intros c. rewrite elem_of_list_to_set, elem_of_dom. apply Hdom.
Qed.

Lemma walk_to_last_unfold fuel first :
  walk_to_last fuel first =
  (cl ← deref first;
   match next cl with
   | None => ret first
   | Some n =>
       match fuel with
       | O => fail
       | S fuel' => log (E_walk n) ;; walk_to_last fuel' n
       end
   end).
Proof. by destruct fuel. Qed.

Lemma set_trace_id w : set_trace (trace w) w = w.
Proof. by destruct w. Qed.

Lemma walk_to_last_spec l first p lst fuel w :
  dseg (heap w) p (Some first) l lst None ->
  length l <= S fuel ->
  exists x, lst = Some x
    /\ walk_to_last fuel first w = Some (x, set_trace (trace w ++ (E_walk <$> tail l)) w).
Proof.
  revert first p fuel w. induction l as [|c l IH]; intros first p fuel w; simpl.
  - by intros [[=] _].
  - intros ([= <-] & cl & Hc & Hp & Hd) Hlen.
    rewrite walk_to_last_unfold. unfold bind at 1, deref, lift. rewrite Hc.
    destruct l as [|n l'].
    + destruct Hd as [-> ->]. exists first. split; [done|].
      unfold ret. simpl. by rewrite app_nil_r, set_trace_id.
    + pose proof (dseg_cur _ _ _ _ _ _ Hd) as Hn. simpl in Hn. rewrite Hn in *.
      destruct fuel as [|fuel]; [simpl in Hlen; lia|].
      unfold bind, log, modify. simpl.
      destruct (IH n (Some first) fuel (set_trace (trace w ++ [E_walk n]) w)) as (x & -> & Hw).
      { done. }
      { simpl in *. lia. }
      exists x. split; [done|]. rewrite Hw. simpl. f_equal. f_equal.
      unfold set_trace. simpl. by rewrite <- app_assoc.
Qed.

Lemma dseg_nil_cur h p l lst nxt : dseg h p None l lst nxt -> l = [].
Proof. destruct l; [done|]. simpl. by intros [[=] _]. Qed.

Lemma stream_attach_effect (req : evhttp_request) (client : loc) (k : evhttp_connection)
    (w : world) (l : list loc) :
  registry w l ->
  command req = EVHTTP_REQ_GET ->
  evcon req = Some k ->
  heap w !! client = None ->
  exists w',
    _http_callback_stream req client w = Some (Pending, w')
    /\ registry w' (l ++ [client])
    /\ stream w' = stream w /\ exposed w' = exposed w
    /\ trace w' = trace w ++ (E_walk <$> tail l)
    /\ (exists cl, heap w' !! client = Some cl
          /\ request cl = req /\ need_initial cl = true)
    /\ (forall c cl, c <> client -> heap w !! c = Some cl ->
          exists cl', heap w' !! c = Some cl'
            /\ request cl' = request cl
            /\ need_initial cl' = need_initial cl)
    /\ bevs w' = <[k := Bufferevent None None (Some CB_stream_error) (Some client) true
                          (ev_write (get_bufferevent k w)) (output (get_bufferevent k w))]>
                  (bevs w).
Proof.
  intros Hreg Hcmd Hcon Hfresh.
  pose proof (registry_length _ _ Hreg) as Hlen.
  destruct Hreg as [[lst Hd] Hdom].
  assert (client ∉ l) as Hnotin.
  { intros Hin%Hdom. rewrite Hfresh in Hin. by destruct Hin. }
  unfold _http_callback_stream, PROCESS_HEAD_REQUEST. rewrite Hcmd, Hcon.
  unfold bind at 1, gets at 1. rewrite Hfresh.
  unfold bind at 1, ret at 1. unfold bind at 1, store at 1, modify at 1.
  unfold bind at 1, gets at 1. simpl.
  destruct (stream_clients w) as [first|] eqn:Hhead.
  - (* a non-empty registry: walk to its last client *)
    set (c0 := Client req true None None).
    set (w1 := set_heap (<[client:=c0]> (heap w)) w).
    assert (dseg (heap w1) None (Some first) l lst None) as Hd1.
    { eapply dseg_frame; [|exact Hd]. intros x cl Hx Hcl. exists cl. split; [|done].
      simpl. rewrite lookup_insert_ne; [done|]. intros ->. done. }
    destruct (walk_to_last_spec l first None lst (base.size (heap w1)) w1 Hd1) as (x & -> & Hwalk).
    { simpl. rewrite map_size_insert_None by done. lia. }
    unfold bind at 1. unfold bind at 1, gets at 1. unfold bind at 1. rewrite Hwalk.
    (* the last client and the list before it *)
    destruct l as [|x' l0 _] using rev_ind.
    { by destruct Hd as [[=] _]. }
    pose proof (dseg_NoDup _ _ _ _ _ Hd) as Hnd.
    apply NoDup_app in Hnd as (_ & Hnd & _).
    pose proof (dseg_lst _ _ _ _ _ _ Hd) as Hlast. rewrite last_snoc in Hlast.
    injection Hlast as <-.
    apply dseg_app in Hd as (q & m & Hd0 & Hx). simpl in Hx.
    destruct Hx as (-> & clx & Hclx & Hprevx & Hnextx & _).
    assert (x <> client) as Hxc. { intros ->. apply Hnotin, elem_of_app. right. by left. }
    unfold set_prev, set_next, bind, deref, lift, store, modify, ret. simpl.
    rewrite lookup_insert_eq. simpl.
    rewrite lookup_insert_ne by done. rewrite lookup_insert_ne by done. rewrite Hclx. simpl.
    unfold bufferevent_setcb, bufferevent_enable, modify. simpl.
    eexists. split; [reflexivity|]. simpl.
    split; [|split; [done|split; [done|split; [done|split; [|split]]]]].
    + (* the registry *)
      split; simpl.
      * rewrite Hhead. exists (Some client). apply dseg_app. exists (Some x), (Some client). split.
        -- apply dseg_app. exists q, (Some x). split.
           ++ eapply dseg_frame; [|exact Hd0]. intros y cl Hy Hcl. exists cl. split; [|done].
              rewrite !lookup_insert_ne; [done|..]; intros Heq.
              all: first [ by apply Hnotin, elem_of_app; left; rewrite Heq
                         | by apply (Hnd y); [|rewrite <- Heq; left] ].
           ++ simpl. split; [done|]. eexists. rewrite lookup_insert_eq. done.
        -- simpl. split; [done|]. eexists. rewrite lookup_insert_ne by done.
           rewrite lookup_insert_eq. done.
      * intros c. rewrite elem_of_app, list_elem_of_singleton.
        destruct (decide (c = x)) as [->|Hcx].
        { rewrite lookup_insert_eq. split; [by eexists|]. intros _. left.
          apply elem_of_app. right. by left. }
        rewrite lookup_insert_ne by done.
        destruct (decide (c = client)) as [->|Hcc].
        { rewrite lookup_insert_eq. split; [by eexists|]. intros _. by right. }
        rewrite !lookup_insert_ne by done. rewrite <- Hdom. split; [|tauto].
        by intros [?|?].
    + rewrite lookup_insert_ne by done. rewrite lookup_insert_eq. by eexists.
    + intros c cl Hc Hcl. destruct (decide (c = x)) as [->|Hcx].
      * rewrite lookup_insert_eq. eexists. split; [done|]. rewrite Hclx in Hcl. by injection Hcl as <-.
      * rewrite !lookup_insert_ne by done. by exists cl.
    + unfold get_bufferevent. simpl. rewrite lookup_insert_eq. simpl.
      rewrite insert_insert_eq. by rewrite orb_true_r, orb_false_r.
  - (* the first client *)
    apply dseg_nil_cur in Hd as ->.
    unfold bind, modify, ret, bufferevent_setcb, bufferevent_enable, modify. simpl.
    eexists. split; [reflexivity|]. simpl.
    split; [|split; [done|split; [done|split; [by rewrite app_nil_r|split; [|split]]]]].
    + split; simpl.
      * exists (Some client). split; [done|]. eexists. by rewrite lookup_insert_eq.
      * intros c. rewrite list_elem_of_singleton. destruct (decide (c = client)) as [->|Hc].
        -- rewrite lookup_insert_eq. split; [by eexists | done].
        -- rewrite lookup_insert_ne by done. rewrite <- Hdom.
           split; [done | by intros ?%elem_of_nil].
    + rewrite lookup_insert_eq. by eexists.
    + intros c cl Hc Hcl. rewrite lookup_insert_ne by done. by exists cl.
    + unfold get_bufferevent. simpl. rewrite lookup_insert_eq. simpl.
      rewrite insert_insert_eq. by rewrite orb_true_r, orb_false_r.
Qed.

Lemma dseg_unlink h h' c cl l2 lst :
  h !! c = Some cl ->
  unlinked h c cl h' ->
  forall l1 p0 cur,
    (forall x, p0 = Some x -> x ∉ l1 ++ c :: l2) ->
    NoDup (l1 ++ c :: l2) ->
    dseg h p0 cur (l1 ++ c :: l2) lst None ->
    exists lst', dseg h' p0 (match l1 with [] => next cl | _ => cur end) (l1 ++ l2) lst' None.
Proof.
  intros Hc (_ & _ & Hkeep). induction l1 as [|a l1 IH]; intros p0 cur Hp0 Hnd; simpl.
  - (* [c] is the first node of the segment *)
    intros (-> & cl' & Hc' & Hprev & Hd). rewrite Hc in Hc'. injection Hc' as <-.
    apply NoDup_cons in Hnd as [Hcl2 Hnd2].
    destruct l2 as [|n l2']; simpl in *.
    + destruct Hd as [-> _]. by exists p0.
    + destruct Hd as (Hn & cln & Hcln & Hprevn & Hd). exists lst. split; [done|].
      assert (n <> c) as Hnc. { intros ->. apply Hcl2. by left. }
      destruct (Hkeep n cln Hnc Hcln) as (cln' & Hcln' & _ & _ & Hp' & Hn').
      exists cln'. split; [done|].
      rewrite decide_True in Hp' by done. split; [congruence|].
      rewrite decide_False in Hn'.
      2:{ rewrite Hprev. intros Heq. apply (Hp0 n Heq). right. by left. }
      rewrite Hn'. eapply dseg_frame; [|exact Hd].
      intros x clx Hx Hclx.
      assert (x <> c) as Hxc. { intros ->. apply Hcl2. by right. }
      destruct (Hkeep x clx Hxc Hclx) as (clx' & Hclx' & _ & _ & Hpx & Hnx).
      exists clx'. split; [done|].
      rewrite decide_False in Hpx.
      2:{ rewrite Hn. intros [= ->]. apply NoDup_cons in Hnd2 as [Hn2 _]. done. }
      rewrite decide_False in Hnx.
      2:{ rewrite Hprev. intros Heq. apply (Hp0 x Heq). right. by right. }
      done.
  - (* [c] is further down *)
    intros (-> & cla & Hcla & Hpreva & Hd).
    apply NoDup_cons in Hnd as [Hal Hnd'].
    assert (a <> c) as Hac. { intros ->. apply Hal, elem_of_app. right. by left. }
    destruct (Hkeep a cla Hac Hcla) as (cla' & Hcla' & _ & _ & Hpa & Hna).
    destruct (IH (Some a) (next cla)) as (lst' & Hd'); [|done|done|].
    { intros x [= <-]. done. }
    (* where do the pointers of [c] go? *)
    pose proof Hd as Hd0. apply dseg_app in Hd0 as (q & m & Hseg1 & Hseg2).
    simpl in Hseg2. destruct Hseg2 as (-> & cl' & Hc' & Hprevc & Hseg2).
    rewrite Hc in Hc'. injection Hc' as <-.
    pose proof (dseg_lst _ _ _ _ _ _ Hseg1) as Hq.
    pose proof (dseg_cur _ _ _ _ _ _ Hseg2) as Hnext.
    rewrite decide_False in Hpa.
    2:{ rewrite Hnext. destruct l2 as [|n l2']; [done|]. intros [= ->].
        apply Hal, elem_of_app. right. right. by left. }
    assert (forall z, z ∈ l1 -> z <> a) as Hl1a.
    { intros z Hz ->. apply Hal, elem_of_app. by left. }
    assert (next cla' = match l1 with [] => next cl | _ => next cla end) as Hna'.
    { rewrite Hna. clear IH Hal Hnd' Hd Hd' Hp0. destruct l1 as [|b l1'].
      - simpl in Hseg1. destruct Hseg1 as [_ ->]. by rewrite decide_True.
      - rewrite decide_False; [done|]. rewrite Hprevc, Hq.
        destruct (last (b :: l1')) as [z|] eqn:Hz.
        + intros [= ->]. apply (Hl1a a); [|done]. by apply last_Some_elem_of.
        + by apply last_None in Hz. }
    exists lst'. split; [done|]. exists cla'. split; [done|].
    split; [congruence|]. by rewrite Hna'.
Qed.

Lemma stream_error_effect (c : loc) (w : world) (l1 l2 : list loc) :
  registry w (l1 ++ c :: l2) ->
  exists w' cl,
    heap w !! c = Some cl
    /\ _http_callback_stream_error c w = Some (tt, w')
    /\ unlinked (heap w) c cl (heap w')
    /\ stream_clients w' = match l1 with [] => next cl | _ => stream_clients w end
    /\ stream w' = stream w /\ exposed w' = exposed w /\ trace w' = trace w
    /\ bevs w' = match evcon (request cl) with
                 | Some k => delete k (bevs w)
                 | None => bevs w
                 end.
Proof.
  intros [[lst Hd] Hdom].
  pose proof (dseg_NoDup _ _ _ _ _ Hd) as Hnd.
  pose proof Hd as Hd0. apply dseg_app in Hd0 as (q & m & Hseg1 & Hseg2).
  simpl in Hseg2. destruct Hseg2 as (-> & cl & Hc & Hprevc & Hseg2).
  pose proof (dseg_lst _ _ _ _ _ _ Hseg1) as Hq.
  pose proof (dseg_cur _ _ _ _ _ _ Hseg2) as Hnext.
  apply NoDup_app in Hnd as (Hnd1 & Hnd12 & [Hcl2 Hnd2]%NoDup_cons).
  assert (forall x, x ∈ l1 -> x <> c) as Hl1c.
  { intros x Hx ->. apply (Hnd12 c Hx). by left. }
  assert (forall x, x ∈ l2 -> x <> c) as Hl2c.
  { intros x Hx ->. done. }
  assert (forall x y, x ∈ l1 -> y ∈ l2 -> x <> y) as Hl12.
  { intros x y Hx Hy ->. apply (Hnd12 y Hx). by right. }
  exists (World (stream w) (exposed w)
            (match l1 with [] => next cl | _ => stream_clients w end)
            (delete c
               (match next cl with
                | Some n =>
                    match heap w !! n with
                    | Some cln =>
                        <[n := Client (request cln) (need_initial cln) (prev cl) (next cln)]>
                    | None => id
                    end
                | None => id
                end
                  (match prev cl with
                   | Some p =>
                       match heap w !! p with
                       | Some clp =>
                           <[p := Client (request clp) (need_initial clp) (prev clp) (next cl)]>
                       | None => id
                       end
                   | None => id
                   end (heap w))))
            (match evcon (request cl) with
             | Some k => delete k (bevs w)
             | None => bevs w
             end)
            (trace w)), cl.
  split; [done|].
  (* the neighbours of [c] *)
  assert (match l1 with
          | [] => prev cl = None
          | _ => exists a cla, prev cl = Some a /\ a ∈ l1 /\ heap w !! a = Some cla
          end) as Hp.
  { rewrite Hprevc, Hq. destruct l1 as [|b l1']; [done|].
    destruct (last (b :: l1')) as [a|] eqn:Hl; [|by apply last_None in Hl].
    apply last_Some_elem_of in Hl.
    destruct (dseg_lookup _ _ _ _ _ _ a Hseg1 Hl) as [cla Hcla]. by exists a, cla. }
  assert (match l2 with
          | [] => next cl = None
          | n :: _ => exists cln, next cl = Some n /\ heap w !! n = Some cln
          end) as Hn.
  { rewrite Hnext. destruct l2 as [|n l2']; [done|].
    destruct (dseg_lookup _ _ _ _ _ _ n Hseg2) as [cln Hcln]; [by left|]. by exists cln. }
  split; [|split; [|done]].
  - (* the run of the callback *)
    unfold _http_callback_stream_error, evhttp_connection_free, set_next, set_prev, free.
    destruct (evcon (request cl)) as [k|] eqn:Hk;
      (destruct l1 as [|b l1'];
       [rename Hp into Hprev
       |destruct Hp as (a & cla & Hprev & Ha & Hcla); pose proof (Hl1c a Ha) as Hac]);
      (destruct l2 as [|n l2'];
       [rename Hn into Hnx
       |destruct Hn as (cln & Hnx & Hcln);
        assert (n <> c) as Hnc by (by apply Hl2c; left)]);
      try (assert (a <> n) as Han by (by apply Hl12; [|left]));
      unfold bind, deref, lift, modify, store, ret; simpl;
      repeat (first [ rewrite Hc | rewrite Hk | rewrite Hprev | rewrite Hnx | rewrite Hcla | rewrite Hcln
                    | rewrite lookup_insert_ne by done ]; simpl);
      reflexivity.
  - (* the heap it leaves *)
    simpl.
    destruct l1 as [|b l1'];
      [rename Hp into Hprev
      |destruct Hp as (a & cla & Hprev & Ha & Hcla); pose proof (Hl1c a Ha) as Hac];
      (destruct l2 as [|n l2'];
       [rename Hn into Hnx
       |destruct Hn as (cln & Hnx & Hcln);
        assert (n <> c) as Hnc by (by apply Hl2c; left)]);
      try (assert (a <> n) as Han by (by apply Hl12; [|left]));
      rewrite Hprev, Hnx; rewrite ?Hcla, ?Hcln; simpl;
      (split; [by rewrite lookup_delete_eq|split]).
    all: try (intros x Hx; destruct (decide (x = c)) as [->|Hxc];
              [by rewrite lookup_delete_eq|]; rewrite lookup_delete_ne by done;
              rewrite ?lookup_insert_ne by congruence; done).
    all: intros x clx Hxc Hclx; rewrite lookup_delete_ne by done.
    all: repeat match goal with
         | |- context [<[?j := _]> _ !! ?y] =>
             destruct (decide (j = y)) as [<-|?];
             [rewrite lookup_insert_eq | rewrite lookup_insert_ne by done]
         end.
    all: eexists; (split; [first [eassumption | reflexivity]|]); simpl.
    all: repeat case_decide; simplify_eq; done.
Qed.

Lemma registry_detach (c : loc) (w w' : world) (cl : stream_client_t) (l1 l2 : list loc) :
  registry w (l1 ++ c :: l2) ->
  heap w !! c = Some cl ->
  unlinked (heap w) c cl (heap w') ->
  stream_clients w' = match l1 with [] => next cl | _ => stream_clients w end ->
  registry w' (l1 ++ l2).
Proof.
  intros [[lst Hd] Hdom] Hc Hun Hhead.
  pose proof (dseg_NoDup _ _ _ _ _ Hd) as Hnd.
  split.
  - rewrite Hhead. eapply dseg_unlink; [exact Hc|exact Hun| |exact Hnd|exact Hd]. done.
  - destruct Hun as (Hgone & Hnone & Hkeep). intros x.
    destruct (decide (x = c)) as [->|Hxc].
    + rewrite Hgone. split; [|by intros [? [=]]].
      intros Hin. exfalso.
      apply NoDup_app in Hnd as (_ & Hnd12 & [Hcl2 _]%NoDup_cons).
      apply elem_of_app in Hin as [Hin|Hin]; [|done].
      apply (Hnd12 c Hin). by left.
    + transitivity (x ∈ l1 ++ c :: l2).
      { rewrite !elem_of_app, elem_of_cons. tauto. }
      rewrite Hdom. split.
      * intros [clx Hclx]. destruct (Hkeep x clx Hxc Hclx) as (clx' & -> & _). by eexists.
      * intros [clx' Hclx']. destruct (heap w !! x) as [clx|] eqn:Hx; [by eexists|].
        apply Hnone in Hx. congruence.
Qed.

(** C8.  Detaching a client that is in the registry removes exactly
    that client: the callback returns, the clients before it and after
    it stay in the registry in the same order, the detached client is
    freed, every other client keeps its request and its [need_initial]
    flag, and the stream slot, the exposed snapshot and the
    bufferevents of the other connections are not modified. *)
Theorem detach_removes_exactly_that_client (c : loc) (w : world) (l : list loc) :
  registry w l ->
  c ∈ l ->
  exists w' cl l1 l2,
    heap w !! c = Some cl
    /\ exec (_http_callback_stream_error c) w = Some w'
    /\ l = l1 ++ c :: l2
    /\ registry w' (l1 ++ l2)
    /\ heap w' !! c = None
    /\ (forall x clx, x <> c -> heap w !! x = Some clx ->
          exists clx', heap w' !! x = Some clx'
            /\ request clx' = request clx /\ need_initial clx' = need_initial clx)
    /\ stream w' = stream w /\ exposed w' = exposed w /\ trace w' = trace w
    /\ (forall k, evcon (request cl) <> Some k -> bevs w' !! k = bevs w !! k).
Proof.
  intros Hreg (l1 & l2 & ->)%list_elem_of_split.
  destruct (stream_error_effect c w l1 l2 Hreg)
    as (w' & cl & Hc & Hrun & Hun & Hhead & Hs & He & Ht & Hb).
  exists w', cl, l1, l2. split; [done|]. split; [by unfold exec; rewrite Hrun|].
  split; [done|]. split; [by eapply registry_detach|].
  split; [by destruct Hun|]. split.
  { intros x clx Hxc Hclx. destruct Hun as (_ & _ & Hkeep).
    destruct (Hkeep x clx Hxc Hclx) as (clx' & ? & ? & ? & _). by exists clx'. }
  split; [done|]. split; [done|]. split; [done|].
  intros k Hk. rewrite Hb. destruct (evcon (request cl)) as [k'|]; [|done].
  rewrite lookup_delete_ne; [done|]. congruence.
Qed.

Lemma count_app (f : event -> bool) (a b : list event) :
  count f (a ++ b) = count f a + count f b.
Proof. unfold count. by rewrite List.filter_app, length_app. Qed.

Lemma sample_registry3 : registry sample_world3 [1; 2; 3]%positive.
Proof.
  split.
  - exists (Some 3%positive). simpl. repeat (split; [done|]; eexists; split; [reflexivity|]; split; [reflexivity|]). done.
  - intros c. rewrite <- elem_of_dom. simpl. unfold sample_clients.
    rewrite !dom_insert_L, dom_empty_L. set_solver.
Qed.

Lemma detach_removes_exactly_that_client_witness :
  exists w' l1 l2,
    exec (_http_callback_stream_error 2%positive) sample_world3 = Some w'
    /\ [1; 2; 3]%positive = l1 ++ 2%positive :: l2
    /\ registry w' (l1 ++ l2).
Proof.
  destruct (detach_removes_exactly_that_client 2%positive sample_world3 [1; 2; 3]%positive)
    as (w' & cl & l1 & l2 & _ & Hrun & Hl & Hreg & _).
  - exact sample_registry3.
  - set_solver.
  - by exists w', l1, l2.
Defined.

(** C9.  Attaching a client appends it at the end of the registry, after
    a walk from the head of the list to its last client: with [n]
    clients in the registry the loop of [_http_callback_stream] runs
    [n - 1] times (not at all when the registry is empty or has one
    client). *)
Theorem attach_appends_after_walking_the_registry (req : evhttp_request) (client : loc)
    (k : evhttp_connection) (w : world) (l : list loc) :
  registry w l ->
  command req = EVHTTP_REQ_GET ->
  evcon req = Some k ->
  heap w !! client = None ->
  exists w',
    _http_callback_stream req client w = Some (Pending, w')
    /\ registry w' (l ++ [client])
    /\ trace w' = trace w ++ (E_walk <$> tail l)
    /\ count is_walk (trace w') = count is_walk (trace w) + (length l - 1).
Proof.
  intros Hreg Hcmd Hcon Hfresh.
  destruct (stream_attach_effect req client k w l Hreg Hcmd Hcon Hfresh)
    as (w' & Hrun & Hreg' & _ & _ & Ht & _).
  exists w'. split; [done|]. split; [done|]. split; [done|].
  rewrite Ht, count_app. f_equal. unfold count.
  assert (length (tail l) = length l - 1) as <- by (destruct l; simpl; lia).
  generalize (tail l). intros t.
  induction t as [|x t IH]; [done|]. simpl. f_equal. exact IH.
Qed.

Lemma attach_appends_after_walking_the_registry_witness :
  exists w',
    _http_callback_stream (sample_get (Some 14%positive)) 4%positive sample_world3
    = Some (Pending, w')
    /\ registry w' [1; 2; 3; 4]%positive.
Proof.
  destruct (attach_appends_after_walking_the_registry (sample_get (Some 14%positive))
              4%positive 14%positive sample_world3 [1; 2; 3]%positive)
    as (w' & Hrun & Hreg & _).
  - exact sample_registry3.
  - reflexivity.
  - reflexivity.
  - reflexivity.
  - by exists w'.
Defined.

(** C9, as stated, fails: with the clients 1, 2 and 3 in the registry,
    attaching a fourth walks over the clients 2 and 3. *)
Lemma attach_scans_the_registry :
  registry sample_world3 [1; 2; 3]%positive
  /\ trace sample_world3 = []
  /\ exists w',
       _http_callback_stream (sample_get (Some 14%positive)) 4%positive sample_world3
       = Some (Pending, w')
       /\ trace w' = [E_walk 2%positive; E_walk 3%positive].
Proof.
  split; [exact sample_registry3|]. split; [done|].
  eexists. split; [vm_compute; reflexivity|]. reflexivity.
Qed.

End Registry.

(** ** The fan-out *)


Lemma rearmed_refl w : rearmed w w.
Proof.
  repeat (split; [done|]). intros k. by destruct (bevs w !! k).
Qed.

Lemma rearmed_trans w1 w2 w3 : rearmed w1 w2 -> rearmed w2 w3 -> rearmed w1 w3.
Proof.
  intros (? & ? & ? & ? & ? & Hb1) (? & ? & ? & ? & ? & Hb2).
  repeat (split; [congruence|]). intros k. specialize (Hb1 k). specialize (Hb2 k).
  destruct (bevs w1 !! k), (bevs w2 !! k), (bevs w3 !! k); try done.
  destruct Hb1, Hb2. split; congruence.
Qed.

Lemma rearmed_linked w w' : rearmed w w' -> linked w -> linked w'.
Proof.
  intros (_ & _ & _ & Hh & _ & Hb) Hl c cl Hc. rewrite Hh in Hc.
  destruct (Hl c cl Hc) as (k & b & Hk & Hbk & Harg).
  specialize (Hb k). rewrite Hbk in Hb. destruct (bevs w' !! k) as [b'|] eqn:Hbk'; [|done].
  exists k, b'. destruct Hb. split; [done|]. split; [done|]. congruence.
Qed.

Lemma queue_send_from_unfold fuel client :
  queue_send_from fuel client =
  match client with
  | None => ret tt
  | Some c =>
      match fuel with
      | O => fail
      | S fuel' =>
          cl ← deref c;
          (match evcon (request cl) with
           | Some conn =>
               bufferevent_setcb conn None (Some CB_stream_write) (Some CB_stream_error) c ;;
               bufferevent_enable conn true true
           | None => ret tt
           end) ;;
          cl ← deref c;
          queue_send_from fuel' (next cl)
      end
  end.
Proof. by destruct fuel. Qed.

(** One iteration of the loop of [_http_queue_send_stream]. *)
Lemma queue_send_step (c : loc) (cl : stream_client_t) (w : world) :
  heap w !! c = Some cl ->
  linked w ->
  exists w1,
    (match evcon (request cl) with
     | Some conn =>
         bufferevent_setcb conn None (Some CB_stream_write) (Some CB_stream_error) c ;;
         bufferevent_enable conn true true
     | None => ret tt
     end) w = Some (tt, w1)
    /\ rearmed w w1.
Proof.
  intros Hc Hl. destruct (Hl c cl Hc) as (k & b & Hk & Hb & Harg). rewrite Hk.
  unfold bind, bufferevent_setcb, bufferevent_enable, modify. simpl.
  eexists. split; [reflexivity|].
  repeat (split; [done|]). intros k'. simpl.
  unfold get_bufferevent. simpl. rewrite lookup_insert_eq. simpl.
  rewrite insert_insert_eq.
  destruct (decide (k = k')) as [<-|Hne].
  - rewrite Hb. rewrite lookup_insert_eq. done.
  - rewrite lookup_insert_ne by done. by destruct (bevs w !! k').
Qed.

Lemma queue_send_from_rearmed fuel cur w w' :
  linked w ->
  queue_send_from fuel cur w = Some (tt, w') ->
  rearmed w w'.
Proof.
  revert cur w. induction fuel as [|fuel IH]; intros cur w Hl; rewrite queue_send_from_unfold.
  - destruct cur; [done|]. intros [= <-]. apply rearmed_refl.
  - destruct cur as [c|]; [|intros [= <-]; apply rearmed_refl].
    unfold bind at 1, deref at 1, lift. destruct (heap w !! c) as [cl|] eqn:Hc; [|done].
    destruct (queue_send_step c cl w Hc Hl) as (w1 & Hstep & Hre).
    unfold bind at 1. rewrite Hstep.
    pose proof Hre as (_ & _ & _ & Hh & _).
    unfold bind at 1, deref at 1, lift. rewrite Hh, Hc. intros Hrest.
    eapply rearmed_trans; [exact Hre|]. eapply IH; [|exact Hrest].
    by eapply rearmed_linked.
Qed.

Lemma queue_send_from_total l fuel p cur lst w :
  linked w ->
  dseg (heap w) p cur l lst None ->
  length l <= fuel ->
  exists w', queue_send_from fuel cur w = Some (tt, w').
Proof.
  revert fuel p cur w. induction l as [|c l IH]; intros fuel p cur w Hl; simpl.
  - intros [-> _] _. rewrite queue_send_from_unfold. by eexists.
  - intros (-> & cl & Hc & _ & Hd) Hlen. destruct fuel as [|fuel]; [lia|].
    rewrite queue_send_from_unfold.
    unfold bind at 1, deref at 1, lift. rewrite Hc.
    destruct (queue_send_step c cl w Hc Hl) as (w1 & Hstep & Hre).
    unfold bind at 1. rewrite Hstep.
    pose proof Hre as (_ & _ & _ & Hh & _).
    unfold bind at 1, deref at 1, lift. rewrite Hh, Hc.
    eapply (IH fuel (Some c)); [by eapply rearmed_linked| by rewrite Hh | lia].
Qed.

Lemma queue_send_stream_rearmed w w' :
  linked w -> _http_queue_send_stream w = Some (tt, w') -> rearmed w w'.
Proof.
  intros Hl. unfold _http_queue_send_stream, bind, gets. by apply queue_send_from_rearmed.
Qed.

Lemma queue_send_stream_total w l :
  linked w -> registry w l -> exists w', _http_queue_send_stream w = Some (tt, w').
Proof.
  intros Hl Hreg. pose proof (registry_length _ _ Hreg) as Hlen.
  destruct Hreg as [[lst Hd] _].
  unfold _http_queue_send_stream, bind, gets.
  eapply queue_send_from_total; [done|exact Hd|lia].
Qed.

(** ** The refresh tick *)

Section Tick.
Context `{blank_h}.

Lemma guarded_new_picture_trace p sp : guarded true (new_picture_trace p sp) = true.
Proof. unfold new_picture_trace. by case_decide. Qed.

Lemma guarded_app_locked t1 t2 :
  guarded true t1 = true -> (forall e, In e t1 -> e <> E_unlock) ->
  guarded true (t1 ++ t2) = guarded true t2.
Proof.
  induction t1 as [|e t1 IH]; [done|]. intros Hg Hno.
  assert (forall e, In e t1 -> e <> E_unlock) as Hno' by (intros e' He'; apply Hno; by right).
  destruct e; simpl in *; try (apply IH; done); try (by apply IH; [apply andb_true_iff in Hg|]).
  exfalso. by apply (Hno E_unlock); [left|].
Qed.

Lemma new_picture_trace_no_unlock p sp e : In e (new_picture_trace p sp) -> e <> E_unlock.
Proof.
  unfold new_picture_trace. case_decide; simpl; intros Hin ->;
    repeat (destruct Hin as [Hin|Hin]; [discriminate Hin|]); done.
Qed.

Lemma count_new_picture_trace p sp :
  count is_frame_copy (new_picture_trace p sp) = 1
  /\ count is_lock (new_picture_trace p sp) = 0.
Proof. unfold new_picture_trace. by case_decide. Qed.

Lemma count_cons (f : event -> bool) (e : event) (t : list event) :
  count f (e :: t) = (if f e then 1 else 0) + count f t.
Proof. unfold count. simpl. by destruct (f e). Qed.

Lemma memcpy_length dst src n d : memcpy dst src n = Some d -> length d = length dst.
Proof.
  intros (Hs & Hd & ->)%memcpy_inv.
  rewrite length_app, length_take, length_drop. lia.
Qed.

Lemma expose_blank_picture_effect junk w w' :
  _expose_blank_picture junk w = Some (tt, w') ->
  stream w' = stream w /\ stream_clients w' = stream_clients w
  /\ heap w' = heap w /\ bevs w' = bevs w /\ trace w' = trace w
  /\ (blank_when_offline (exposed w) -> blank_when_offline (exposed w'))
  /\ (picture_fits (exposed_picture (exposed w)) -> picture_fits (exposed_picture (exposed w')))
  /\ (online (exposed w) = true \/ size (exposed_picture (exposed w)) = 0 ->
      online (exposed w') = false /\ is_blank (exposed w')).
Proof.
  rewrite expose_blank_picture_eq. simpl.
  destruct (online (exposed w) || bool_decide (size (exposed_picture (exposed w)) = 0)) eqn:Hg.
  - destruct (memcpy _ _ _) as [d|] eqn:Hcpy; [|done]. intros [= <-]. simpl.
    repeat (split; [done|]).
    pose proof (memcpy_length _ _ _ _ Hcpy) as Hlen.
    apply memcpy_inv in Hcpy as (_ & Hfit & ->). rewrite Nat.mul_1_r in *.
    assert (is_blank
              (Exposed (Picture (take BLANK_JPG_SIZE BLANK_JPG_DATA
                                 ++ drop BLANK_JPG_SIZE
                                      (grown_data (exposed_picture (exposed w)) BLANK_JPG_SIZE junk))
                          BLANK_JPG_SIZE
                          (allocated (exposed_picture (exposed w)) `max` BLANK_JPG_SIZE))
                 BLANK_JPG_WIDTH BLANK_JPG_HEIGHT false)) as Hblank.
    { split; [done|]. split; [|done]. simpl. unfold BLANK_JPG_SIZE at 2.
      rewrite firstn_all. unfold BLANK_JPG_SIZE. by rewrite take_app_length. }
    split; [by intros _ _|]. split; [|by intros _; split].
    intros [Hl Hs]. split; simpl; [|lia].
    rewrite Hlen. by apply grown_data_length.
  - intros [= <-]. repeat (split; [done|]).
    intros [Hon|Hz].
    + rewrite Hon in Hg. done.
    + rewrite Hz in Hg. rewrite orb_true_r in Hg. done.
Qed.

Local Opaque new_picture_trace.

Lemma refresh_effect junk w w' :
  _http_exposed_refresh junk w = Some (tt, w') ->
  exists wm t,
    (w' = wm \/ _http_queue_send_stream wm = Some (tt, w'))
    /\ heap wm = heap w /\ bevs wm = bevs w /\ stream_clients wm = stream_clients w
    /\ stream_picture (stream wm) = stream_picture (stream w)
    /\ mutex (stream wm) = mutex (stream w)
    /\ trace wm = trace w ++ E_read F_updated :: t
    /\ guarded false t = true
    /\ count is_frame_copy t <= 1
    /\ count is_lock t = (if updated (stream w) then 1 else 0)
    /\ (updated (stream w) = false -> t = [])
    /\ (blank_when_offline (exposed w) -> blank_when_offline (exposed wm))
    /\ (picture_fits (exposed_picture (exposed w)) ->
        size (stream_picture (stream w)) <= allocated (stream_picture (stream w)) ->
        picture_fits (exposed_picture (exposed wm))).
Proof.
  unfold _http_exposed_refresh, LOCK_STREAM, UNLOCK_STREAM.
  unfold bind at 1, stream_get at 1, bind at 1, log at 1, modify at 1, gets at 1. simpl.
  destruct (updated (stream w)) eqn:Hu.
  - (* a new frame *)
    unfold bind at 1, bind at 1, gets at 1. simpl.
    destruct (mutex (stream w)) eqn:Hm; [done|].
    unfold bind at 1, log at 1, modify at 1, set_mutex at 1, modify at 1. simpl.
    unfold bind at 1, stream_picture_size at 1, stream_get at 1, bind at 1, log at 1,
      modify at 1, gets at 1. simpl.
    unfold bind at 1.
    destruct (decide (0 < size (stream_picture (stream w)))) as [Hpos|Hzero].
    + unfold bind at 1. rewrite expose_new_picture_eq. simpl.
      destruct (memcpy _ _ _) as [d|] eqn:Hcpy; [|done].
      unfold set_updated, set_mutex, bind, log, modify. simpl.
      intros Hq.
      eexists _, (E_lock :: E_read F_picture_size
                  :: new_picture_trace (exposed_picture (exposed w)) (stream_picture (stream w))
                  ++ [E_write F_updated; E_unlock]).
      split; [right; exact Hq|]. simpl.
      repeat (split; [done|]).
      split. { by rewrite <- !app_assoc. }
      destruct (count_new_picture_trace (exposed_picture (exposed w))
                  (stream_picture (stream w))) as [Hcopies Hlocks].
      split.
      { simpl. rewrite guarded_app_locked;
          [done | apply guarded_new_picture_trace | apply new_picture_trace_no_unlock]. }
      split. { rewrite !count_cons, count_app, Hcopies. simpl. unfold count. simpl. lia. }
      split. { rewrite !count_cons, count_app, Hlocks. by simpl. }
      split; [done|]. split; [done|].
      intros [Hl Hs] Hsa. split; simpl; [|lia].
      rewrite (memcpy_length _ _ _ _ Hcpy). by apply grown_data_length.
    + unfold set_updated, set_mutex, bind, log, modify. simpl.
      destruct (_expose_blank_picture junk _) as [[[] wb]|] eqn:Hb; [|done].
      apply expose_blank_picture_effect in Hb as (Hs & Hc & Hh & Hbv & Ht & Hbl & Hfit & _).
      simpl in *.
      intros Hq. exists wb, [E_lock; E_read F_picture_size; E_write F_updated; E_unlock].
      split; [by right|]. rewrite Hs, Hh, Hbv, Hc, Ht. simpl.
      repeat (split; [first [done | unfold count; simpl; lia]|]).
      split. { by rewrite <- !app_assoc. }
      repeat (split; [first [done | unfold count; simpl; lia]|]).
      intros Hl _. by apply Hfit.
  - (* no new frame *)
    unfold bind at 1, exposed_get at 1, gets at 1.
    simpl. intros Hq. exists (set_trace (trace w ++ [E_read F_updated]) w), [].
    split.
    { destruct (negb (online (exposed w))); [by right|]. left. unfold ret in Hq. congruence. }
    repeat (split; [first [done | unfold count; simpl; lia]|]). done.
Qed.

Lemma queue_send_from_frame fuel cur w w' :
  queue_send_from fuel cur w = Some (tt, w') ->
  stream w' = stream w /\ exposed w' = exposed w /\ stream_clients w' = stream_clients w
  /\ heap w' = heap w /\ trace w' = trace w.
Proof.
  revert cur w. induction fuel as [|fuel IH]; intros cur w; rewrite queue_send_from_unfold.
  - destruct cur; [done|]. by intros [= <-].
  - destruct cur as [c|]; [|by intros [= <-]].
    unfold bind at 1, deref at 1, lift. destruct (heap w !! c) as [cl|] eqn:Hc; [|done].
    unfold bind at 1.
    destruct (evcon (request cl)) as [k|].
    + unfold bind at 1, bufferevent_setcb, bufferevent_enable, modify. simpl.
      unfold bind at 1, deref at 1, lift. simpl. rewrite Hc. intros Hrest.
      apply IH in Hrest. simpl in Hrest. done.
    + unfold ret at 1. unfold bind at 1, deref at 1, lift. rewrite Hc. apply IH.
Qed.

Lemma queue_send_stream_frame w w' :
  _http_queue_send_stream w = Some (tt, w') ->
  stream w' = stream w /\ exposed w' = exposed w /\ stream_clients w' = stream_clients w
  /\ heap w' = heap w /\ trace w' = trace w.
Proof. unfold _http_queue_send_stream, bind, gets. apply queue_send_from_frame. Qed.


Lemma server_init_eq stream junk :
  http_server_init stream junk
  = Some (World stream
            (Exposed (Picture BLANK_JPG_DATA BLANK_JPG_SIZE BLANK_JPG_SIZE)
                     BLANK_JPG_WIDTH BLANK_JPG_HEIGHT false)
            None ∅ ∅ []).
Proof.
  unfold http_server_init, exec. rewrite expose_blank_picture_eq. simpl.
  unfold grown_data. simpl.
  assert (memcpy (if decide (0 < BLANK_JPG_SIZE) then A_REALLOC [] BLANK_JPG_SIZE junk else [])
            BLANK_JPG_DATA (BLANK_JPG_SIZE * 1)
          = Some BLANK_JPG_DATA) as ->.
  { rewrite Nat.mul_1_r. rewrite memcpy_Some.
    - unfold BLANK_JPG_SIZE at 1. rewrite firstn_all. rewrite drop_ge; [by rewrite app_nil_r|].
      case_decide; [by rewrite A_REALLOC_length | simpl; lia].
    - done.
    - case_decide; [by rewrite A_REALLOC_length | simpl; lia]. }
  done.
Qed.

End Tick.



(** ** The stream writer *)


Lemma stream_write_effect (k : evhttp_connection) (c : loc) (now : timespec) (w : world)
    (cl : stream_client_t) :
  heap w !! c = Some cl ->
  size (exposed_picture (exposed w)) <= length (data (exposed_picture (exposed w))) ->
  _http_callback_stream_write k c now w
  = Some (tt,
          World (stream w) (exposed w) (stream_clients w)
            (if need_initial cl
             then <[c := Client (request cl) false (prev cl) (next cl)]> (heap w)
             else heap w)
            (<[k := Bufferevent None None (Some CB_stream_error) (Some c) true
                      (ev_write (get_bufferevent k w))
                      (output (get_bufferevent k w)
                       ++ (if need_initial cl then str stream_preamble else [])
                       ++ stream_part (exposed_picture (exposed w)) now)]> (bevs w))
            (trace w)).
Proof.
  intros Hc Hfit. destruct w as [s e hd hp bv tr]. simpl in *.
  unfold _http_callback_stream_write, stream_part, evbuffer_add, evbuffer_add_printf,
    evbuffer_new, bufferevent_write_buffer, bufferevent_setcb, bufferevent_enable,
    set_need_initial, store, exposed_get.
  unfold bind at 1, deref at 1, lift. simpl. rewrite Hc.
  destruct e as [[d n a] wd ht o]. simpl in *.
  destruct (need_initial cl) eqn:Hni;
    unfold bind, deref, lift, modify, gets, ret, get_bufferevent; simpl;
    rewrite ?Hc; simpl; rewrite !Nat.mul_1_r;
    (destruct (decide (n <= length d)) as [_|Hn]; [|lia]); simpl;
    rewrite !lookup_insert_eq; simpl; rewrite !insert_insert_eq;
    rewrite orb_true_r, orb_false_r; by rewrite <- ?app_assoc.
Qed.

Lemma stream_preamble_spec : str stream_preamble = spec_preamble.
Proof. vm_compute. reflexivity. Qed.

Lemma read_decimal_fmt_lu (n : nat) : read_decimal (fmt_lu n) = Some n.
Proof.
  unfold read_decimal, fmt_lu. rewrite NilEmpty.usu. simpl.
  by rewrite DecimalNat.Unsigned.of_to.
Qed.

Lemma stream_part_spec (p : picture_t) (now : timespec) :
  stream_part p now
  = spec_part (Part (fmt_lu (size p)) (x_timestamp now) (take (size p) (data p))).
Proof.
  unfold stream_part, spec_part, spec_line, stream_part_header, stream_part_trailer, x_timestamp.
  unfold part_content_length, part_x_timestamp, part_jpeg.
  rewrite Nat.mul_1_r. rewrite !str_app. rewrite <- !app_assoc.
  change (str RN) with crlf. reflexivity.
Qed.

(** ** Decimal numerals and timestamps *)

Lemma all_digits_string_of_uint (d : uint) : all_digits (NilEmpty.string_of_uint d) = true.
Proof. induction d; simpl; done. Qed.

Lemma append_nil_l (s : string) : (EmptyString ++ s)%string = s.
Proof. reflexivity. Qed.

Lemma append_cons (c : ascii) (s r : string) :
  (String c s ++ r)%string = String c (s ++ r)%string.
Proof. reflexivity. Qed.

Lemma str_inj (s s' : string) : str s = str s' -> s = s'.
Proof.
  unfold str. intros Heq. apply (f_equal string_of_list_byte) in Heq.
  by rewrite !string_of_list_byte_of_string in Heq.
Qed.

Lemma all_digits_app (a b : string) :
  all_digits (a ++ b) = all_digits a && all_digits b.
Proof.
  induction a as [|c a IH]; rewrite ?append_nil_l, ?append_cons; simpl; [done|].
  by rewrite IH, andb_assoc.
Qed.

Lemma length_append (a b : string) :
  String.length (a ++ b) = String.length a + String.length b.
Proof.
  induction a as [|c a IH]; rewrite ?append_nil_l, ?append_cons; simpl; [done|].
  by rewrite IH.
Qed.

Lemma all_digits_zeros (k : nat) : all_digits (zeros k) = true.
Proof. induction k; simpl; done. Qed.

Lemma length_zeros (k : nat) : String.length (zeros k) = k.
Proof. induction k; simpl; [done|]. by f_equal. Qed.

Lemma decimal_numeral_digits (s : string) : decimal_numeral s = true -> all_digits s = true.
Proof.
  destruct s as [|c [|c' s']]; simpl; [done| |].
  - by intros ->.
  - rewrite !andb_true_iff. tauto.
Qed.

(** The numeral of a decimal number without leading zeros. *)
Lemma decimal_numeral_unorm (d : uint) :
  unorm d = d -> decimal_numeral (NilEmpty.string_of_uint d) = true.
Proof.
  intros Hn. pose proof (all_digits_string_of_uint d) as Hall.
  destruct d as [|d|d|d|d|d|d|d|d|d|d];
    try (simpl in *; destruct (NilEmpty.string_of_uint d); [reflexivity | exact Hall]).
  - discriminate Hn.
  - rewrite DecimalFacts.unorm_D0 in Hn. unfold unorm in Hn.
    pose proof (DecimalFacts.nzhead_nonzero d) as Hnz.
    destruct (nzhead d) eqn:E; try discriminate Hn.
    + injection Hn as <-. reflexivity.
    + by destruct (Hnz u).
Qed.

Lemma decimal_numeral_fmt_lu (n : nat) : decimal_numeral (fmt_lu n) = true.
Proof.
  apply decimal_numeral_unorm.
  by rewrite <- DecimalNat.Unsigned.to_of, DecimalNat.Unsigned.of_to.
Qed.

Lemma decimal_numeral_fmt_u (n : N) : decimal_numeral (fmt_u n) = true.
Proof.
  apply decimal_numeral_unorm.
  by rewrite <- DecimalN.Unsigned.to_of, DecimalN.Unsigned.of_to.
Qed.

Lemma until_dot_digits (s r : string) :
  all_digits s = true -> until_dot (s ++ String "." r) = Some (s, r).
Proof.
  induction s as [|c s IH]; rewrite ?append_nil_l, ?append_cons; simpl.
  - done.
  - intros [Hc Hs]%andb_true_iff. rewrite (IH Hs).
    destruct (Ascii.eqb_spec c "."%char) as [->|_]; [discriminate Hc | done].
Qed.

Lemma until_dot_spec (s a r : string) :
  until_dot s = Some (a, r) -> s = (a ++ String "." r)%string.
Proof.
  revert a. induction s as [|c s IH]; intros a; simpl; [done|].
  destruct (Ascii.eqb_spec c "."%char) as [->|_].
  - intros [= <- <-]. by rewrite append_nil_l.
  - destruct (until_dot s) as [[a' r']|]; [|done].
    intros [= <- <-]. rewrite append_cons. f_equal. by apply IH.
Qed.

Lemma timestamp_text_x_timestamp (now : timespec) : timestamp_text (x_timestamp now) = true.
Proof.
  unfold timestamp_text, x_timestamp. rewrite append_cons, append_nil_l.
  rewrite until_dot_digits by apply all_digits_string_of_uint.
  rewrite decimal_numeral_fmt_u. unfold fmt_06u.
  rewrite all_digits_app, all_digits_zeros. unfold fmt_u at 1.
  rewrite all_digits_string_of_uint. cbn [andb]. apply Nat.leb_le.
  rewrite length_append, length_zeros. lia.
Qed.

(** What the header values of a part cannot be: an empty or
    zero-padded [Content-Length], or a timestamp that runs over the end
    of its line into a further header. *)
Example header_values_are_strict :
  decimal_numeral "" = false
  /\ decimal_numeral "007" = false
  /\ decimal_numeral "0" = true
  /\ decimal_numeral "4096" = true
  /\ timestamp_text "1540000000.123456" = true
  /\ timestamp_text "1540000000.1234" = false
  /\ timestamp_text ("1540000000.123456" ++ RN ++ "Content-Length: 0") = false.
Proof. vm_compute. by split_and!. Qed.

(** ** The framing of the parts is unambiguous *)

(** Two splits of a list into a run of elements that satisfy [P] and a
    rest that does not start with such an element are the same. *)
Lemma span_unique {A} (P : A -> bool) (l l' r r' : list A) :
  forallb P l = true -> forallb P l' = true ->
  (forall x r0, r = x :: r0 -> P x = false) ->
  (forall x r0, r' = x :: r0 -> P x = false) ->
  l ++ r = l' ++ r' -> l = l' /\ r = r'.
Proof.
  revert l'. induction l as [|a l IH]; intros [|a' l']; simpl.
  - done.
  - intros _ [Ha' _]%andb_true_iff Hr _ Heq. by rewrite (Hr a' _ Heq) in Ha'.
  - intros [Ha _]%andb_true_iff _ _ Hr' Heq. symmetry in Heq.
    by rewrite (Hr' a _ Heq) in Ha.
  - intros [_ Hl]%andb_true_iff [_ Hl']%andb_true_iff Hr Hr' [= -> Heq].
    by destruct (IH l' Hl Hl' Hr Hr' Heq) as [-> ->].
Qed.

Lemma str_cons (c : ascii) (s : string) : str (String c s) = byte_of_ascii c :: str s.
Proof. reflexivity. Qed.

Lemma str_digits (s : string) :
  all_digits s = true -> forallb (fun b => is_digit (ascii_of_byte b)) (str s) = true.
Proof.
  induction s as [|c s IH]; [done|]. rewrite str_cons. simpl.
  rewrite ascii_of_byte_of_ascii. intros [-> Hs]%andb_true_iff. by apply IH.
Qed.

Lemma str_digits_or_dot (s : string) :
  all_digits s = true ->
  forallb (fun b => is_digit (ascii_of_byte b) || Ascii.eqb (ascii_of_byte b) "."%char) (str s)
  = true.
Proof.
  induction s as [|c s IH]; [done|]. rewrite str_cons. simpl.
  rewrite ascii_of_byte_of_ascii. intros [-> Hs]%andb_true_iff. by apply IH.
Qed.

Lemma str_timestamp (s : string) :
  timestamp_text s = true ->
  forallb (fun b => is_digit (ascii_of_byte b) || Ascii.eqb (ascii_of_byte b) "."%char) (str s)
  = true.
Proof.
  unfold timestamp_text. destruct (until_dot s) as [[sec usec]|] eqn:E; [|done].
  apply until_dot_spec in E as ->.
  intros [[Hsec%decimal_numeral_digits Husec]%andb_true_iff _]%andb_true_iff.
  rewrite str_app, str_cons, forallb_app. cbn [forallb].
  by rewrite (str_digits_or_dot sec Hsec), (str_digits_or_dot usec Husec).
Qed.

Lemma spec_part_nonempty (p : multipart_part) (r : bytes) : spec_part p ++ r <> [].
Proof.
  unfold spec_part, spec_line. intros Heq%(f_equal length).
  rewrite !length_app in Heq. simpl in Heq. lia.
Qed.

(** A well-formed part can be read back from the bytes it starts: its
    header values end at the first line break, and its
    [Content-Length] tells where its JPEG ends. *)
Lemma spec_part_inj (p p' : multipart_part) (r r' : bytes) :
  well_formed_part p -> well_formed_part p' ->
  spec_part p ++ r = spec_part p' ++ r' -> p = p' /\ r = r'.
Proof.
  destruct p as [cl ts jpeg], p' as [cl' ts' jpeg'].
  intros [[Hn Hlen] Hts] [[Hn' Hlen'] Hts'].
  cbn [part_content_length part_x_timestamp part_jpeg] in *.
  unfold spec_part, spec_line. cbn [part_content_length part_x_timestamp part_jpeg].
  rewrite !str_app, <- !app_assoc. intros Heq.
  do 3 apply app_inv_head in Heq.
  apply (span_unique (fun b => is_digit (ascii_of_byte b))) in Heq as [Hcl Heq];
    [|by apply str_digits, decimal_numeral_digits..
     |by intros x r0 [= <- _]|by intros x r0 [= <- _]].
  apply str_inj in Hcl as <-.
  do 2 apply app_inv_head in Heq.
  apply (span_unique
           (fun b => is_digit (ascii_of_byte b) || Ascii.eqb (ascii_of_byte b) "."%char))
    in Heq as [Hts0 Heq];
    [|by apply str_timestamp..|by intros x r0 [= <- _]|by intros x r0 [= <- _]].
  apply str_inj in Hts0 as <-.
  do 2 apply app_inv_head in Heq.
  apply app_inj_1 in Heq as [<- Heq]; [|congruence].
  do 3 apply app_inv_head in Heq. by subst.
Qed.

Lemma spec_parts_inj (parts parts' : list multipart_part) :
  Forall well_formed_part parts -> Forall well_formed_part parts' ->
  concat (spec_part <$> parts) = concat (spec_part <$> parts') -> parts = parts'.
Proof.
  revert parts'. induction parts as [|p parts IH]; intros [|p' parts'] Hwf Hwf';
    rewrite ?fmap_cons; cbn [concat fmap list_fmap].
  - done.
  - intros Heq. symmetry in Heq. by apply spec_part_nonempty in Heq.
  - intros Heq. by apply spec_part_nonempty in Heq.
  - apply Forall_cons in Hwf as [Hp Hwf]. apply Forall_cons in Hwf' as [Hp' Hwf'].
    intros [<- Heq]%spec_part_inj; [|done..]. f_equal. by apply IH.
Qed.

(** The bytes sent to a client are the stream of one list of parts only. *)
Lemma multipart_stream_unique (out : bytes) (parts parts' : list multipart_part) :
  multipart_stream out parts -> multipart_stream out parts' -> parts = parts'.
Proof.
  intros [Hwf ->] [Hwf' Heq].
  assert (forall q qs, spec_preamble ++ concat (spec_part <$> q :: qs) <> []) as Hne.
  { intros q qs [Hp _]%app_eq_nil. vm_compute in Hp. discriminate Hp. }
  destruct parts as [|p parts], parts' as [|p' parts'].
  - done.
  - symmetry in Heq. by apply Hne in Heq.
  - by apply Hne in Heq.
  - apply app_inv_head in Heq. by apply spec_parts_inj.
Qed.

Lemma stream_part_well_formed (p : picture_t) (now : timespec) :
  size p <= length (data p) ->
  well_formed_part (Part (fmt_lu (size p)) (x_timestamp now) (take (size p) (data p))).
Proof.
  intros Hfit. split; [split|]; simpl.
  - apply decimal_numeral_fmt_lu.
  - rewrite read_decimal_fmt_lu, length_take. f_equal. lia.
  - apply timestamp_text_x_timestamp.
Qed.

(** ** The invariant of the event loop *)

Section Inv.
Context `{blank_h}.

Lemma server_inv_linked w : server_inv w -> linked w.
Proof.
  intros (_ & _ & _ & _ & _ & _ & Hcl & _) c cl Hc.
  destruct (Hcl c cl Hc) as (k & b & ? & ? & ? & _). by exists k, b.
Qed.

Lemma registry_ext w w' l :
  heap w' = heap w -> stream_clients w' = stream_clients w -> registry w l -> registry w' l.
Proof. unfold registry. by intros -> ->. Qed.

(** A client that is written to in place keeps its position. *)
Lemma registry_update w w' l c cl cl' :
  registry w l ->
  heap w !! c = Some cl ->
  prev cl' = prev cl -> next cl' = next cl ->
  heap w' = <[c := cl']> (heap w) ->
  stream_clients w' = stream_clients w ->
  registry w' l.
Proof.
  intros [[lst Hd] Hdom] Hc Hp Hn Hh Hs. split.
  - exists lst. rewrite Hh, Hs. eapply dseg_frame; [|exact Hd].
    intros x clx _ Hx. destruct (decide (x = c)) as [->|Hne].
    + rewrite lookup_insert_eq. exists cl'. rewrite Hc in Hx. injection Hx as <-. done.
    + rewrite lookup_insert_ne by done. by exists clx.
  - intros x. rewrite Hdom, Hh. destruct (decide (x = c)) as [->|Hne].
    + rewrite lookup_insert_eq, Hc. split; by eexists.
    + by rewrite lookup_insert_ne.
Qed.

Lemma client_sent_write (cl : stream_client_t) (out : bytes) (p : picture_t) (now : timespec) :
  size p <= length (data p) ->
  client_sent cl out ->
  client_sent (Client (request cl) false (prev cl) (next cl))
    (out ++ (if need_initial cl then str stream_preamble else []) ++ stream_part p now).
Proof.
  intros Hfit (parts & [Hall Hout] & Hni).
  exists (parts ++ [Part (fmt_lu (size p)) (x_timestamp now) (take (size p) (data p))]).
  split; [split|].
  - apply Forall_app. split; [done|]. apply Forall_singleton.
    by apply stream_part_well_formed.
  - rewrite stream_part_spec, stream_preamble_spec.
    destruct parts as [|q parts].
    + rewrite (proj2 Hni eq_refl). subst out.
      cbn [app fmap list_fmap concat]. by rewrite app_nil_r.
    + destruct (need_initial cl) eqn:Hn; [by destruct Hni as [Hni _]; specialize (Hni eq_refl)|].
      subst out. cbn [app]. rewrite !fmap_cons, fmap_app.
      cbn [concat fmap list_fmap]. rewrite concat_app. cbn [concat].
      rewrite app_nil_r. by rewrite <- !app_assoc.
  - simpl. split; [done|]. intros [_ ?]%app_eq_nil. discriminate.
Qed.

(** The invariant does not look at the callbacks and the enabled
    events of a bufferevent. *)
Lemma server_inv_transfer w w' :
  server_inv w ->
  mutex (stream w') = false ->
  size (stream_picture (stream w')) <= length (data (stream_picture (stream w'))) ->
  size (stream_picture (stream w')) <= allocated (stream_picture (stream w')) ->
  picture_fits (exposed_picture (exposed w')) ->
  blank_when_offline (exposed w') ->
  heap w' = heap w ->
  stream_clients w' = stream_clients w ->
  (forall k,
     match bevs w !! k, bevs w' !! k with
     | Some b, Some b' => output b' = output b /\ cbarg b' = cbarg b
     | None, None => True
     | _, _ => False
     end) ->
  server_inv w'.
Proof.
  intros (_ & _ & _ & _ & _ & [l Hreg] & Hcl & Hbv) Hm Hs1 Hs2 Hfit Hbl Hh Hsc Hb.
  repeat (split; [done|]). split; [|split].
  - exists l. by eapply registry_ext.
  - intros c cl Hc. rewrite Hh in Hc. destruct (Hcl c cl Hc) as (k & b & Hk & Hbk & Harg & Hsent).
    specialize (Hb k). rewrite Hbk in Hb.
    destruct (bevs w' !! k) as [b'|] eqn:Hbk'; [|done]. destruct Hb as [Ho Ha].
    exists k, b'. rewrite Ho, Ha. done.
  - intros k b' Hbk'. specialize (Hb k). rewrite Hbk' in Hb.
    destruct (bevs w !! k) as [b|] eqn:Hbk; [|done]. destruct Hb as [Ho Ha].
    destruct (Hbv k b Hbk) as (c & cl & Harg & Hc & Hk).
    exists c, cl. rewrite Ha, Hh. done.
Qed.

Lemma server_inv_init stream junk w :
  mutex stream = false ->
  size (stream_picture stream) <= length (data (stream_picture stream)) ->
  size (stream_picture stream) <= allocated (stream_picture stream) ->
  http_server_init stream junk = Some w ->
  server_inv w.
Proof.
  intros Hm Hs1 Hs2. rewrite server_init_eq. intros [= <-]. simpl.
  unfold server_inv. simpl. split_and!; try done.
  - intros _. split; [done|]. split; [|done]. simpl. unfold BLANK_JPG_SIZE. apply firstn_all.
  - exists []. split; [by exists None|]. intros c. simpl. rewrite lookup_empty.
    split; [intros Hx; by apply elem_of_nil in Hx | by intros [? [=]]].
Qed.

Lemma server_inv_refresh junk w w' :
  server_inv w ->
  exec (_http_exposed_refresh junk) w = Some w' ->
  server_inv w'.
Proof.
  intros Hinv ([] & Hrun)%exec_Some.
  apply refresh_effect in Hrun
    as (wm & t & Hq & Hh & Hb & Hsc & Hsp & Hmx & _ & _ & _ & _ & _ & Hbl & Hfit).
  pose proof Hinv as (Hm & Hs1 & Hs2 & Hefit & Heblank & _).
  assert (server_inv wm) as Hinvm.
  { apply (server_inv_transfer w wm Hinv).
    - by rewrite Hmx.
    - by rewrite Hsp.
    - by rewrite Hsp.
    - by apply Hfit.
    - by apply Hbl.
    - done.
    - done.
    - intros k. rewrite Hb. by destruct (bevs w !! k). }
  destruct Hq as [->|Hq]; [done|].
  apply queue_send_stream_rearmed in Hq as (Hs & He & Hc' & Hh' & _ & Hb');
    [|by apply server_inv_linked].
  pose proof Hinvm as (? & ? & ? & ? & ? & _).
  apply (server_inv_transfer wm w' Hinvm); rewrite ?Hs, ?He; done.
Qed.

Lemma server_inv_produce picture width height w w' :
  server_inv w ->
  exec (fire (Produce picture width height)) w = Some w' ->
  server_inv w'.
Proof.
  intros Hinv. unfold exec, fire, bind, gets, modify. simpl.
  pose proof Hinv as (Hm & _ & _ & Hfit & Hbl & _). rewrite Hm.
  case_decide as Hp; [|done]. simpl. intros [= <-]. destruct Hp as [Hp1 Hp2].
  apply (server_inv_transfer w _ Hinv); try done.
  intros k. simpl. by destruct (bevs w !! k).
Qed.

Lemma server_inv_writable k now w w' :
  server_inv w ->
  exec (fire (Writable k now)) w = Some w' ->
  server_inv w'.
Proof.
  intros Hinv. unfold exec, fire.
  unfold bind at 1, gets at 1. unfold bind at 1, lift.
  destruct (bevs w !! k) as [b|] eqn:Hb; [|done].
  destruct (writecb b) as [[]|]; try done.
  destruct (cbarg b) as [c|] eqn:Harg; [|done].
  destruct (ev_write b); [|done].
  pose proof Hinv as (Hm & Hs1 & Hs2 & Hfit & Hbl & [l Hreg] & Hcl & Hbv).
  destruct (Hbv k b Hb) as (c' & cl & Harg' & Hc & Hk).
  rewrite Harg in Harg'. injection Harg' as <-.
  rewrite (stream_write_effect k c now w cl Hc) by (destruct Hfit; lia).
  simpl. intros [= <-].
  set (cl' := Client (request cl) false (prev cl) (next cl)).
  assert ((if need_initial cl then <[c:=cl']> (heap w) else heap w) = <[c:=cl']> (heap w)) as ->.
  { destruct (need_initial cl) eqn:Hni; [done|]. symmetry. apply insert_id.
    rewrite Hc. f_equal. unfold cl'. destruct cl. simpl in *. by subst. }
  destruct (Hcl c cl Hc) as (k0 & b0 & Hk0 & Hb0 & _ & Hsent).
  rewrite Hk in Hk0. injection Hk0 as <-. rewrite Hb in Hb0. injection Hb0 as <-.
  unfold get_bufferevent. simpl. rewrite Hb. simpl.
  unfold server_inv. simpl. split_and!; try done.
  - exists l. by eapply (registry_update w _ l c cl cl').
  - intros x clx. destruct (decide (x = c)) as [->|Hxc].
    + rewrite lookup_insert_eq. intros [= <-]. eexists k, _.
      rewrite lookup_insert_eq. split_and!; try done.
      apply client_sent_write; [destruct Hfit; lia | done].
    + rewrite lookup_insert_ne by done. intros Hx.
      destruct (Hcl x clx Hx) as (kx & bx & Hkx & Hbx & Hargx & Hsx).
      exists kx, bx. split_and!; try done.
      rewrite lookup_insert_ne; [done|]. intros <-. congruence.
  - intros k' b'. destruct (decide (k' = k)) as [->|Hkk].
    + rewrite lookup_insert_eq. intros [= <-]. exists c, cl'. simpl.
      by rewrite lookup_insert_eq.
    + rewrite lookup_insert_ne by done. intros Hb'.
      destruct (Hbv k' b' Hb') as (x & clx & Hargx & Hx & Hkx).
      assert (x <> c) by congruence.
      exists x, clx. by rewrite lookup_insert_ne.
Qed.

Lemma server_inv_stream_request req client w w' :
  server_inv w ->
  exec (fire (Stream_request req client)) w = Some w' ->
  server_inv w'.
Proof.
  intros Hinv. unfold exec, fire.
  unfold bind at 1, gets at 1. unfold bind at 1.
  destruct (command req) eqn:Hcmd.
  2:{ (* HEAD *)
      unfold _http_callback_stream, PROCESS_HEAD_REQUEST. rewrite Hcmd.
      destruct (evcon req) as [k|]; [destruct (bevs w !! k)|]; try done;
        unfold bind, ret; simpl; by intros [= <-]. }
  destruct (evcon req) as [k|] eqn:Hk.
  2:{ unfold _http_callback_stream, PROCESS_HEAD_REQUEST. rewrite Hcmd, Hk.
      unfold bind, ret; simpl; by intros [= <-]. }
  destruct (bevs w !! k) as [b|] eqn:Hb; [done|].
  unfold ret at 1. unfold bind at 1.
  destruct (heap w !! client) as [cl0|] eqn:Hfresh.
  { unfold _http_callback_stream, PROCESS_HEAD_REQUEST. rewrite Hcmd, Hk.
    unfold bind at 1, gets at 1. by rewrite Hfresh. }
  pose proof Hinv as (Hm & Hs1 & Hs2 & Hfit & Hbl & [l Hreg] & Hcl & Hbv).
  destruct (stream_attach_effect req client k w l Hreg Hcmd Hk Hfresh)
    as (w1 & Hrun & Hreg' & Hs & He & _ & (cl & Hc & Hreq & Hni) & Hkeep & Hbevs).
  rewrite Hrun. unfold ret. simpl. intros [= <-].
  unfold server_inv. rewrite Hs, He. split_and!; try done.
  - by exists (l ++ [client]).
  - intros x clx Hx. destruct (decide (x = client)) as [->|Hxc].
    + rewrite Hc in Hx. injection Hx as <-. eexists k, _. rewrite Hbevs, lookup_insert_eq.
      rewrite Hreq. split_and!; try done.
      unfold get_bufferevent. rewrite Hb. simpl. exists []. split; [by split|]. by rewrite Hni.
    + destruct (heap w !! x) as [clx0|] eqn:Hx0.
      * destruct (Hkeep x clx0 Hxc Hx0) as (clx' & Hx' & Hr' & Hn').
        rewrite Hx in Hx'. injection Hx' as <-.
        destruct (Hcl x clx0 Hx0) as (kx & bx & Hkx & Hbx & Hargx & (parts & Hparts & Hiff)).
        exists kx, bx. rewrite Hr', Hbevs. split_and!; try done.
        -- rewrite lookup_insert_ne; [done|]. intros <-. congruence.
        -- exists parts. by rewrite Hn'.
      * exfalso. destruct Hreg as [_ Hdom], Hreg' as [_ Hdom'].
        assert (x ∈ l ++ [client]) as Hin by (apply Hdom'; by eexists).
        apply elem_of_app in Hin as [Hin|Hin%list_elem_of_singleton]; [|done].
        apply Hdom in Hin. rewrite Hx0 in Hin. by destruct Hin.
  - intros k' b'. rewrite Hbevs. destruct (decide (k' = k)) as [->|Hkk].
    + rewrite lookup_insert_eq. intros [= <-]. exists client, cl. by rewrite Hreq.
    + rewrite lookup_insert_ne by done. intros Hb'.
      destruct (Hbv k' b' Hb') as (x & clx & Hargx & Hx & Hkx).
      assert (x <> client) by congruence.
      destruct (Hkeep x clx) as (clx' & Hx' & Hr' & _); [done|done|].
      exists x, clx'. by rewrite Hr'.
Qed.

Lemma server_inv_failed k w w' :
  server_inv w ->
  exec (fire (Failed k)) w = Some w' ->
  server_inv w'.
Proof.
  intros Hinv. unfold exec, fire.
  unfold bind at 1, gets at 1. unfold bind at 1, lift.
  destruct (bevs w !! k) as [b|] eqn:Hb; [|done].
  destruct (errorcb b) as [[]|]; try done.
  destruct (cbarg b) as [c|] eqn:Harg; [|done].
  destruct (ev_read b || ev_write b); [|done].
  pose proof Hinv as (Hm & Hs1 & Hs2 & Hfit & Hbl & [l Hreg] & Hcl & Hbv).
  destruct (Hbv k b Hb) as (c' & cl & Harg' & Hc & Hk).
  rewrite Harg in Harg'. injection Harg' as <-.
  assert (c ∈ l) as (l1 & l2 & ->)%list_elem_of_split.
  { destruct Hreg as [_ Hdom]. apply Hdom. by eexists. }
  destruct (stream_error_effect c w l1 l2 Hreg)
    as (w1 & cl1 & Hc1 & Hrun & Hun & Hhead & Hs & He & _ & Hbevs).
  rewrite Hc in Hc1. injection Hc1 as <-. rewrite Hk in Hbevs.
  rewrite Hrun. simpl. intros [= <-].
  pose proof (registry_detach c w w1 cl l1 l2 Hreg Hc Hun Hhead) as Hreg'.
  destruct Hun as (Hgone & Hnone & Hkeep).
  unfold server_inv. rewrite Hs, He. split_and!; try done.
  - by exists (l1 ++ l2).
  - intros x clx' Hx'. assert (x <> c) as Hxc by congruence.
    destruct (heap w !! x) as [clx|] eqn:Hx; [|apply Hnone in Hx; congruence].
    destruct (Hkeep x clx Hxc Hx) as (clx'' & Hx'' & Hr & Hn & _).
    rewrite Hx' in Hx''. injection Hx'' as <-.
    destruct (Hcl x clx Hx) as (kx & bx & Hkx & Hbx & Hargx & (parts & Hparts & Hiff)).
    exists kx, bx. rewrite Hr, Hbevs. split_and!; try done.
    + rewrite lookup_delete_ne; [done|]. intros <-. congruence.
    + exists parts. by rewrite Hn.
  - intros k' b'. rewrite Hbevs. destruct (decide (k' = k)) as [->|Hkk].
    + by rewrite lookup_delete_eq.
    + rewrite lookup_delete_ne by done. intros Hb'.
      destruct (Hbv k' b' Hb') as (x & clx & Hargx & Hx & Hkx).
      assert (x <> c) by congruence.
      destruct (Hkeep x clx) as (clx' & Hx' & Hr' & _); [done|done|].
      exists x, clx'. by rewrite Hr'.
Qed.

Lemma reachable_server_inv w : reachable w -> server_inv w.
Proof.
  induction 1 as [stream junk w Hm Hs1 Hs2 Hinit|e w w' _ IH Hfire].
  - by eapply server_inv_init.
  - destruct e.
    + by eapply server_inv_refresh.
    + by eapply server_inv_stream_request.
    + by eapply server_inv_writable.
    + by eapply server_inv_failed.
    + by eapply server_inv_produce.
Qed.

End Inv.

(** ** Progress: the callbacks return *)

Section Progress.
Context `{blank_h}.

Lemma queue_send_stream_returns w wm :
  server_inv w ->
  heap wm = heap w -> bevs wm = bevs w -> stream_clients wm = stream_clients w ->
  exists w', _http_queue_send_stream wm = Some (tt, w').
Proof.
  intros Hinv Hh Hb Hsc.
  pose proof (server_inv_linked w Hinv) as Hl.
  destruct Hinv as (_ & _ & _ & _ & _ & [l Hreg] & _).
  apply (queue_send_stream_total wm l).
  - intros c cl Hc. rewrite Hh in Hc. rewrite Hb. by apply Hl.
  - by apply (registry_ext w).
Qed.

(** In a state of the event loop the refresh tick returns. *)
Lemma refresh_returns junk w :
  server_inv w -> exists w', exec (_http_exposed_refresh junk) w = Some w'.
Proof.
  intros Hinv. pose proof Hinv as (Hm & Hs1 & Hs2 & [Hfit1 Hfit2] & _).
  cut (exists w', _http_exposed_refresh junk w = Some (tt, w')).
  { intros [w' Hw']. exists w'. unfold exec. by rewrite Hw'. }
  unfold _http_exposed_refresh, LOCK_STREAM, UNLOCK_STREAM.
  unfold bind at 1, stream_get at 1, bind at 1, log at 1, modify at 1, gets at 1. simpl.
  destruct (updated (stream w)) eqn:Hu.
  - unfold bind at 1, bind at 1, gets at 1. simpl. rewrite Hm.
    unfold bind at 1, log at 1, modify at 1, set_mutex at 1, modify at 1. simpl.
    unfold bind at 1, stream_picture_size at 1, stream_get at 1, bind at 1, log at 1,
      modify at 1, gets at 1. simpl.
    unfold bind at 1.
    destruct (decide (0 < size (stream_picture (stream w)))) as [Hpos|Hzero].
    + unfold bind at 1. rewrite expose_new_picture_eq. simpl.
      rewrite Nat.mul_1_r. rewrite memcpy_Some.
      2:{ done. }
      2:{ rewrite grown_data_length by done. lia. }
      unfold set_updated, set_mutex, bind, log, modify. simpl.
      by apply (queue_send_stream_returns w).
    + unfold set_updated, set_mutex, bind at 1, bind at 1, bind at 1, log, modify. simpl.
      rewrite expose_blank_picture_eq. simpl.
      destruct (online (exposed w) || _).
      * rewrite Nat.mul_1_r. rewrite memcpy_Some.
        2:{ done. }
        2:{ rewrite grown_data_length by done. lia. }
        by apply (queue_send_stream_returns w).
      * by apply (queue_send_stream_returns w).
  - unfold bind at 1, exposed_get at 1, gets at 1. simpl.
    destruct (negb (online (exposed w))).
    + by apply (queue_send_stream_returns w).
    + by eexists.
Qed.

(** A bufferevent that the fan-out has armed can run its write callback. *)
Lemma writable_returns k now w b :
  server_inv w ->
  bevs w !! k = Some b ->
  writecb b = Some CB_stream_write -> ev_write b = true ->
  exists w', exec (fire (Writable k now)) w = Some w'.
Proof.
  intros Hinv Hb Hcb Hev.
  pose proof Hinv as (_ & _ & _ & [Hfit1 Hfit2] & _ & _ & _ & Hbv).
  destruct (Hbv k b Hb) as (c & cl & Harg & Hc & Hk).
  unfold exec, fire. unfold bind at 1, gets at 1. unfold bind at 1, lift.
  rewrite Hb, Hcb, Harg, Hev.
  rewrite (stream_write_effect k c now w cl Hc) by lia. by eexists.
Qed.
End Progress.

(** ** The claims on reachable states and on the exposed snapshot *)

Section Claims.
Context `{blank_h}.

(** C1.  In every reachable state, for every attached stream client:
    the bytes written to the bufferevent of its connection since it
    was attached are either nothing or the HTTP/1.0 200 OK multipart
    preamble followed by whole well-formed parts: the [Content-Length]
    of each part is the decimal numeral of the number of JPEG bytes
    that follow its headers, and its [X-Timestamp] is seconds, a dot
    and microseconds in digits, so that no header value holds a line
    break or a further header.  These bytes are the stream of one list
    of parts only.  [need_initial] is true exactly while nothing has
    been written.  And each write callback appends the preamble only if
    [need_initial] was still true, then exactly one part: its
    [Content-Length] is the exposed size as [%lu] prints it, its
    [X-Timestamp] is the clock as the callback prints it, and its JPEG
    bytes are the valid bytes of the exposed picture; it leaves
    [need_initial] false.  A write callback that the fan-out has armed
    returns. *)
Theorem stream_clients_receive_a_multipart_stream (w : world) :
  reachable w ->
  (forall c cl, heap w !! c = Some cl ->
     exists k b parts,
       evcon (request cl) = Some k
       /\ bevs w !! k = Some b
       /\ multipart_stream (output b) parts
       /\ (forall parts', multipart_stream (output b) parts' -> parts' = parts)
       /\ (need_initial cl = true <-> parts = []))
  /\ (forall k now w', exec (fire (Writable k now)) w = Some w' ->
        exists c cl cl' b b' part,
          heap w !! c = Some cl /\ evcon (request cl) = Some k /\ bevs w !! k = Some b
          /\ heap w' !! c = Some cl' /\ need_initial cl' = false
          /\ bevs w' !! k = Some b'
          /\ output b' = output b
                         ++ (if need_initial cl then spec_preamble else [])
                         ++ spec_part part
          /\ part_content_length part = fmt_lu (size (exposed_picture (exposed w)))
          /\ part_x_timestamp part = x_timestamp now
          /\ part_jpeg part
             = take (size (exposed_picture (exposed w))) (data (exposed_picture (exposed w)))
          /\ length (part_jpeg part) = size (exposed_picture (exposed w))
          /\ well_formed_part part)
  /\ (forall k now b, bevs w !! k = Some b ->
        writecb b = Some CB_stream_write -> ev_write b = true ->
        exists w', exec (fire (Writable k now)) w = Some w').
Proof.
  intros Hinv%reachable_server_inv.
  pose proof Hinv as (_ & _ & _ & Hfit & _ & _ & Hcl & Hbv).
  split; [|split; [|intros k now b; by apply writable_returns]].
  - intros c cl Hc. destruct (Hcl c cl Hc) as (k & b & Hk & Hb & _ & parts & Hparts & Hiff).
    exists k, b, parts. split_and!; try done.
    intros parts' Hparts'. by eapply multipart_stream_unique.
  - intros k now w'. unfold exec, fire.
    unfold bind at 1, gets at 1. unfold bind at 1, lift.
    destruct (bevs w !! k) as [b|] eqn:Hb; [|done].
    destruct (writecb b) as [[]|]; try done.
    destruct (cbarg b) as [c|] eqn:Harg; [|done].
    destruct (ev_write b); [|done].
    destruct (Hbv k b Hb) as (c' & cl & Harg' & Hc & Hk).
    rewrite Harg in Harg'. injection Harg' as <-.
    assert (size (exposed_picture (exposed w)) <= length (data (exposed_picture (exposed w))))
      as Hsz by (destruct Hfit; lia).
    rewrite (stream_write_effect k c now w cl Hc Hsz). simpl. intros [= <-]. simpl.
    exists c, cl, (Client (request cl) false (prev cl) (next cl)), b. eexists.
    exists (Part (fmt_lu (size (exposed_picture (exposed w)))) (x_timestamp now)
              (take (size (exposed_picture (exposed w))) (data (exposed_picture (exposed w))))).
    split_and!; try done.
    + destruct (need_initial cl) eqn:Hni; [by rewrite lookup_insert_eq|].
      rewrite Hc. f_equal. destruct cl. simpl in *. by subst.
    + by rewrite lookup_insert_eq.
    + simpl. unfold get_bufferevent. rewrite Hb. simpl.
      by rewrite stream_part_spec, stream_preamble_spec.
    + simpl. rewrite length_take. lia.
    + by apply stream_part_well_formed.
Qed.

(** C2.  On a refresh tick the event loop reads [stream.updated] once
    without holding the stream mutex.  When the flag is clear the tick
    takes no lock and does not access the frame slot again.  When it is
    set the tick takes the lock once, and every further access to the
    slot (the size, capacity and bytes of the picture, the width, the
    height, and the clearing of [updated]) happens while the mutex is
    held; the lock is released after at most one frame copy, and the
    tick ends with the mutex released.  In every reachable state the
    tick returns. *)
Theorem refresh_peeks_updated_then_locks (junk : nat -> byte) (w : world) :
  (reachable w -> exists w', exec (_http_exposed_refresh junk) w = Some w')
  /\ forall w',
       exec (_http_exposed_refresh junk) w = Some w' ->
       exists t,
         trace w' = trace w ++ E_read F_updated :: t
         /\ guarded false t = true
         /\ count is_frame_copy t <= 1
         /\ count is_lock t = (if updated (stream w) then 1 else 0)
         /\ (updated (stream w) = false -> t = [])
         /\ mutex (stream w') = mutex (stream w)
         /\ (updated (stream w) = true -> mutex (stream w') = false).
Proof.
  split; [intros Hinv%reachable_server_inv; by apply refresh_returns|].
  intros w' ([] & Hrun)%exec_Some.
  pose proof Hrun as Hrun'.
  apply refresh_effect in Hrun as (wm & t & Hq & _ & _ & _ & _ & Hmx & Ht & Hg & Hc & Hl & Hnil & _).
  assert (trace w' = trace wm /\ stream w' = stream wm) as [Htr Hst].
  { destruct Hq as [->|Hq]; [done|]. apply queue_send_stream_frame in Hq. tauto. }
  exists t. rewrite Htr, Hst. repeat (split; [done|]).
  intros Hu. rewrite Hmx.
  unfold _http_exposed_refresh, LOCK_STREAM in Hrun'.
  unfold bind at 1, stream_get at 1, bind at 1, log at 1, modify at 1, gets at 1 in Hrun'.
  simpl in Hrun'. rewrite Hu in Hrun'.
  unfold bind at 1, bind at 1, gets at 1 in Hrun'. simpl in Hrun'.
  by destruct (mutex (stream w)).
Qed.

(** C4.  Whenever [exposed.online] is false the exposed picture is the
    blank JPEG: its size is [BLANK_JPG_SIZE], its first [size] bytes
    are [BLANK_JPG_DATA], and its width and height are the blank ones.
    This holds after [http_server_init], it is preserved by
    [_expose_new_picture], by [_expose_blank_picture] and by the refresh
    tick, and it holds in every reachable state. *)
Theorem offline_snapshot_is_blank :
  (forall stream junk,
     exists w, http_server_init stream junk = Some w
       /\ online (exposed w) = false /\ is_blank (exposed w))
  /\ (forall junk w w', blank_when_offline (exposed w) ->
        exec (_expose_new_picture junk) w = Some w' -> blank_when_offline (exposed w'))
  /\ (forall junk w w', blank_when_offline (exposed w) ->
        exec (_expose_blank_picture junk) w = Some w' -> blank_when_offline (exposed w'))
  /\ (forall junk w w', blank_when_offline (exposed w) ->
        exec (_http_exposed_refresh junk) w = Some w' -> blank_when_offline (exposed w'))
  /\ (forall w, reachable w -> blank_when_offline (exposed w)).
Proof.
  split_and!.
  - intros stream junk. eexists. split; [apply server_init_eq|]. simpl. split; [done|].
    split; [done|]. split; [|done]. simpl. unfold BLANK_JPG_SIZE. apply firstn_all.
  - intros junk w w' _ ([] & Hrun)%exec_Some. rewrite expose_new_picture_eq in Hrun.
    simpl in Hrun. destruct (memcpy _ _ _); [|done]. injection Hrun as <-. by intros [=].
  - intros junk w w' Hbl ([] & Hrun)%exec_Some.
    apply expose_blank_picture_effect in Hrun. by apply Hrun.
  - intros junk w w' Hbl ([] & Hrun)%exec_Some.
    apply refresh_effect in Hrun
      as (wm & t & Hq & _ & _ & _ & _ & _ & _ & _ & _ & _ & _ & Hblm & _).
    destruct Hq as [->|Hq]; [by apply Hblm|].
    apply queue_send_stream_frame in Hq as (_ & -> & _). by apply Hblm.
  - intros w Hinv%reachable_server_inv. by destruct Hinv as (_ & _ & _ & _ & Hbl & _).
Qed.

(** C6.  [_expose_new_picture], called on a stream picture whose valid
    bytes are within its block and its capacity (and an exposed picture
    whose capacity is the length of its block), returns; it leaves the
    exposed capacity at the maximum of the old capacity and the stream
    capacity, copies exactly [stream.picture.size] bytes from the
    stream picture to the start of the exposed block and leaves the
    rest of the block alone, copies the size, the width and the height,
    sets [online], and does not touch the stream slot.  The snapshot is
    a copy of its own: what the producer publishes next does not change
    it. *)
Theorem expose_new_picture_adopts_the_frame (junk : nat -> byte) (w : world) :
  size (stream_picture (stream w)) <= length (data (stream_picture (stream w))) ->
  size (stream_picture (stream w)) <= allocated (stream_picture (stream w)) ->
  length (data (exposed_picture (exposed w))) = allocated (exposed_picture (exposed w)) ->
  exists w',
    exec (_expose_new_picture junk) w = Some w'
    /\ allocated (exposed_picture (exposed w'))
       = Nat.max (allocated (exposed_picture (exposed w))) (allocated (stream_picture (stream w)))
    /\ length (data (exposed_picture (exposed w'))) = allocated (exposed_picture (exposed w'))
    /\ size (exposed_picture (exposed w')) = size (stream_picture (stream w))
    /\ take (size (stream_picture (stream w))) (data (exposed_picture (exposed w')))
       = take (size (stream_picture (stream w))) (data (stream_picture (stream w)))
    /\ drop (size (stream_picture (stream w))) (data (exposed_picture (exposed w')))
       = drop (size (stream_picture (stream w)))
           (grown_data (exposed_picture (exposed w)) (allocated (stream_picture (stream w))) junk)
    /\ exposed_width (exposed w') = stream_width (stream w)
    /\ exposed_height (exposed w') = stream_height (stream w)
    /\ online (exposed w') = true
    /\ stream w' = stream w /\ stream_clients w' = stream_clients w
    /\ heap w' = heap w /\ bevs w' = bevs w
    /\ (forall picture width height w'',
          exec (fire (Produce picture width height)) w' = Some w'' ->
          exposed w'' = exposed w').
Proof.
  intros Hs1 Hs2 He.
  pose proof (grown_data_length (exposed_picture (exposed w))
                (allocated (stream_picture (stream w))) junk He) as Hlen.
  unfold exec. rewrite expose_new_picture_eq. simpl. rewrite Nat.mul_1_r.
  rewrite memcpy_Some by lia. simpl. eexists. split; [reflexivity|]. simpl.
  split_and!; try done.
  - rewrite length_app, length_take, length_drop. lia.
  - rewrite take_app_le by (rewrite length_take; lia). rewrite take_take. f_equal. lia.
  - rewrite drop_app_length'; [done|]. rewrite length_take. lia.
  - intros picture width height w''. unfold exec, fire, bind, gets, modify. simpl.
    destruct (mutex (stream w)); [done|]. case_decide; [|done]. by intros [= <-].
Qed.
End Claims.

Lemma refresh_peeks_updated_then_locks_witness :
  exists w' t,
    exec (@_http_exposed_refresh sample_blank sample_junk) sample_world = Some w'
    /\ trace w' = trace sample_world ++ E_read F_updated :: t
    /\ guarded false t = true.
Proof.
  assert (exists w', exec (@_http_exposed_refresh sample_blank sample_junk) sample_world = Some w')
    as [w' Hw'] by (eexists; vm_compute; reflexivity).
  destruct (@refresh_peeks_updated_then_locks sample_blank sample_junk sample_world)
    as [_ Htick].
  destruct (Htick w' Hw') as (t & Ht & Hg & _).
  by exists w', t.
Defined.

(** C2, as stated, fails: the first access of the tick to the frame
    slot is the read of [updated], before the lock is taken. *)
Lemma refresh_reads_updated_before_locking :
  exists w',
    exec (@_http_exposed_refresh sample_blank sample_junk) sample_world = Some w'
    /\ mutex (stream sample_world) = false
    /\ trace sample_world = []
    /\ trace w' = [E_read F_updated; E_lock; E_read F_picture_size;
                   E_read F_picture_allocated; E_read F_picture_allocated;
                   E_read F_picture_allocated; E_read F_picture_data;
                   E_read F_picture_size; E_memcpy_frame; E_read F_picture_size;
                   E_read F_width; E_read F_height; E_write F_updated; E_unlock]
    /\ guarded false (trace w') = false.
Proof.
  eexists. split; [vm_compute; reflexivity|]. done.
Qed.

Lemma sample_served_run : sample_run = Some sample_served.
Proof. vm_compute. reflexivity. Qed.

Lemma sample_served_reachable : @reachable sample_blank sample_served.
Proof.
  eapply (reachable_fire (Writable 11%positive sample_clock)).
  - eapply (reachable_fire (Refresh sample_junk)).
    + eapply (reachable_fire (Stream_request (sample_get (Some 11%positive)) 1%positive)).
      * eapply (reachable_init sample_stream sample_junk);
          [reflexivity | simpl; lia | simpl; lia | vm_compute; reflexivity].
      * vm_compute. reflexivity.
    + vm_compute. reflexivity.
  - vm_compute. reflexivity.
Qed.

Lemma stream_clients_receive_a_multipart_stream_witness :
  exists cl k b parts,
    heap sample_served !! 1%positive = Some cl
    /\ evcon (request cl) = Some k
    /\ bevs sample_served !! k = Some b
    /\ multipart_stream (output b) parts
    /\ (need_initial cl = true <-> parts = []).
Proof.
  destruct (@stream_clients_receive_a_multipart_stream sample_blank sample_served
              sample_served_reachable) as (Hsent & _ & _).
  assert (exists cl, heap sample_served !! 1%positive = Some cl) as [cl Hc]
    by (eexists; vm_compute; reflexivity).
  destruct (Hsent 1%positive cl Hc) as (k & b & parts & Hk & Hb & Hparts & _ & Hiff).
  exists cl, k, b, parts.
  split; [exact Hc|]. split; [exact Hk|]. split; [exact Hb|]. split; [exact Hparts|].
  exact Hiff.
Defined.

Lemma offline_snapshot_is_blank_witness :
  exists w',
    exec (@_http_exposed_refresh sample_blank sample_junk) sample_world = Some w'
    /\ @blank_when_offline sample_blank (exposed w').
Proof.
  assert (exists w', exec (@_http_exposed_refresh sample_blank sample_junk) sample_world = Some w')
    as [w' Hw'] by (eexists; vm_compute; reflexivity).
  exists w'. split; [done|].
  destruct (@offline_snapshot_is_blank sample_blank) as (_ & _ & _ & Htick & _).
  apply (Htick sample_junk sample_world w'); [|done].
  intros _. repeat split; reflexivity.
Defined.

Lemma blankify_idempotent_witness :
  exec (@blankify_times sample_blank [sample_junk; sample_junk; sample_junk]) sample_world
  = exec (@_expose_blank_picture sample_blank sample_junk) sample_world
  /\ exec (@_expose_blank_picture sample_blank sample_junk) sample_world = Some sample_world.
Proof.
  destruct (@blankify_idempotent sample_blank sample_junk sample_junk
              [sample_junk; sample_junk] sample_world) as [Hn Hid].
  split; [exact Hn|]. apply Hid; [reflexivity|]. repeat split; reflexivity.
Defined.

Lemma expose_new_picture_adopts_the_frame_witness :
  exists w',
    exec (_expose_new_picture sample_junk) sample_world = Some w'
    /\ allocated (exposed_picture (exposed w')) = 8
    /\ size (exposed_picture (exposed w')) = 6
    /\ online (exposed w') = true.
Proof.
  destruct (@expose_new_picture_adopts_the_frame sample_blank sample_junk sample_world)
    as (w' & Hrun & Ha & _ & Hs & _ & _ & _ & _ & Ho & _).
  - simpl. lia.
  - simpl. lia.
  - reflexivity.
  - exists w'. by split_and!.
Defined.

(** * Further properties of the server *)

(** ** Decimal fields of [/ping] *)

Lemma digits_cancel (s s' r r' : string) :
  all_digits s = true -> all_digits s' = true ->
  starts_non_digit r = true -> starts_non_digit r' = true ->
  (s ++ r = s' ++ r')%string -> s = s' /\ r = r'.
Proof.
  revert s'. induction s as [|c s IH]; intros [|c' s']; simpl;
    rewrite ?append_nil_l, ?append_cons.
  - done.
  - intros _ [Hc _]%andb_true_iff Hr _ Heq. subst r. simpl in Hr. by rewrite Hc in Hr.
  - intros [Hc _]%andb_true_iff _ _ Hr' Heq. subst r'. simpl in Hr'. by rewrite Hc in Hr'.
  - intros [_ Hs]%andb_true_iff [_ Hs']%andb_true_iff Hr Hr' [= -> Heq].
    destruct (IH s' Hs Hs' Hr Hr' Heq) as [-> ->]. done.
Qed.

Lemma fmt_u_inj (n m : N) : fmt_u n = fmt_u m -> n = m.
Proof.
  unfold fmt_u. intros Heq.
  assert (N.to_uint n = N.to_uint m) as Hd.
  { apply (f_equal NilEmpty.uint_of_string) in Heq. rewrite !NilEmpty.usu in Heq. congruence. }
  apply (f_equal N.of_uint) in Hd. by rewrite !DecimalN.Unsigned.of_to in Hd.
Qed.

Lemma ping_body_inj (w h w' h' : N) (o o' : bool) :
  ping_body w h o = ping_body w' h' o' -> w = w' /\ h = h' /\ o = o'.
Proof.
  unfold ping_body, DQ. rewrite !append_cons, !append_nil_l. intros Heq.
  injection Heq as Heq.
  apply digits_cancel in Heq as [Hw Heq]; try apply all_digits_string_of_uint; try done.
  injection Heq as Heq.
  apply digits_cancel in Heq as [Hh Heq]; try apply all_digits_string_of_uint; try done.
  apply fmt_u_inj in Hw, Hh. split; [done|]. split; [done|].
  by destruct o, o'.
Qed.

Section Behaviour.
Context `{blank_h}.

(** The state in which the refresh tick starts its fan-out, or ends
    when it has nothing to fan out. *)
Lemma refresh_cases junk w w' :
  _http_exposed_refresh junk w = Some (tt, w') ->
  exists wm,
    heap wm = heap w /\ bevs wm = bevs w /\ stream_clients wm = stream_clients w
    /\ (if updated (stream w) || negb (online (exposed w))
        then _http_queue_send_stream wm = Some (tt, w')
        else w' = wm)
    /\ (if updated (stream w)
        then mutex (stream w) = false
             /\ stream wm = Stream (stream_picture (stream w)) (stream_width (stream w))
                              (stream_height (stream w)) false false
             /\ (if decide (0 < size (stream_picture (stream w)))
                 then exists d,
                        memcpy (grown_data (exposed_picture (exposed w))
                                  (allocated (stream_picture (stream w))) junk)
                          (data (stream_picture (stream w)))
                          (size (stream_picture (stream w))) = Some d
                        /\ exposed wm
                           = Exposed (Picture d (size (stream_picture (stream w)))
                                        (Nat.max (allocated (exposed_picture (exposed w)))
                                           (allocated (stream_picture (stream w)))))
                               (stream_width (stream w)) (stream_height (stream w)) true
                 else exists wb,
                        _expose_blank_picture junk w = Some (tt, wb)
                        /\ exposed wm = exposed wb)
        else wm = set_trace (trace w ++ [E_read F_updated]) w).
Proof.
  unfold _http_exposed_refresh, LOCK_STREAM, UNLOCK_STREAM.
  unfold bind at 1, stream_get at 1, bind at 1, log at 1, modify at 1, gets at 1. simpl.
  destruct (updated (stream w)) eqn:Hu.
  - unfold bind at 1, bind at 1, gets at 1. simpl.
    destruct (mutex (stream w)) eqn:Hm; [done|].
    unfold bind at 1, log at 1, modify at 1, set_mutex at 1, modify at 1. simpl.
    unfold bind at 1, stream_picture_size at 1, stream_get at 1, bind at 1, log at 1,
      modify at 1, gets at 1. simpl.
    unfold bind at 1.
    destruct (decide (0 < size (stream_picture (stream w)))) as [Hpos|Hzero].
    + unfold bind at 1. rewrite expose_new_picture_eq. simpl. rewrite Nat.mul_1_r.
      destruct (memcpy _ _ _) as [d|] eqn:Hcpy; [|done].
      unfold set_updated, set_mutex, bind, log, modify. simpl.
      intros Hq. match type of Hq with _http_queue_send_stream ?wm = _ => exists wm end.
      split; [done|]. split; [done|]. split; [done|]. split; [exact Hq|].
      split; [done|]. split; [done|]. by exists d.
    + unfold set_updated, set_mutex, bind at 1, bind at 1, bind at 1, log, modify. simpl.
      rewrite expose_blank_picture_eq. simpl.
      pose proof (expose_blank_picture_eq junk w) as Heq. simpl in Heq.
      destruct (online (exposed w) || _).
      * destruct (memcpy _ _ _) as [d|] eqn:Hcpy; [|done]. simpl.
        intros Hq. match type of Hq with _http_queue_send_stream ?wm = _ => exists wm end.
        split; [done|]. split; [done|]. split; [done|]. split; [exact Hq|].
        split; [done|]. split; [done|]. eexists. split; [exact Heq|done].
      * intros Hq. match type of Hq with _http_queue_send_stream ?wm = _ => exists wm end.
        split; [done|]. split; [done|]. split; [done|]. split; [exact Hq|].
        split; [done|]. split; [done|]. eexists. split; [exact Heq|done].
  - unfold bind at 1, exposed_get at 1, gets at 1. simpl.
    intros Hq. exists (set_trace (trace w ++ [E_read F_updated]) w).
    split_and!; try done.
    destruct (negb (online (exposed w))); [done|]. unfold ret in Hq. congruence.
Qed.

(** *** The pages *)

Lemma ping_reply (request : evhttp_request) (e : exposed_t) :
  command request = EVHTTP_REQ_GET ->
  _http_callback_ping request e
  = Reply 200 "OK" (output_headers request ++ [("Content-Type", "application/json")]%string)
      (str (ping_body (exposed_width e) (exposed_height e) (online e))).
Proof. intros Hcmd. unfold _http_callback_ping, PROCESS_HEAD_REQUEST. by rewrite Hcmd. Qed.

(** X1.  A HEAD request on [/], on [/ping] or on [/snapshot] is answered
    [200 OK] with an empty body and without any header of the page:
    the reply carries only the headers the request already had. *)
Theorem head_is_answered_without_body (request : evhttp_request) (e : exposed_t)
    (now : timespec) :
  command request = EVHTTP_REQ_HEAD ->
  let r := Reply 200 "OK" (output_headers request) [] in
  _http_callback_root request = r
  /\ _http_callback_ping request e = r
  /\ _http_callback_snapshot request e now = Some r.
Proof.
  intros Hcmd.
  unfold _http_callback_root, _http_callback_ping, _http_callback_snapshot,
    PROCESS_HEAD_REQUEST.
  by rewrite Hcmd.
Qed.

(** X2.  The JSON of [/ping] tells the exposed snapshot apart: two GET
    requests get the same body exactly when the width, the height and
    the online flag of the two snapshots are the same. *)
Theorem ping_body_tells_the_snapshot (request request' : evhttp_request) (e e' : exposed_t) :
  command request = EVHTTP_REQ_GET ->
  command request' = EVHTTP_REQ_GET ->
  body (_http_callback_ping request e) = body (_http_callback_ping request' e')
  <-> exposed_width e = exposed_width e'
      /\ exposed_height e = exposed_height e'
      /\ online e = online e'.
Proof.
  intros Hcmd Hcmd'. rewrite !ping_reply by done. simpl. split.
  - intros Heq%str_inj. by apply ping_body_inj.
  - by intros (-> & -> & ->).
Qed.

(** *** What the pages show of the frames *)

Lemma offline_pages w (request : evhttp_request) (now : timespec) :
  server_inv w ->
  online (exposed w) = false ->
  command request = EVHTTP_REQ_GET ->
  (exists r, _http_callback_snapshot request (exposed w) now = Some r
             /\ body r = BLANK_JPG_DATA)
  /\ body (_http_callback_ping request (exposed w))
     = str (ping_body BLANK_JPG_WIDTH BLANK_JPG_HEIGHT false).
Proof.
  intros (_ & _ & _ & [Hf1 Hf2] & Hbl & _) Hoff Hcmd.
  destruct (Hbl Hoff) as (Hsize & Hdata & Hwd & Hht). split.
  - eexists. split; [apply snapshot_reply; [done|lia]|]. done.
  - rewrite ping_reply by done. simpl. by rewrite Hwd, Hht, Hoff.
Qed.

(** X3.  While the server is offline, in every reachable state, a GET
    on [/snapshot] is answered with the bytes of the blank JPEG and a
    GET on [/ping] reports the blank width and height and
    [online] false. *)
Theorem offline_server_shows_the_blank (w : world) (request : evhttp_request) (now : timespec) :
  reachable w ->
  online (exposed w) = false ->
  command request = EVHTTP_REQ_GET ->
  (exists r, _http_callback_snapshot request (exposed w) now = Some r
             /\ body r = BLANK_JPG_DATA)
  /\ body (_http_callback_ping request (exposed w))
     = str (ping_body BLANK_JPG_WIDTH BLANK_JPG_HEIGHT false).
Proof. intros Hinv%reachable_server_inv. by apply offline_pages. Qed.

Lemma produce_eq picture width height w :
  mutex (stream w) = false ->
  size picture <= length (data picture) -> size picture <= allocated picture ->
  exec (fire (Produce picture width height)) w
  = Some (set_stream (Stream picture width height true false) w).
Proof.
  intros Hm Hp1 Hp2. unfold exec, fire, bind, gets, modify. simpl. rewrite Hm.
  by rewrite decide_True.
Qed.

(** X4.  In every reachable state, when the producer publishes a frame
    with at least one byte (its size within its block and its
    capacity), the publication and the next tick both return; after the
    tick [updated] is cleared, the server is online, a GET on
    [/snapshot] is answered with exactly the [size] first bytes of the
    published frame, and [/ping] reports its width and height and
    [online] true. *)
Theorem published_frame_is_served (w : world) (picture : picture_t) (width height : N)
    (junk : nat -> byte) (request : evhttp_request) (now : timespec) :
  reachable w ->
  size picture <= length (data picture) -> size picture <= allocated picture ->
  0 < size picture ->
  command request = EVHTTP_REQ_GET ->
  exists w1 w2 r,
    exec (fire (Produce picture width height)) w = Some w1
    /\ exec (fire (Refresh junk)) w1 = Some w2
    /\ updated (stream w2) = false
    /\ online (exposed w2) = true
    /\ _http_callback_snapshot request (exposed w2) now = Some r
    /\ body r = take (size picture) (data picture)
    /\ length (body r) = size picture
    /\ body (_http_callback_ping request (exposed w2)) = str (ping_body width height true).
Proof.
  intros Hreach Hp1 Hp2 Hpos Hcmd.
  pose proof (reachable_server_inv w Hreach) as Hinv.
  pose proof Hinv as (Hm & _).
  pose proof (produce_eq picture width height w Hm Hp1 Hp2) as Hprod.
  pose proof (server_inv_produce _ _ _ _ _ Hinv Hprod) as Hinv1.
  destruct (refresh_returns junk _ Hinv1) as [w2 Hrun].
  pose proof Hrun as ([] & Hrun')%exec_Some.
  apply refresh_cases in Hrun' as (wm & _ & _ & _ & Hq & Hcase). simpl in Hq, Hcase.
  destruct Hcase as (_ & Hs & Hcase). rewrite decide_True in Hcase by done.
  destruct Hcase as (d & Hcpy & He).
  apply queue_send_stream_frame in Hq as (Hs2 & He2 & _).
  apply memcpy_inv in Hcpy as (Hn1 & Hn2 & Hd).
  assert (take (size picture) d = take (size picture) (data picture)) as Htake.
  { rewrite Hd, take_app_le by (rewrite length_take; lia). rewrite take_take. f_equal. lia. }
  assert (size picture <= length d) as Hlen.
  { rewrite Hd, length_app, length_take, length_drop. lia. }
  eexists _, w2, _. split; [exact Hprod|]. split; [exact Hrun|].
  rewrite Hs2, He2, Hs, He. simpl. split; [done|]. split; [done|].
  split; [by apply snapshot_reply|]. simpl. split; [done|].
  split; [rewrite length_take; lia|]. by rewrite ping_reply.
Qed.

(** X5.  In every reachable state, when the producer publishes a frame
    of size 0, the publication and the next tick both return; after the
    tick [updated] is cleared, the server is offline, [/snapshot]
    serves the blank JPEG and [/ping] reports the blank width and
    height and [online] false. *)
Theorem empty_frame_takes_the_server_offline (w : world) (picture : picture_t)
    (width height : N) (junk : nat -> byte) (request : evhttp_request) (now : timespec) :
  reachable w ->
  size picture = 0 ->
  command request = EVHTTP_REQ_GET ->
  exists w1 w2 r,
    exec (fire (Produce picture width height)) w = Some w1
    /\ exec (fire (Refresh junk)) w1 = Some w2
    /\ updated (stream w2) = false
    /\ online (exposed w2) = false
    /\ _http_callback_snapshot request (exposed w2) now = Some r
    /\ body r = BLANK_JPG_DATA
    /\ body (_http_callback_ping request (exposed w2))
       = str (ping_body BLANK_JPG_WIDTH BLANK_JPG_HEIGHT false).
Proof.
  intros Hreach Hz Hcmd.
  pose proof (reachable_server_inv w Hreach) as Hinv.
  pose proof Hinv as (Hm & _).
  assert (exec (fire (Produce picture width height)) w
          = Some (set_stream (Stream picture width height true false) w)) as Hprod
    by (apply produce_eq; [done|lia|lia]).
  pose proof (server_inv_produce _ _ _ _ _ Hinv Hprod) as Hinv1.
  destruct (refresh_returns junk _ Hinv1) as [w2 Hrun].
  pose proof (server_inv_refresh _ _ _ Hinv1 Hrun) as Hinv2.
  pose proof Hrun as ([] & Hrun')%exec_Some.
  apply refresh_cases in Hrun' as (wm & _ & _ & _ & Hq & Hcase). simpl in Hq, Hcase.
  destruct Hcase as (_ & Hs & Hcase). rewrite decide_False in Hcase by lia.
  destruct Hcase as (wb & Hb & He).
  apply queue_send_stream_frame in Hq as (Hs2 & He2 & _).
  assert (online (exposed w2) = false) as Hoff.
  { rewrite He2, He. rewrite expose_blank_picture_eq in Hb. simpl in Hb.
    destruct (online (exposed w) || _) eqn:Hg.
    - destruct (memcpy _ _ _); [|done]. by injection Hb as <-.
    - injection Hb as <-. simpl. by apply orb_false_iff in Hg as [-> _]. }
  destruct (offline_pages w2 request now Hinv2 Hoff Hcmd) as [(r & Hr & Hbody) Hping].
  eexists _, w2, r. split; [exact Hprod|]. split; [exact Hrun|].
  rewrite Hs2, Hs. by split_and!.
Qed.

(** *** The fan-out arms every client *)

Lemma queue_send_from_other (k : evhttp_connection) l fuel p cur lst w w' :
  dseg (heap w) p cur l lst None ->
  (forall c cl, c ∈ l -> heap w !! c = Some cl -> evcon (request cl) <> Some k) ->
  queue_send_from fuel cur w = Some (tt, w') ->
  bevs w' !! k = bevs w !! k.
Proof.
  revert fuel p cur w. induction l as [|c l IH]; intros fuel p cur w; simpl.
  - intros [-> _] _. rewrite queue_send_from_unfold. by intros [= <-].
  - intros (-> & cl & Hc & _ & Hd) Hother. rewrite queue_send_from_unfold.
    destruct fuel as [|fuel]; [done|].
    unfold bind at 1, deref at 1, lift. rewrite Hc. unfold bind at 1.
    assert (evcon (request cl) <> Some k) as Hk by (apply (Hother c); [by left|done]).
    destruct (evcon (request cl)) as [k0|] eqn:Hk0.
    + unfold bind at 1, bufferevent_setcb, bufferevent_enable, modify. simpl.
      unfold bind at 1, deref at 1, lift. simpl. rewrite Hc. intros Hrest.
      eapply IH in Hrest; [|exact Hd|].
      * rewrite Hrest. simpl. rewrite !lookup_insert_ne; [done|congruence|congruence].
      * intros c' cl' Hc'. simpl. apply Hother. by right.
    + unfold ret at 1. unfold bind at 1, deref at 1, lift. rewrite Hc. intros Hrest.
      eapply IH in Hrest; [done|exact Hd|].
      intros c' cl' Hc'. apply Hother. by right.
Qed.

Lemma queue_send_from_arms l fuel p cur lst w w' :
  dseg (heap w) p cur l lst None ->
  NoDup l ->
  (forall c1 c2 cl1 cl2, heap w !! c1 = Some cl1 -> heap w !! c2 = Some cl2 ->
     is_Some (evcon (request cl1)) -> evcon (request cl1) = evcon (request cl2) -> c1 = c2) ->
  queue_send_from fuel cur w = Some (tt, w') ->
  forall c cl k, c ∈ l -> heap w !! c = Some cl -> evcon (request cl) = Some k ->
    exists b', bevs w' !! k = Some b' /\ armed c b'
               /\ output b' = output (get_bufferevent k w).
Proof.
  revert fuel p cur w. induction l as [|c0 l IH]; intros fuel p cur w; simpl.
  - intros _ _ _ _ c cl k Hin. by apply elem_of_nil in Hin.
  - intros (-> & cl0 & Hc0 & _ & Hd) [Hc0l Hnd]%NoDup_cons Hinj.
    rewrite queue_send_from_unfold. destruct fuel as [|fuel]; [done|].
    unfold bind at 1, deref at 1, lift. rewrite Hc0. unfold bind at 1.
    destruct (evcon (request cl0)) as [k0|] eqn:Hk0.
    + unfold bind at 1, bufferevent_setcb, bufferevent_enable, modify. simpl.
      unfold bind at 1, deref at 1, lift. simpl. rewrite Hc0. intros Hrest c cl k Hin Hc Hk.
      apply elem_of_cons in Hin as [->|Hin].
      * rewrite Hc0 in Hc. injection Hc as <-. rewrite Hk0 in Hk. injection Hk as <-.
        eapply (queue_send_from_other k0) in Hrest; [|exact Hd|].
        -- rewrite Hrest. simpl. rewrite lookup_insert_eq. eexists. split; [done|].
           unfold get_bufferevent. simpl. rewrite lookup_insert_eq. simpl.
           by rewrite !orb_true_r.
        -- intros c' cl' Hc'l Hc' Hk'. simpl in Hc'.
           assert (c0 = c') as <-; [|done].
           apply (Hinj c0 c' cl0 cl'); [done|done|by rewrite Hk0|congruence].
      * assert (k0 <> k) as Hne.
        { intros ->. assert (c0 = c) as <-; [|done].
          apply (Hinj c0 c cl0 cl); [done|done|by rewrite Hk0|congruence]. }
        eapply IH in Hrest as (b' & Hb' & Harmed & Hout); [|exact Hd|done|exact Hinj|exact Hin|exact Hc|exact Hk].
        exists b'. split; [done|]. split; [done|]. rewrite Hout.
        unfold get_bufferevent. simpl. by rewrite !lookup_insert_ne.
    + unfold ret at 1. unfold bind at 1, deref at 1, lift. rewrite Hc0.
      intros Hrest c cl k Hin Hc Hk.
      apply elem_of_cons in Hin as [->|Hin]; [congruence|].
      by eapply IH.
Qed.

Lemma server_inv_connections w c1 c2 cl1 cl2 :
  server_inv w ->
  heap w !! c1 = Some cl1 -> heap w !! c2 = Some cl2 ->
  evcon (request cl1) = evcon (request cl2) -> c1 = c2.
Proof.
  intros (_ & _ & _ & _ & _ & _ & Hcl & _) Hc1 Hc2 Heq.
  destruct (Hcl c1 cl1 Hc1) as (k1 & b1 & Hk1 & Hb1 & Ha1 & _).
  destruct (Hcl c2 cl2 Hc2) as (k2 & b2 & Hk2 & Hb2 & Ha2 & _).
  congruence.
Qed.

Lemma fanout_arms w wm w' :
  server_inv w ->
  heap wm = heap w -> bevs wm = bevs w -> stream_clients wm = stream_clients w ->
  _http_queue_send_stream wm = Some (tt, w') ->
  forall c cl k, heap w !! c = Some cl -> evcon (request cl) = Some k ->
    exists b b', bevs w !! k = Some b /\ bevs w' !! k = Some b' /\ armed c b'
                 /\ output b' = output b.
Proof.
  intros Hinv Hh Hb Hsc Hq c cl k Hc Hk.
  pose proof Hinv as (_ & _ & _ & _ & _ & [l Hreg] & Hcl & _).
  pose proof (registry_NoDup _ _ Hreg) as Hnd.
  destruct Hreg as [[lst Hd] Hdom].
  unfold _http_queue_send_stream, bind, gets in Hq.
  destruct (Hcl c cl Hc) as (k0 & b & Hk0 & Hbk & _).
  rewrite Hk in Hk0. injection Hk0 as <-.
  eapply (queue_send_from_arms l) in Hq as (b' & Hb' & Harmed & Hout).
  - exists b, b'. split; [done|]. split; [done|]. split; [done|].
    rewrite Hout. unfold get_bufferevent. by rewrite Hb, Hbk.
  - rewrite Hh, Hsc. exact Hd.
  - done.
  - rewrite Hh. intros c1 c2 cl1 cl2 Hc1 Hc2 _ Heq. by eapply server_inv_connections.
  - apply Hdom. by eexists.
  - by rewrite Hh.
  - done.
Qed.

(** X6.  A tick that finds a new frame, or finds the server offline,
    reaches every attached client: it leaves the bytes already written
    to the client's bufferevent alone, sets
    [_http_callback_stream_write] and [_http_callback_stream_error]
    with the client as argument and enables read and write events; and
    the write callback then returns, having appended the preamble (only
    if the client has not been written to yet) and one part that holds
    the valid bytes of the snapshot exposed by the tick. *)
Theorem tick_delivers_the_snapshot_to_every_client (w w' : world) (junk : nat -> byte) :
  reachable w ->
  updated (stream w) = true \/ online (exposed w) = false ->
  exec (fire (Refresh junk)) w = Some w' ->
  forall c cl k, heap w !! c = Some cl -> evcon (request cl) = Some k ->
    exists b b',
      bevs w !! k = Some b /\ bevs w' !! k = Some b' /\ armed c b' /\ output b' = output b
      /\ forall now, exists w'' b'',
           exec (fire (Writable k now)) w' = Some w''
           /\ bevs w'' !! k = Some b''
           /\ output b''
              = output b
                ++ (if need_initial cl then spec_preamble else [])
                ++ spec_part (Part (fmt_lu (size (exposed_picture (exposed w'))))
                                (x_timestamp now)
                                (take (size (exposed_picture (exposed w')))
                                   (data (exposed_picture (exposed w'))))).
Proof.
  intros Hreach Hwhy Hrun c cl k Hc Hk.
  pose proof (reachable_server_inv w Hreach) as Hinv.
  pose proof (server_inv_refresh junk w w' Hinv Hrun) as Hinv'.
  pose proof Hrun as ([] & Hrun')%exec_Some.
  apply refresh_cases in Hrun' as (wm & Hh & Hb & Hsc & Hq & _).
  assert (updated (stream w) || negb (online (exposed w)) = true) as Hgo.
  { destruct Hwhy as [->| ->]; [done|by rewrite orb_true_r]. }
  rewrite Hgo in Hq.
  pose proof Hq as (_ & _ & _ & Hh' & _)%queue_send_stream_frame.
  destruct (fanout_arms w wm w' Hinv Hh Hb Hsc Hq c cl k Hc Hk)
    as (b & b' & Hbk & Hbk' & Harmed & Hout).
  exists b, b'. split_and!; try done.
  intros now. pose proof Harmed as (_ & Hwcb & _ & Harg & _ & Hevw).
  assert (heap w' !! c = Some cl) as Hc' by (by rewrite Hh', Hh).
  pose proof Hinv' as (_ & _ & _ & [Hf1 Hf2] & _).
  unfold exec, fire. unfold bind at 1, gets at 1. unfold bind at 1, lift.
  rewrite Hbk', Hwcb, Harg, Hevw.
  rewrite (stream_write_effect k c now w' cl Hc') by lia. simpl.
  eexists _, _. split; [reflexivity|]. simpl. rewrite lookup_insert_eq.
  split; [reflexivity|]. simpl. unfold get_bufferevent. rewrite Hbk'. simpl.
  by rewrite Hout, stream_part_spec, stream_preamble_spec.
Qed.

(** *** Ticks without a new frame *)

(** X7.  After a tick that has left the server online, a second tick
    with no publication in between only reads [updated]: it takes no
    lock, copies nothing, arms no bufferevent and leaves the server as
    it is. *)
Theorem tick_is_idle_while_online (w w1 : world) (junk junk' : nat -> byte) :
  exec (_http_exposed_refresh junk) w = Some w1 ->
  online (exposed w1) = true ->
  exec (_http_exposed_refresh junk') w1
  = Some (set_trace (trace w1 ++ [E_read F_updated]) w1).
Proof.
  intros ([] & Hrun)%exec_Some Hon.
  assert (updated (stream w1) = false) as Hu.
  { apply refresh_cases in Hrun as (wm & _ & _ & _ & Hq & Hcase).
    assert (stream w1 = stream wm) as ->.
    { destruct (updated (stream w) || negb (online (exposed w))); [|by subst].
      by apply queue_send_stream_frame in Hq as (? & _). }
    destruct (updated (stream w)) eqn:Hu.
    - destruct Hcase as (_ & -> & _). done.
    - by subst wm. }
  unfold exec, _http_exposed_refresh.
  unfold bind at 1, stream_get at 1, bind at 1, log at 1, modify at 1, gets at 1. simpl.
  rewrite Hu. unfold bind, exposed_get, gets. simpl. by rewrite Hon.
Qed.

(** *** What an event leaves alone *)

Lemma refresh_frame junk w w' :
  exec (_http_exposed_refresh junk) w = Some w' ->
  stream_picture (stream w') = stream_picture (stream w)
  /\ stream_width (stream w') = stream_width (stream w)
  /\ stream_height (stream w') = stream_height (stream w)
  /\ updated (stream w') = false
  /\ allocated (exposed_picture (exposed w)) <= allocated (exposed_picture (exposed w'))
  /\ heap w' = heap w /\ stream_clients w' = stream_clients w.
Proof.
  intros ([] & Hrun)%exec_Some.
  apply refresh_cases in Hrun as (wm & Hh & _ & Hsc & Hq & Hcase).
  assert (stream w' = stream wm /\ exposed w' = exposed wm /\ heap w' = heap wm
          /\ stream_clients w' = stream_clients wm) as (-> & -> & -> & ->).
  { destruct (updated (stream w) || negb (online (exposed w))); [|by subst].
    apply queue_send_stream_frame in Hq. tauto. }
  destruct (updated (stream w)) eqn:Hu.
  - destruct Hcase as (_ & -> & Hcase). simpl. split_and!; try done.
    case_decide.
    + destruct Hcase as (d & _ & ->). simpl. lia.
    + destruct Hcase as (wb & Hb & ->). rewrite expose_blank_picture_eq in Hb. simpl in Hb.
      destruct (online (exposed w) || _).
      * destruct (memcpy _ _ _); [|done]. injection Hb as <-. simpl. lia.
      * by injection Hb as <-.
  - subst wm. simpl. by split_and!.
Qed.

Lemma fire_frame e w w' :
  server_inv w ->
  exec (fire e) w = Some w' ->
  match e with
  | Refresh _ => True
  | Produce _ _ _ => exposed w' = exposed w
  | _ => exposed w' = exposed w /\ stream w' = stream w
  end.
Proof.
  intros Hinv. pose proof Hinv as (Hm & _ & _ & Hfit & _ & [l Hreg] & Hcl & Hbv).
  destruct e as [junk|req client|k now|k|picture width height]; [done|..].
  - unfold exec, fire. unfold bind at 1, gets at 1. unfold bind at 1.
    destruct (command req) eqn:Hcmd.
    2:{ unfold _http_callback_stream, PROCESS_HEAD_REQUEST. rewrite Hcmd.
        destruct (evcon req) as [k|]; [destruct (bevs w !! k)|]; try done;
          unfold bind, ret; simpl; by intros [= <-]. }
    destruct (evcon req) as [k|] eqn:Hk.
    2:{ unfold _http_callback_stream, PROCESS_HEAD_REQUEST. rewrite Hcmd, Hk.
        unfold bind, ret; simpl; by intros [= <-]. }
    destruct (bevs w !! k) as [b|] eqn:Hb; [done|].
    unfold ret at 1. unfold bind at 1.
    destruct (heap w !! client) as [cl0|] eqn:Hfresh.
    { unfold _http_callback_stream, PROCESS_HEAD_REQUEST. rewrite Hcmd, Hk.
      unfold bind at 1, gets at 1. by rewrite Hfresh. }
    destruct (stream_attach_effect req client k w l Hreg Hcmd Hk Hfresh)
      as (w1 & Hrun & _ & Hs & He & _).
    rewrite Hrun. unfold ret. simpl. by intros [= <-].
  - unfold exec, fire. unfold bind at 1, gets at 1. unfold bind at 1, lift.
    destruct (bevs w !! k) as [b|] eqn:Hb; [|done].
    destruct (writecb b) as [[]|]; try done.
    destruct (cbarg b) as [c|] eqn:Harg; [|done].
    destruct (ev_write b); [|done].
    destruct (Hbv k b Hb) as (c' & cl & Harg' & Hc & Hk).
    rewrite Harg in Harg'. injection Harg' as <-.
    rewrite (stream_write_effect k c now w cl Hc) by (destruct Hfit; lia).
    simpl. by intros [= <-].
  - unfold exec, fire. unfold bind at 1, gets at 1. unfold bind at 1, lift.
    destruct (bevs w !! k) as [b|] eqn:Hb; [|done].
    destruct (errorcb b) as [[]|]; try done.
    destruct (cbarg b) as [c|] eqn:Harg; [|done].
    destruct (ev_read b || ev_write b); [|done].
    destruct (Hbv k b Hb) as (c' & cl & Harg' & Hc & Hk).
    rewrite Harg in Harg'. injection Harg' as <-.
    assert (c ∈ l) as (l1 & l2 & ->)%list_elem_of_split.
    { destruct Hreg as [_ Hdom]. apply Hdom. by eexists. }
    destruct (stream_error_effect c w l1 l2 Hreg)
      as (w1 & cl1 & Hc1 & Hrun & _ & _ & Hs & He & _).
    rewrite Hrun. simpl. by intros [= <-].
  - unfold exec, fire, bind, gets, modify. simpl. rewrite Hm.
    case_decide; [|done]. simpl. by intros [= <-].
Qed.

(** X9.  In every reachable state, no event other than a publication by
    the producer changes the producer's picture, width or height; such
    an event can clear [updated] but never set it, and it leaves the
    mutex released. *)
Theorem server_never_writes_the_producers_frame (w w' : world) (e : loop_event) :
  reachable w ->
  (forall picture width height, e <> Produce picture width height) ->
  exec (fire e) w = Some w' ->
  stream_picture (stream w') = stream_picture (stream w)
  /\ stream_width (stream w') = stream_width (stream w)
  /\ stream_height (stream w') = stream_height (stream w)
  /\ (updated (stream w') = true -> updated (stream w) = true)
  /\ mutex (stream w') = false.
Proof.
  intros Hreach Hnp Hrun.
  pose proof (reachable_server_inv w Hreach) as Hinv.
  assert (mutex (stream w') = false) as Hm'.
  { assert (reachable w') as Hr' by (by eapply reachable_fire).
    by apply reachable_server_inv in Hr' as (? & _). }
  pose proof (fire_frame e w w' Hinv Hrun) as Hf.
  destruct e as [junk|req client|k now|k|picture width height].
  - apply refresh_frame in Hrun as (? & ? & ? & Hu & _). split_and!; try done. congruence.
  - destruct Hf as [_ Hs]. rewrite Hs in *. by repeat split.
  - destruct Hf as [_ Hs]. rewrite Hs in *. by repeat split.
  - destruct Hf as [_ Hs]. rewrite Hs in *. by repeat split.
  - by destruct (Hnp picture width height).
Qed.

(** X10.  Along every run from a reachable state the capacity of the
    exposed picture never decreases, and at the end of the run it is
    the length of the exposed block and bounds the exposed size. *)
Theorem exposed_capacity_never_shrinks (w w' : world) (es : list loop_event) :
  reachable w ->
  run es w = Some w' ->
  allocated (exposed_picture (exposed w)) <= allocated (exposed_picture (exposed w'))
  /\ length (data (exposed_picture (exposed w'))) = allocated (exposed_picture (exposed w'))
  /\ size (exposed_picture (exposed w')) <= allocated (exposed_picture (exposed w')).
Proof.
  revert w. induction es as [|e es IH]; intros w Hreach; simpl.
  - intros [= <-]. apply reachable_server_inv in Hreach as (_ & _ & _ & [? ?] & _).
    by split_and!.
  - destruct (exec (fire e) w) as [w1|] eqn:Hstep; [|done]. intros Hrest.
    assert (reachable w1) as Hreach1 by (by eapply reachable_fire).
    destruct (IH w1 Hreach1 Hrest) as (Hle & Hfit).
    split; [|done]. etransitivity; [|exact Hle].
    pose proof (fire_frame e w w1 (reachable_server_inv w Hreach) Hstep) as Hf.
    destruct e as [junk|req client|k now|k|picture width height].
    + by apply refresh_frame in Hstep as (_ & _ & _ & _ & ? & _).
    + by destruct Hf as [-> _].
    + by destruct Hf as [-> _].
    + by destruct Hf as [-> _].
    + by rewrite Hf.
Qed.

(** *** One client at a time *)

(** X8.  In every reachable state, a write callback that returns has
    served one client once: the write callback of its bufferevent is
    cleared, so that no second write happens before the next fan-out;
    no other bufferevent and no client of another connection changes;
    the frame slot, the snapshot and the head of the registry are the
    same, and the registry holds the same clients in the same order. *)
Theorem write_callback_serves_one_client_once (w w' : world) (k : evhttp_connection)
    (now : timespec) :
  reachable w ->
  exec (fire (Writable k now)) w = Some w' ->
  (exists b', bevs w' !! k = Some b' /\ writecb b' = None
              /\ errorcb b' = Some CB_stream_error /\ ev_read b' = true)
  /\ (forall now', exec (fire (Writable k now')) w' = None)
  /\ (forall k', k' <> k -> bevs w' !! k' = bevs w !! k')
  /\ (forall c cl, heap w !! c = Some cl -> evcon (request cl) <> Some k ->
        heap w' !! c = Some cl)
  /\ stream w' = stream w /\ exposed w' = exposed w
  /\ stream_clients w' = stream_clients w
  /\ (forall l, registry w l -> registry w' l).
Proof.
  intros Hinv%reachable_server_inv. unfold exec at 1, fire at 1.
  unfold bind at 1, gets at 1. unfold bind at 1, lift.
  destruct (bevs w !! k) as [b|] eqn:Hb; [|done].
  destruct (writecb b) as [[]|]; try done.
  destruct (cbarg b) as [c|] eqn:Harg; [|done].
  destruct (ev_write b); [|done].
  pose proof Hinv as (_ & _ & _ & Hfit & _ & _ & Hcl & Hbv).
  destruct (Hbv k b Hb) as (c' & cl & Harg' & Hc & Hk).
  rewrite Harg in Harg'. injection Harg' as <-.
  rewrite (stream_write_effect k c now w cl Hc) by (destruct Hfit; lia).
  simpl. intros [= <-]. simpl.
  set (cl' := Client (request cl) false (prev cl) (next cl)).
  assert ((if need_initial cl then <[c:=cl']> (heap w) else heap w) = <[c:=cl']> (heap w)) as ->.
  { destruct (need_initial cl) eqn:Hni; [done|]. symmetry. apply insert_id.
    rewrite Hc. f_equal. unfold cl'. destruct cl. simpl in *. by subst. }
  split_and!; try done.
  - eexists. rewrite lookup_insert_eq. done.
  - intros now'. unfold exec, fire, bind, gets, lift. simpl. by rewrite lookup_insert_eq.
  - intros k' Hk'. by rewrite lookup_insert_ne.
  - intros x clx Hx Hkx. rewrite lookup_insert_ne; [done|]. intros <-. congruence.
  - intros l Hreg. by eapply (registry_update w _ l c cl cl').
Qed.

(** X11.  In every reachable state, when the error callback of a
    connection returns, the client of that connection is freed and its
    bufferevent is gone with the connection: neither the write nor the
    error callback can be called on it again, no remaining bufferevent
    carries the freed client as its callback argument, and the heap
    holds one client less. *)
Theorem failed_connection_is_never_served_again (w w' : world) (k : evhttp_connection) :
  reachable w ->
  exec (fire (Failed k)) w = Some w' ->
  exists c cl,
    heap w !! c = Some cl /\ evcon (request cl) = Some k
    /\ heap w' !! c = None
    /\ bevs w' !! k = None
    /\ (forall now, exec (fire (Writable k now)) w' = None)
    /\ exec (fire (Failed k)) w' = None
    /\ (forall k' b', bevs w' !! k' = Some b' -> cbarg b' <> Some c)
    /\ base.size (heap w') + 1 = base.size (heap w).
Proof.
  intros Hreach Hrun.
  pose proof (reachable_server_inv w Hreach) as Hinv.
  assert (server_inv w') as Hinv'.
  { apply reachable_server_inv. by eapply reachable_fire. }
  revert Hrun. unfold exec at 1, fire at 1.
  unfold bind at 1, gets at 1. unfold bind at 1, lift.
  destruct (bevs w !! k) as [b|] eqn:Hb; [|done].
  destruct (errorcb b) as [[]|]; try done.
  destruct (cbarg b) as [c|] eqn:Harg; [|done].
  destruct (ev_read b || ev_write b); [|done].
  pose proof Hinv as (_ & _ & _ & _ & _ & [l Hreg] & Hcl & Hbv).
  destruct (Hbv k b Hb) as (c' & cl & Harg' & Hc & Hk).
  rewrite Harg in Harg'. injection Harg' as <-.
  assert (c ∈ l) as (l1 & l2 & ->)%list_elem_of_split.
  { destruct Hreg as [_ Hdom]. apply Hdom. by eexists. }
  destruct (stream_error_effect c w l1 l2 Hreg)
    as (w1 & cl1 & Hc1 & Hrun & Hun & Hhead & _ & _ & _ & Hbevs).
  rewrite Hc in Hc1. injection Hc1 as <-. rewrite Hk in Hbevs.
  rewrite Hrun. simpl. intros [= <-].
  pose proof (registry_detach c w w1 cl l1 l2 Hreg Hc Hun Hhead) as Hreg'.
  destruct Hun as (Hgone & _).
  assert (bevs w1 !! k = None) as Hbk by (by rewrite Hbevs, lookup_delete_eq).
  exists c, cl. split_and!; try done.
  - intros now. unfold exec, fire, bind, gets, lift. by rewrite Hbk.
  - unfold exec, fire, bind, gets, lift. by rewrite Hbk.
  - intros k' b' Hb' Harg'.
    destruct Hinv' as (_ & _ & _ & _ & _ & _ & _ & Hbv').
    destruct (Hbv' k' b' Hb') as (x & clx & Hargx & Hx & _). congruence.
  - rewrite <- (registry_length _ _ Hreg), <- (registry_length _ _ Hreg').
    rewrite !length_app. simpl. lia.
Qed.

(** *** The registry and the connections *)

Lemma queue_send_from_wired fuel cur w w' :
  (forall k b, bevs w !! k = Some b -> wired b) ->
  queue_send_from fuel cur w = Some (tt, w') ->
  forall k b, bevs w' !! k = Some b -> wired b.
Proof.
  revert cur w. induction fuel as [|fuel IH]; intros cur w Hw; rewrite queue_send_from_unfold.
  - destruct cur; [done|]. by intros [= <-].
  - destruct cur as [c|]; [|by intros [= <-]].
    unfold bind at 1, deref at 1, lift. destruct (heap w !! c) as [cl|] eqn:Hc; [|done].
    unfold bind at 1.
    destruct (evcon (request cl)) as [k0|].
    + unfold bind at 1, bufferevent_setcb, bufferevent_enable, modify. simpl.
      unfold bind at 1, deref at 1, lift. simpl. rewrite Hc. apply IH. simpl.
      intros k b. destruct (decide (k = k0)) as [->|Hne].
      * rewrite lookup_insert_eq. intros [= <-]. unfold wired, get_bufferevent. simpl.
        rewrite lookup_insert_eq. simpl. by rewrite !orb_true_r.
      * rewrite !lookup_insert_ne by done. apply Hw.
    + unfold ret at 1. unfold bind at 1, deref at 1, lift. rewrite Hc. by apply IH.
Qed.

Lemma refresh_wired junk w w' :
  (forall k b, bevs w !! k = Some b -> wired b) ->
  exec (_http_exposed_refresh junk) w = Some w' ->
  forall k b, bevs w' !! k = Some b -> wired b.
Proof.
  intros Hw ([] & Hrun)%exec_Some.
  apply refresh_cases in Hrun as (wm & _ & Hb & _ & Hq & Hcase).
  destruct (updated (stream w) || negb (online (exposed w))).
  - unfold _http_queue_send_stream, bind, gets in Hq.
    eapply queue_send_from_wired; [|exact Hq]. by rewrite Hb.
  - subst w'. by rewrite Hb.
Qed.

(** How an event other than the tick changes the bufferevents. *)
Lemma fire_bevs e w w' :
  server_inv w ->
  exec (fire e) w = Some w' ->
  (forall junk, e <> Refresh junk) ->
  bevs w' = bevs w
  \/ (exists k c ew out,
        bevs w' = <[k := Bufferevent None None (Some CB_stream_error) (Some c) true ew out]>
                    (bevs w))
  \/ (exists k, bevs w' = delete k (bevs w)).
Proof.
  intros Hinv. pose proof Hinv as (Hm & _ & _ & Hfit & _ & [l Hreg] & Hcl & Hbv).
  destruct e as [junk|req client|k now|k|picture width height].
  - intros _ Hnr. by destruct (Hnr junk).
  - intros Hrun _. revert Hrun. unfold exec, fire. unfold bind at 1, gets at 1. unfold bind at 1.
    destruct (command req) eqn:Hcmd.
    2:{ unfold _http_callback_stream, PROCESS_HEAD_REQUEST. rewrite Hcmd.
        destruct (evcon req) as [k|]; [destruct (bevs w !! k)|]; try done;
          unfold bind, ret; simpl; intros [= <-]; by left. }
    destruct (evcon req) as [k|] eqn:Hk.
    2:{ unfold _http_callback_stream, PROCESS_HEAD_REQUEST. rewrite Hcmd, Hk.
        unfold bind, ret; simpl; intros [= <-]; by left. }
    destruct (bevs w !! k) as [b|] eqn:Hb; [done|].
    unfold ret at 1. unfold bind at 1.
    destruct (heap w !! client) as [cl0|] eqn:Hfresh.
    { unfold _http_callback_stream, PROCESS_HEAD_REQUEST. rewrite Hcmd, Hk.
      unfold bind at 1, gets at 1. by rewrite Hfresh. }
    destruct (stream_attach_effect req client k w l Hreg Hcmd Hk Hfresh)
      as (w1 & Hrun & _ & _ & _ & _ & _ & _ & Hbevs).
    rewrite Hrun. unfold ret. simpl. intros [= <-]. right. left. by eexists _, _, _, _.
  - intros Hrun _. revert Hrun.
    unfold exec, fire. unfold bind at 1, gets at 1. unfold bind at 1, lift.
    destruct (bevs w !! k) as [b|] eqn:Hb; [|done].
    destruct (writecb b) as [[]|]; try done.
    destruct (cbarg b) as [c|] eqn:Harg; [|done].
    destruct (ev_write b); [|done].
    destruct (Hbv k b Hb) as (c' & cl & Harg' & Hc & Hk).
    rewrite Harg in Harg'. injection Harg' as <-.
    rewrite (stream_write_effect k c now w cl Hc) by (destruct Hfit; lia).
    simpl. intros [= <-]. right. left. by eexists _, _, _, _.
  - intros Hrun _. revert Hrun.
    unfold exec, fire. unfold bind at 1, gets at 1. unfold bind at 1, lift.
    destruct (bevs w !! k) as [b|] eqn:Hb; [|done].
    destruct (errorcb b) as [[]|]; try done.
    destruct (cbarg b) as [c|] eqn:Harg; [|done].
    destruct (ev_read b || ev_write b); [|done].
    destruct (Hbv k b Hb) as (c' & cl & Harg' & Hc & Hk).
    rewrite Harg in Harg'. injection Harg' as <-.
    assert (c ∈ l) as (l1 & l2 & ->)%list_elem_of_split.
    { destruct Hreg as [_ Hdom]. apply Hdom. by eexists. }
    destruct (stream_error_effect c w l1 l2 Hreg)
      as (w1 & cl1 & Hc1 & Hrun & _ & _ & _ & _ & _ & Hbevs).
    rewrite Hc in Hc1. injection Hc1 as <-. rewrite Hk in Hbevs.
    rewrite Hrun. simpl. intros [= <-]. right. right. by exists k.
  - intros Hrun _. revert Hrun. unfold exec, fire, bind, gets, modify. simpl. rewrite Hm.
    case_decide; [|done]. simpl. intros [= <-]. by left.
Qed.

Lemma reachable_wired w :
  reachable w -> forall k b, bevs w !! k = Some b -> wired b.
Proof.
  induction 1 as [stream junk w Hm Hs1 Hs2 Hinit|e w w' Hreach IH Hfire].
  - rewrite server_init_eq in Hinit. injection Hinit as <-. simpl. intros k b.
    by rewrite lookup_empty.
  - assert ((exists junk, e = Refresh junk) \/ forall junk, e <> Refresh junk)
      as [[junk ->]|Hnr].
    { destruct e; try (by right); left; by eexists. }
    + by eapply refresh_wired.
    + destruct (fire_bevs e w w' (reachable_server_inv w Hreach) Hfire Hnr)
        as [->|[(k0 & c & ew & out & ->)|(k0 & ->)]].
      * done.
      * intros k b. destruct (decide (k = k0)) as [->|Hne].
        -- rewrite lookup_insert_eq. by intros [= <-].
        -- rewrite lookup_insert_ne by done. apply IH.
      * intros k b. destruct (decide (k = k0)) as [->|Hne].
        -- by rewrite lookup_delete_eq.
        -- rewrite lookup_delete_ne by done. apply IH.
Qed.

(** X13.  In every reachable state the registry is a list without
    repetition of exactly the allocated clients; every client is on a
    connection whose bufferevent carries it as callback argument, has
    no read callback, reports errors to [_http_callback_stream_error]
    with read events enabled, and whose error callback returns when it
    is called; every bufferevent belongs to such a client; and no two
    clients share a connection. *)
Theorem clients_and_connections_are_paired (w : world) :
  reachable w ->
  (exists l, registry w l /\ NoDup l /\ length l = base.size (heap w))
  /\ (forall c cl, heap w !! c = Some cl ->
        exists k b, evcon (request cl) = Some k /\ bevs w !! k = Some b
                    /\ cbarg b = Some c /\ wired b
                    /\ exists w', exec (fire (Failed k)) w = Some w')
  /\ (forall k b, bevs w !! k = Some b ->
        exists c cl, cbarg b = Some c /\ heap w !! c = Some cl
                     /\ evcon (request cl) = Some k)
  /\ (forall c1 c2 cl1 cl2, heap w !! c1 = Some cl1 -> heap w !! c2 = Some cl2 ->
        evcon (request cl1) = evcon (request cl2) -> c1 = c2).
Proof.
  intros Hreach. pose proof (reachable_server_inv w Hreach) as Hinv.
  pose proof Hinv as (_ & _ & _ & _ & _ & [l Hreg] & Hcl & Hbv).
  split_and!.
  - exists l. split; [done|]. split; [by eapply registry_NoDup | by apply registry_length].
  - intros c cl Hc. destruct (Hcl c cl Hc) as (k & b & Hk & Hb & Harg & _).
    pose proof (reachable_wired w Hreach k b Hb) as Hw.
    exists k, b. split_and!; try done.
    destruct Hw as (_ & Herr & Hrd & _).
    assert (c ∈ l) as (l1 & l2 & ->)%list_elem_of_split.
    { destruct Hreg as [_ Hdom]. apply Hdom. by eexists. }
    destruct (stream_error_effect c w l1 l2 Hreg) as (w1 & cl1 & _ & Hrun & _).
    exists w1. unfold exec, fire. unfold bind at 1, gets at 1. unfold bind at 1, lift.
    rewrite Hb, Herr, Harg, Hrd. simpl. by rewrite Hrun.
  - done.
  - intros c1 c2 cl1 cl2. by apply server_inv_connections.
Qed.

(** *** A client that comes and goes *)

(** The links of a node are fixed by its neighbours in the list. *)
Lemma dseg_links h p cur l1 x l2 lst nxt :
  dseg h p cur (l1 ++ x :: l2) lst nxt ->
  exists cl, h !! x = Some cl
    /\ prev cl = match last l1 with Some y => Some y | None => p end
    /\ next cl = match l2 with y :: _ => Some y | [] => nxt end.
Proof.
  intros (q & m & Hd1 & Hd2)%dseg_app. simpl in Hd2.
  destruct Hd2 as (-> & cl & Hc & Hp & Hd2).
  exists cl. split; [done|]. split.
  - rewrite Hp. by apply dseg_lst in Hd1.
  - by apply dseg_cur in Hd2.
Qed.

Lemma stream_request_attaches (w w1 : world) (req : evhttp_request) (client : loc)
    (k : evhttp_connection) (l : list loc) :
  registry w l ->
  command req = EVHTTP_REQ_GET -> evcon req = Some k ->
  exec (fire (Stream_request req client)) w = Some w1 ->
  bevs w !! k = None /\ heap w !! client = None
  /\ _http_callback_stream req client w = Some (Pending, w1).
Proof.
  intros Hreg Hcmd Hk. unfold exec, fire. unfold bind at 1, gets at 1. unfold bind at 1.
  rewrite Hk. destruct (bevs w !! k) as [b|] eqn:Hb; [done|].
  unfold ret at 1. unfold bind at 1.
  destruct (heap w !! client) as [cl0|] eqn:Hfresh.
  { unfold _http_callback_stream, PROCESS_HEAD_REQUEST. rewrite Hcmd, Hk.
    unfold bind at 1, gets at 1. by rewrite Hfresh. }
  destruct (stream_attach_effect req client k w l Hreg Hcmd Hk Hfresh) as (w' & Hrun & _).
  rewrite Hrun. unfold ret. simpl. by intros [= <-].
Qed.

(** X12.  In every reachable state, a client that is attached by a GET
    on [/stream] and whose connection fails before anything else
    happens leaves no footprint: the error callback returns, and the
    heap of clients (with the links of every other client), the head
    of the registry, the bufferevents, the frame slot and the snapshot
    are what they were before the request. *)
Theorem attach_then_close_restores_the_server (w w1 : world) (req : evhttp_request)
    (client : loc) (k : evhttp_connection) :
  reachable w ->
  command req = EVHTTP_REQ_GET -> evcon req = Some k ->
  exec (fire (Stream_request req client)) w = Some w1 ->
  exists w2,
    exec (fire (Failed k)) w1 = Some w2
    /\ heap w2 = heap w /\ stream_clients w2 = stream_clients w /\ bevs w2 = bevs w
    /\ stream w2 = stream w /\ exposed w2 = exposed w.
Proof.
  intros Hreach Hcmd Hk Hfire.
  pose proof (reachable_server_inv w Hreach) as (_ & _ & _ & _ & _ & [l Hreg] & _).
  destruct (stream_request_attaches w w1 req client k l Hreg Hcmd Hk Hfire)
    as (Hbk & Hfresh & Hrun).
  destruct (stream_attach_effect req client k w l Hreg Hcmd Hk Hfresh)
    as (w' & Hrun' & Hreg1 & Hs1 & He1 & _ & (cn & Hcn & Hreq & _) & Hkeep & Hbevs).
  rewrite Hrun in Hrun'. injection Hrun' as <-.
  destruct (stream_error_effect client w1 l [] Hreg1)
    as (w2 & cn' & Hcn' & Herr & Hun & Hhead & Hs2 & He2 & _ & Hbevs2).
  rewrite Hcn in Hcn'. injection Hcn' as <-.
  rewrite Hreq, Hk in Hbevs2.
  (* the links of the new client *)
  pose proof Hreg1 as [[lst1 Hd1] Hdom1].
  pose proof Hreg as [[lst0 Hd0] Hdom0].
  pose proof (registry_NoDup _ _ Hreg) as Hnd.
  destruct (dseg_links _ _ _ _ _ _ _ _ Hd1) as (cn' & Hcn' & Hprevn & Hnextn).
  rewrite Hcn in Hcn'. injection Hcn' as <-.
  exists w2. split_and!.
  - unfold exec, fire. unfold bind at 1, gets at 1. unfold bind at 1, lift.
    rewrite Hbevs, lookup_insert_eq. simpl. by rewrite Herr.
  - destruct Hun as (Hgone & Hnone & Hothers).
    apply map_eq. intros x. destruct (decide (x = client)) as [->|Hx].
    { by rewrite Hgone, Hfresh. }
    destruct (heap w !! x) as [clx|] eqn:Hclx.
    2:{ apply Hnone. destruct (heap w1 !! x) eqn:Hx1; [|done]. exfalso.
        assert (x ∈ l ++ [client]) as Hin by (apply Hdom1; by eexists).
        apply elem_of_app in Hin as [Hin|Hin%list_elem_of_singleton]; [|done].
        apply Hdom0 in Hin as [? Hin]. congruence. }
    destruct (Hkeep x clx Hx Hclx) as (clx1 & Hclx1 & Hrq1 & Hni1).
    destruct (Hothers x clx1 Hx Hclx1) as (clx2 & -> & Hrq2 & Hni2 & Hp2 & Hn2).
    assert (x ∈ l) as (l1 & l2 & ->)%list_elem_of_split by (apply Hdom0; by eexists).
    destruct (dseg_links _ _ _ _ _ _ _ _ Hd0) as (c0 & Hc0 & Hprev0 & Hnext0).
    rewrite Hclx in Hc0. injection Hc0 as <-.
    rewrite <- app_assoc in Hd1. simpl in Hd1.
    destruct (dseg_links _ _ _ _ _ _ _ _ Hd1) as (c1 & Hc1 & Hprev1 & Hnext1).
    rewrite Hclx1 in Hc1. injection Hc1 as <-.
    rewrite Hnextn in Hp2, Hn2. rewrite decide_False in Hp2 by done.
    rewrite Hprevn in Hn2.
    f_equal. destruct clx2 as [r2 n2 p2 x2], clx as [r0 n0 p0 x0]. simpl in *.
    f_equal; try congruence.
    rewrite Hn2, Hnext0. destruct l2 as [|y l2].
    + rewrite last_snoc. by rewrite decide_True.
    + rewrite decide_False; [by rewrite Hnext1|].
      destruct (last (l1 ++ x :: y :: l2)) as [z|] eqn:Hlast; [|done].
      intros [= ->]. rewrite last_app in Hlast. simpl in Hlast.
      change (last (x :: y :: l2)) with (last (y :: l2)) in Hlast.
      destruct (last (y :: l2)) as [z|] eqn:Hz.
      * injection Hlast as ->. apply last_Some_elem_of in Hz.
        apply NoDup_app in Hnd as (_ & _ & [Hnot _]%NoDup_cons). done.
      * by apply last_None in Hz.
  - rewrite Hhead. destruct l as [|a l'].
    + rewrite Hnextn. destruct Hd0 as [<- _]. done.
    + apply dseg_cur in Hd0, Hd1. simpl in *. congruence.
  - rewrite Hbevs2, Hbevs. by apply delete_insert_id.
  - congruence.
  - congruence.
Qed.

(** X15.  A client that is attached while the server is online and no
    new frame is pending gets nothing, not even the preamble, from any
    number of ticks: after them its bufferevent still has no write
    callback and an empty output, so the write callback cannot be
    called on it.  It is served only once the producer publishes. *)
Theorem new_client_waits_for_the_next_frame (w w1 : world) (req : evhttp_request)
    (client : loc) (k : evhttp_connection) (junks : list (nat -> byte)) :
  reachable w ->
  command req = EVHTTP_REQ_GET -> evcon req = Some k ->
  exec (fire (Stream_request req client)) w = Some w1 ->
  updated (stream w) = false -> online (exposed w) = true ->
  exists w2 b,
    run (Refresh <$> junks) w1 = Some w2
    /\ bevs w2 !! k = Some b
    /\ writecb b = None /\ wired b /\ output b = []
    /\ forall now, exec (fire (Writable k now)) w2 = None.
Proof.
  intros Hreach Hcmd Hk Hfire Hu Hon.
  pose proof (reachable_server_inv w Hreach) as (_ & _ & _ & _ & _ & [l Hreg] & _).
  destruct (stream_request_attaches w w1 req client k l Hreg Hcmd Hk Hfire)
    as (Hbk & Hfresh & Hrun).
  destruct (stream_attach_effect req client k w l Hreg Hcmd Hk Hfresh)
    as (w' & Hrun' & _ & Hs1 & He1 & _ & _ & _ & Hbevs).
  rewrite Hrun in Hrun'. injection Hrun' as <-.
  rewrite <- Hs1 in Hu. rewrite <- He1 in Hon.
  assert (exists b, bevs w1 !! k = Some b /\ writecb b = None /\ wired b /\ output b = [])
    as Hb.
  { rewrite Hbevs, lookup_insert_eq. eexists. split; [done|]. unfold wired, get_bufferevent.
    by rewrite Hbk. }
  clear - Hu Hon Hb. revert w1 Hu Hon Hb.
  induction junks as [|junk junks IH]; intros w1 Hu Hon (b & Hb & Hw & Hwd & Hout).
  - exists w1, b. split_and!; try done.
    intros now. unfold exec, fire, bind, gets, lift. by rewrite Hb, Hw.
  - simpl.
    assert (exec (_http_exposed_refresh junk) w1
            = Some (set_trace (trace w1 ++ [E_read F_updated]) w1)) as ->.
    { unfold exec, _http_exposed_refresh.
      unfold bind at 1, stream_get at 1, bind at 1, log at 1, modify at 1, gets at 1. simpl.
      rewrite Hu. unfold bind, exposed_get, gets. simpl. by rewrite Hon. }
    apply IH; try done. by exists b.
Qed.

(** X14.  In every reachable state, the part that a write callback
    appends carries what a GET on [/snapshot] would be answered with at
    that moment: its JPEG bytes are the body of that reply, its
    [Content-Length] is the length of that body in decimal, and its
    [X-Timestamp] is the value of the reply's [X-Timestamp] header. *)
Theorem stream_part_carries_the_snapshot (w w' : world) (k : evhttp_connection)
    (now : timespec) (req : evhttp_request) :
  reachable w ->
  command req = EVHTTP_REQ_GET ->
  exec (fire (Writable k now)) w = Some w' ->
  exists r b b' c cl,
    _http_callback_snapshot req (exposed w) now = Some r
    /\ bevs w !! k = Some b /\ cbarg b = Some c /\ heap w !! c = Some cl
    /\ bevs w' !! k = Some b'
    /\ output b'
       = output b
         ++ (if need_initial cl then spec_preamble else [])
         ++ spec_part (Part (fmt_lu (length (body r))) (x_timestamp now) (body r))
    /\ ("X-Timestamp"%string, x_timestamp now) ∈ headers r.
Proof.
  intros Hinv%reachable_server_inv Hcmd. unfold exec at 1, fire at 1.
  unfold bind at 1, gets at 1. unfold bind at 1, lift.
  destruct (bevs w !! k) as [b|] eqn:Hb; [|done].
  destruct (writecb b) as [[]|]; try done.
  destruct (cbarg b) as [c|] eqn:Harg; [|done].
  destruct (ev_write b); [|done].
  pose proof Hinv as (_ & _ & _ & [Hf1 Hf2] & _ & _ & _ & Hbv).
  destruct (Hbv k b Hb) as (c' & cl & Harg' & Hc & _).
  rewrite Harg in Harg'. injection Harg' as <-.
  rewrite (stream_write_effect k c now w cl Hc) by lia.
  simpl. intros [= <-].
  rewrite (snapshot_reply req (exposed w) now Hcmd) by lia.
  eexists _, b, _, c, cl. split; [reflexivity|]. split_and!; try done.
  - simpl. by rewrite lookup_insert_eq.
  - simpl. unfold get_bufferevent. rewrite Hb. simpl.
    rewrite stream_part_spec, stream_preamble_spec, length_take.
    by rewrite Nat.min_l by lia.
  - simpl. rewrite !elem_of_app, !elem_of_cons. tauto.
Qed.

(** *** No callback goes wrong *)

(** X16.  In every reachable state the callbacks run without stepping
    out of memory: the refresh tick returns; [/snapshot] is answered
    [200] for every request; a request on [/stream] whose client block
    is fresh and whose connection carries no client yet returns; and
    the write callback returns on every bufferevent on which it is
    set. *)
Theorem callbacks_return_in_every_reachable_state (w : world) :
  reachable w ->
  (forall junk, exists w', exec (fire (Refresh junk)) w = Some w')
  /\ (forall req now, exists r,
        _http_callback_snapshot req (exposed w) now = Some r /\ code r = 200)
  /\ (forall req client,
        heap w !! client = None ->
        (forall k, evcon req = Some k -> bevs w !! k = None) ->
        exists w', exec (fire (Stream_request req client)) w = Some w')
  /\ (forall k b now,
        bevs w !! k = Some b -> writecb b = Some CB_stream_write ->
        exists w', exec (fire (Writable k now)) w = Some w').
Proof.
  intros Hreach. pose proof (reachable_server_inv w Hreach) as Hinv.
  pose proof Hinv as (_ & _ & _ & [Hf1 Hf2] & _ & [l Hreg] & _).
  split_and!.
  - intros junk. by apply refresh_returns.
  - intros req now. destruct (command req) eqn:Hcmd.
    + rewrite (snapshot_reply req (exposed w) now Hcmd) by lia. by eexists.
    + unfold _http_callback_snapshot, PROCESS_HEAD_REQUEST. rewrite Hcmd. by eexists.
  - intros req client Hfresh Hnew. unfold exec, fire.
    unfold bind at 1, gets at 1. unfold bind at 1.
    destruct (command req) eqn:Hcmd.
    2:{ unfold _http_callback_stream, PROCESS_HEAD_REQUEST. rewrite Hcmd.
        destruct (evcon req) as [k|] eqn:Hk; [rewrite (Hnew k eq_refl)|];
          unfold bind, ret; simpl; by eexists. }
    destruct (evcon req) as [k|] eqn:Hk.
    2:{ unfold _http_callback_stream, PROCESS_HEAD_REQUEST. rewrite Hcmd, Hk.
        unfold bind, ret; simpl; by eexists. }
    rewrite (Hnew k eq_refl). unfold ret at 1. unfold bind at 1.
    destruct (stream_attach_effect req client k w l Hreg Hcmd Hk Hfresh) as (w1 & -> & _).
    unfold ret. simpl. by eexists.
  - intros k b now Hb Hcb.
    destruct (reachable_wired w Hreach k b Hb) as (_ & _ & _ & Hev).
    eapply writable_returns; eauto.
Qed.

Lemma run_reachable (es : list loop_event) (w w' : world) :
  reachable w -> run es w = Some w' -> reachable w'.
Proof.
  revert w. induction es as [|e es IH]; intros w Hreach; simpl.
  - by intros [= <-].
  - destruct (exec (fire e) w) as [w1|] eqn:Hstep; [|done].
    apply IH. by eapply reachable_fire.
Qed.
End Behaviour.

(** ** The properties on the sample server *)

Lemma sample_world_reachable : @reachable sample_blank sample_world.
Proof.
  eapply (reachable_init sample_stream sample_junk);
    [reflexivity | simpl; lia | simpl; lia | vm_compute; reflexivity].
Qed.

Lemma sample_after_reachable (es : list loop_event) :
  is_Some (@run sample_blank es sample_world) -> @reachable sample_blank (sample_after es).
Proof.
  intros [w Hw]. unfold sample_after. rewrite Hw. simpl.
  eapply run_reachable; [apply sample_world_reachable | exact Hw].
Qed.

Lemma sample_attached_reachable : @reachable sample_blank sample_attached.
Proof. apply sample_after_reachable. vm_compute. by eexists. Qed.

Lemma sample_armed_reachable : @reachable sample_blank sample_armed.
Proof. apply sample_after_reachable. vm_compute. by eexists. Qed.

Lemma head_is_answered_without_body_witness :
  _http_callback_snapshot (sample_head None) (exposed sample_world) sample_clock
  = Some (Reply 200 "OK" [] []).
Proof.
  apply (head_is_answered_without_body (sample_head None)
           (exposed sample_world) sample_clock).
  reflexivity.
Defined.

Lemma ping_body_tells_the_snapshot_witness :
  body (_http_callback_ping (sample_get None) (exposed sample_world))
  = body (_http_callback_ping (sample_get (Some 11%positive))
            (Exposed (Picture [] 0 0) 640 480 false)).
Proof.
  apply (ping_body_tells_the_snapshot (sample_get None) (sample_get (Some 11%positive))
           (exposed sample_world) (Exposed (Picture [] 0 0) 640 480 false));
    [reflexivity | reflexivity | repeat split].
Defined.

Lemma offline_server_shows_the_blank_witness :
  exists r, _http_callback_snapshot (sample_get None) (exposed sample_world) sample_clock
            = Some r
            /\ body r = @BLANK_JPG_DATA sample_blank.
Proof.
  apply (@offline_server_shows_the_blank sample_blank sample_world (sample_get None)
           sample_clock sample_world_reachable);
    reflexivity.
Defined.

Lemma published_frame_is_served_witness :
  exists w1 w2 r,
    exec (@fire sample_blank (Produce sample_frame 320 240)) sample_served = Some w1
    /\ exec (@fire sample_blank (Refresh sample_junk)) w1 = Some w2
    /\ _http_callback_snapshot (sample_get None) (exposed w2) sample_clock = Some r
    /\ body r = take 6 (data sample_frame).
Proof.
  destruct (@published_frame_is_served sample_blank sample_served sample_frame 320 240
              sample_junk (sample_get None) sample_clock sample_served_reachable)
    as (w1 & w2 & r & H1 & H2 & _ & _ & H3 & H4 & _);
    [simpl; lia | simpl; lia | simpl; lia | reflexivity |].
  exists w1, w2, r. split; [exact H1|]. split; [exact H2|]. split; [exact H3|]. exact H4.
Defined.

Lemma empty_frame_takes_the_server_offline_witness :
  exists w1 w2,
    exec (@fire sample_blank (Produce (Picture [] 0 0) 320 240)) sample_served = Some w1
    /\ exec (@fire sample_blank (Refresh sample_junk)) w1 = Some w2
    /\ online (exposed sample_served) = true
    /\ online (exposed w2) = false.
Proof.
  destruct (@empty_frame_takes_the_server_offline sample_blank sample_served (Picture [] 0 0)
              320 240 sample_junk (sample_get None) sample_clock sample_served_reachable)
    as (w1 & w2 & r & H1 & H2 & _ & H3 & _);
    [reflexivity | reflexivity |].
  exists w1, w2. split; [exact H1|]. split; [exact H2|]. split; [reflexivity|]. exact H3.
Defined.

Lemma tick_delivers_the_snapshot_to_every_client_witness :
  exists w' b',
    exec (@fire sample_blank (Refresh sample_junk)) sample_attached = Some w'
    /\ bevs w' !! 11%positive = Some b'
    /\ armed 1%positive b'.
Proof.
  assert (exists w', exec (@fire sample_blank (Refresh sample_junk)) sample_attached = Some w')
    as [w' Hw'] by (eexists; vm_compute; reflexivity).
  assert (exists cl, heap sample_attached !! 1%positive = Some cl
                     /\ evcon (request cl) = Some 11%positive) as (cl & Hc & Hk)
    by (eexists; split; vm_compute; reflexivity).
  destruct (@tick_delivers_the_snapshot_to_every_client sample_blank sample_attached w'
              sample_junk sample_attached_reachable (or_introl eq_refl) Hw'
              1%positive cl 11%positive Hc Hk)
    as (b & b' & _ & Hb' & Harmed & _).
  exists w', b'. split; [exact Hw'|]. split; [exact Hb'|]. exact Harmed.
Defined.

Lemma tick_is_idle_while_online_witness :
  exists w1,
    exec (@_http_exposed_refresh sample_blank sample_junk) sample_world = Some w1
    /\ exec (@_http_exposed_refresh sample_blank sample_junk) w1
       = Some (set_trace (trace w1 ++ [E_read F_updated]) w1).
Proof.
  assert (exists w1, exec (@_http_exposed_refresh sample_blank sample_junk) sample_world
                     = Some w1 /\ online (exposed w1) = true) as (w1 & Hw1 & Hon)
    by (eexists; split; vm_compute; reflexivity).
  exists w1. split; [exact Hw1|].
  exact (@tick_is_idle_while_online sample_blank sample_world w1 sample_junk sample_junk
           Hw1 Hon).
Defined.

Lemma write_callback_serves_one_client_once_witness :
  exec (@fire sample_blank (Writable 11%positive sample_clock)) sample_armed
  = Some sample_served
  /\ forall now, exec (@fire sample_blank (Writable 11%positive now)) sample_served = None.
Proof.
  assert (exec (@fire sample_blank (Writable 11%positive sample_clock)) sample_armed
          = Some sample_served) as Hrun by (vm_compute; reflexivity).
  split; [exact Hrun|].
  destruct (@write_callback_serves_one_client_once sample_blank sample_armed sample_served
              11%positive sample_clock sample_armed_reachable Hrun) as (_ & Honce & _).
  exact Honce.
Defined.

Lemma server_never_writes_the_producers_frame_witness :
  exists w',
    exec (@fire sample_blank (Refresh sample_junk)) sample_world = Some w'
    /\ stream_picture (stream w') = sample_frame.
Proof.
  assert (exists w', exec (@fire sample_blank (Refresh sample_junk)) sample_world = Some w')
    as [w' Hw'] by (eexists; vm_compute; reflexivity).
  exists w'. split; [exact Hw'|].
  destruct (@server_never_writes_the_producers_frame sample_blank sample_world w'
              (Refresh sample_junk) sample_world_reachable) as [Hp _]; [discriminate | exact Hw' |].
  exact Hp.
Defined.

Lemma exposed_capacity_never_shrinks_witness :
  allocated (exposed_picture (exposed sample_world))
  <= allocated (exposed_picture (exposed sample_served)).
Proof.
  apply (@exposed_capacity_never_shrinks sample_blank sample_world sample_served
           [Stream_request (sample_get (Some 11%positive)) 1%positive;
            Refresh sample_junk;
            Writable 11%positive sample_clock] sample_world_reachable).
  vm_compute. reflexivity.
Defined.

Lemma failed_connection_is_never_served_again_witness :
  exists w' c cl,
    exec (@fire sample_blank (Failed 11%positive)) sample_served = Some w'
    /\ heap sample_served !! c = Some cl
    /\ heap w' !! c = None
    /\ bevs w' !! 11%positive = None.
Proof.
  assert (exists w', exec (@fire sample_blank (Failed 11%positive)) sample_served = Some w')
    as [w' Hw'] by (eexists; vm_compute; reflexivity).
  destruct (@failed_connection_is_never_served_again sample_blank sample_served w'
              11%positive sample_served_reachable Hw')
    as (c & cl & Hc & Hk & Hgone & Hbev & _).
  exists w', c, cl. split; [exact Hw'|]. split; [exact Hc|]. split; [exact Hgone|]. exact Hbev.
Defined.

Lemma attach_then_close_restores_the_server_witness :
  exists w2,
    exec (@fire sample_blank (Failed 11%positive)) sample_attached = Some w2
    /\ heap w2 = heap sample_world /\ bevs w2 = bevs sample_world.
Proof.
  destruct (@attach_then_close_restores_the_server sample_blank sample_world sample_attached
              (sample_get (Some 11%positive)) 1%positive 11%positive sample_world_reachable)
    as (w2 & Hrun & Hh & _ & Hb & _);
    [reflexivity | reflexivity | vm_compute; reflexivity |].
  exists w2. split; [exact Hrun|]. split; [exact Hh|]. exact Hb.
Defined.

Lemma clients_and_connections_are_paired_witness :
  exists l, registry sample_served l /\ NoDup l /\ length l = base.size (heap sample_served).
Proof.
  destruct (@clients_and_connections_are_paired sample_blank sample_served
              sample_served_reachable) as [Hl _].
  exact Hl.
Defined.

Lemma stream_part_carries_the_snapshot_witness :
  exists r b',
    _http_callback_snapshot (sample_get None) (exposed sample_armed) sample_clock = Some r
    /\ bevs sample_served !! 11%positive = Some b'
    /\ output b' = spec_preamble
                   ++ spec_part (Part (fmt_lu (length (body r))) (x_timestamp sample_clock)
                                   (body r)).
Proof.
  destruct (@stream_part_carries_the_snapshot sample_blank sample_armed sample_served
              11%positive sample_clock (sample_get None) sample_armed_reachable)
    as (r & b & b' & c & cl & Hr & Hb & Harg & Hc & Hb' & Hout & _);
    [reflexivity | vm_compute; reflexivity |].
  exists r, b'. split; [exact Hr|]. split; [exact Hb'|]. rewrite Hout.
  assert (bevs sample_armed !! 11%positive
          = Some (Bufferevent None (Some CB_stream_write) (Some CB_stream_error)
                    (Some 1%positive) true true [])) as Hb0 by (vm_compute; reflexivity).
  rewrite Hb0 in Hb. injection Hb as <-. simpl in Harg. injection Harg as <-.
  assert (heap sample_armed !! 1%positive
          = Some (Client (sample_get (Some 11%positive)) true None None)) as Hc0
    by (vm_compute; reflexivity).
  rewrite Hc0 in Hc. injection Hc as <-. reflexivity.
Defined.

Lemma new_client_waits_for_the_next_frame_witness :
  exists w1 w2 b,
    exec (@fire sample_blank (Stream_request (sample_get (Some 12%positive)) 2%positive))
      sample_served = Some w1
    /\ @run sample_blank [Refresh sample_junk; Refresh sample_junk] w1 = Some w2
    /\ bevs w2 !! 12%positive = Some b
    /\ output b = [].
Proof.
  assert (exists w1,
            exec (@fire sample_blank (Stream_request (sample_get (Some 12%positive)) 2%positive))
              sample_served = Some w1) as [w1 Hw1] by (eexists; vm_compute; reflexivity).
  destruct (@new_client_waits_for_the_next_frame sample_blank sample_served w1
              (sample_get (Some 12%positive)) 2%positive 12%positive [sample_junk; sample_junk]
              sample_served_reachable)
    as (w2 & b & Hrun & Hb & _ & _ & Hout & _);
    [reflexivity | reflexivity | exact Hw1 | vm_compute; reflexivity
    | vm_compute; reflexivity |].
  exists w1, w2, b. split; [exact Hw1|]. split; [exact Hrun|]. split; [exact Hb|]. exact Hout.
Defined.

Lemma callbacks_return_in_every_reachable_state_witness :
  exists w', exec (@fire sample_blank (Refresh sample_junk)) sample_served = Some w'.
Proof.
  destruct (@callbacks_return_in_every_reachable_state sample_blank sample_served
              sample_served_reachable) as [Htick _].
  apply Htick.
Defined.
